(** * vue-tdd-test: the test helpers, the test setup and the TDD command-line scripts

    A shallow embedding of
    - [src/test/helpers/vue-testing.ts] ([getEmittedEvent],
      [getAllEmittedEvents] and the mounting helpers),
    - [src/test/setup.ts] (the storage mock shared by [window.localStorage]
      and [window.sessionStorage], the matcher [toHaveBeenCalledWithEvent],
      and the Testing Library helpers listed with it),
    - [src/test/helpers/index.ts] ([waitFor]),
    - [src/test/helpers/composables-testing.ts] ([testReactiveComposable]),
    - [scripts/create-tdd-component.js] (the scaffold generator),
    - the batch generator [generate-tests-from-issue] and
    - the interactive feature command line,
    together with the properties the specification states about them and
    further properties read off the code.

    JavaScript strings are modelled as byte strings, JavaScript numbers that
    are used as counters or indices as [Z] or [nat]. *)

From Stdlib Require Import String Ascii ZArith Lia List Bool DecimalString.
From stdpp Require Import base option list gmap strings.

Set Warnings "-register-all".

Open Scope string_scope.
Open Scope list_scope.
Open Scope Z_scope.

(** ** JavaScript values *)

Module Js.

(** The values that flow through the modelled code.  [VObj] is an opaque
    reference to an object or a function, named by where it comes from. *)
Inductive Value : Type :=
| VUndefined
| VNull
| VBool (b : bool)
| VNum (n : Z)
| VStr (s : string)
| VObj (name : string).

(** ToBoolean. *)
Definition truthy (v : Value) : bool :=
  match v with
  | VUndefined | VNull => false
  | VBool b => b
  | VNum n => negb (n =? 0)
  | VStr s => negb (String.eqb s "")
  | VObj _ => true
  end.

(** [a || b]. *)
Definition or_else (a b : Value) : Value := if truthy a then a else b.

(** [arr[i]] on an array: [undefined] outside [0 .. length-1]. *)
Definition index {A : Type} (arr : list A) (i : Z) : option A :=
  if i <? 0 then None else arr !! Z.to_nat i.

(** Truthiness of an optional string ([undefined] when absent), as in
    [!componentName]. *)
Definition truthy_str (s : option string) : bool :=
  match s with
  | Some s => negb (String.eqb s "")
  | None => false
  end.

End Js.

Import Js.

(** ** [src/test/helpers/vue-testing.ts] *)

Module VueTesting.

(** What [getEmittedEvent] uses of a [VueWrapper]: [wrapper.emitted(name)]
    is the list of emissions of [name], each emission the list of its
    payload arguments, or [undefined] when [name] was never emitted. *)
Record VueWrapper : Type := {
  emitted_events : gmap string (list (list Value))
}.

Definition emitted (wrapper : VueWrapper) (eventName : string)
  : option (list (list Value)) :=
  emitted_events wrapper !! eventName.

(** [getEmittedEvent(wrapper, eventName, index = 0)]; an omitted [index]
    is [None]. *)
Definition getEmittedEvent (wrapper : VueWrapper) (eventName : string)
    (index : option Z) : Value :=
  let index := default 0 index in
  match emitted wrapper eventName with
  | None => VUndefined
  | Some emitted =>
      match Js.index emitted index with
      | None => VUndefined
      | Some emission => default VUndefined (emission !! 0%nat)
      end
  end.

End VueTesting.

(** ** [src/test/setup.ts]: the storage mock *)

Module Setup.

(** The property names every plain object inherits from
    [Object.prototype]. *)
Definition object_prototype_keys : list string :=
  [ "constructor"; "__defineGetter__"; "__defineSetter__"; "hasOwnProperty";
    "__lookupGetter__"; "__lookupSetter__"; "isPrototypeOf";
    "propertyIsEnumerable"; "toString"; "valueOf"; "__proto__";
    "toLocaleString" ].

Definition inherited (key : string) : bool :=
  bool_decide (key ∈ object_prototype_keys).

(** [store]: the own properties of the closure's plain object, in creation
    order. *)
Definition Store : Type := list (string * string).

Fixpoint own (store : Store) (key : string) : option string :=
  match store with
  | [] => None
  | (k, v) :: rest => if String.eqb k key then Some v else own rest key
  end.

(** [store[key]] as an expression: the own property, else what
    [Object.prototype] provides, else [undefined]. *)
Definition get (store : Store) (key : string) : Value :=
  match own store key with
  | Some v => VStr v
  | None =>
      if inherited key then VObj ("Object.prototype." +:+ key) else VUndefined
  end.

Fixpoint assign (store : Store) (key value : string) : Store :=
  match store with
  | [] => [(key, value)]
  | (k, v) :: rest =>
      if String.eqb k key then (k, value) :: rest
      else (k, v) :: assign rest key value
  end.

(** [store[key] = value] for a string [value]: the [__proto__] setter
    ignores a value that is not an object; every other key becomes (or
    stays) an own property. *)
Definition set (store : Store) (key value : string) : Store :=
  if String.eqb key "__proto__" then store else assign store key value.

(** [delete store[key]]. *)
Definition remove (store : Store) (key : string) : Store :=
  filter (fun kv => negb (String.eqb (fst kv) key)) store.

(** An array index: a canonical decimal numeral below [2^32 - 1]. *)
Definition digit (c : ascii) : option N :=
  let n := N_of_ascii c in
  if ((48 <=? n) && (n <=? 57))%N then Some (n - 48)%N else None.

Fixpoint decimal (s : string) (acc : N) : option N :=
  match s with
  | EmptyString => Some acc
  | String c s' =>
      match digit c with
      | Some d => decimal s' (acc * 10 + d)%N
      | None => None
      end
  end.

Definition array_index (key : string) : option N :=
  match key with
  | EmptyString => None
  | String c rest =>
      if Ascii.eqb c "0"%char && negb (String.eqb rest "") then None
      else
        match decimal key 0%N with
        | Some n => if (n <? 4294967295)%N then Some n else None
        | None => None
        end
  end.

Fixpoint insert_sorted (k : N * string) (l : list (N * string)) : list (N * string) :=
  match l with
  | [] => [k]
  | k' :: rest =>
      if (fst k <=? fst k')%N then k :: l else k' :: insert_sorted k rest
  end.

(** [Object.keys(store)]: array indices in ascending order, then the other
    keys in creation order. *)
Definition keys (store : Store) : list string :=
  let indexed :=
    foldr (fun kv acc =>
             match array_index (fst kv) with
             | Some n => insert_sorted (n, fst kv) acc
             | None => acc
             end) [] store in
  let named :=
    filter (fun k => negb (bool_decide (is_Some (array_index k)))) (map fst store) in
  map snd indexed ++ named.

(** The operations of [localStorageMock] on its closure variable.
    [value.toString()] is the identity on the strings the signature
    allows. *)
Definition getItem (store : Store) (key : string) : Value :=
  or_else (get store key) VNull.

Definition setItem (store : Store) (key value : string) : Store :=
  set store key value.

Definition removeItem (store : Store) (key : string) : Store :=
  remove store key.

Definition clear (store : Store) : Store := [].

Definition length (store : Store) : nat := List.length (keys store).

Definition key (store : Store) (index : Z) : Value :=
  or_else (default VUndefined (VStr <$> Js.index (keys store) index)) VNull.

(** The window after the setup file ran: objects live in a heap and the
    two window properties hold references into it. *)
Record Window : Type := {
  heap : gmap nat Store;
  localStorage : nat;
  sessionStorage : nat
}.

(** [const localStorageMock = (() => { let store = {} ... })()] followed by
    the two [Object.defineProperty] calls, both with
    [value: localStorageMock]. *)
Definition install : Window :=
  let localStorageMock := 0%nat in
  {| heap := {[ localStorageMock := [] ]};
     localStorage := localStorageMock;
     sessionStorage := localStorageMock |}.

Inductive Which : Type := Local | Session.

Definition ref (w : Window) (which : Which) : nat :=
  match which with
  | Local => localStorage w
  | Session => sessionStorage w
  end.

Definition update (w : Window) (which : Which) (f : Store -> Store) : Window :=
  {| heap := alter f (ref w which) (heap w);
     localStorage := localStorage w;
     sessionStorage := sessionStorage w |}.

(** [window.<which>.getItem(key)] and its siblings. *)
Definition call_getItem (w : Window) (which : Which) (key : string) : option Value :=
  (fun store => getItem store key) <$> heap w !! ref w which.

Definition call_setItem (w : Window) (which : Which) (key value : string) : Window :=
  update w which (fun store => setItem store key value).

Definition call_removeItem (w : Window) (which : Which) (key : string) : Window :=
  update w which (fun store => removeItem store key).

Definition call_clear (w : Window) (which : Which) : Window :=
  update w which clear.

Definition call_length (w : Window) (which : Which) : option nat :=
  length <$> heap w !! ref w which.

(** The states the window can be in after setup. *)
Inductive Op : Type :=
| OpSet (which : Which) (key value : string)
| OpRemove (which : Which) (key : string)
| OpClear (which : Which).

Definition step (w : Window) (op : Op) : Window :=
  match op with
  | OpSet which key value => call_setItem w which key value
  | OpRemove which key => call_removeItem w which key
  | OpClear which => call_clear w which
  end.

Definition after (ops : list Op) : Window := foldl step install ops.

Definition other (which : Which) : Which :=
  match which with Local => Session | Session => Local end.

End Setup.

(** ** Strings *)

Module Str.

Definition nl : string := String (ascii_of_nat 10) EmptyString.
Definition dquote : string := String (ascii_of_nat 34) EmptyString.
Definition backslash : string := String (ascii_of_nat 92) EmptyString.
Definition backtick : string := String (ascii_of_nat 96) EmptyString.

(** [lines.join('\n')]. *)
Fixpoint join (sep : string) (parts : list string) : string :=
  match parts with
  | [] => ""
  | [p] => p
  | p :: rest => p +:+ sep +:+ join sep rest
  end.

(** The text of a template literal, one list element per line, each line
    ended by a line feed. *)
Fixpoint text (lines : list string) : string :=
  match lines with
  | [] => ""
  | l :: rest => l +:+ nl +:+ text rest
  end.

Definition lower_ascii (c : ascii) : ascii :=
  let n := N_of_ascii c in
  if ((65 <=? n) && (n <=? 90))%N then ascii_of_N (n + 32) else c.

(** [s.toLowerCase()] on the ASCII letters; other bytes are kept. *)
Fixpoint toLowerCase (s : string) : string :=
  match s with
  | EmptyString => EmptyString
  | String c s' => String (lower_ascii c) (toLowerCase s')
  end.

(** ASCII white space (the white space [trim] removes, restricted to one
    byte characters). *)
Definition is_space (c : ascii) : bool :=
  let n := N_of_ascii c in
  ((n =? 32) || ((9 <=? n) && (n <=? 13)))%N.

Fixpoint trimStart (s : string) : string :=
  match s with
  | EmptyString => EmptyString
  | String c s' => if is_space c then trimStart s' else s
  end.

Fixpoint trimEnd (s : string) : string :=
  match s with
  | EmptyString => EmptyString
  | String c s' =>
      match trimEnd s' with
      | EmptyString => if is_space c then EmptyString else String c EmptyString
      | t => String c t
      end
  end.

Definition trim (s : string) : string := trimEnd (trimStart s).

(** [s.split(sep)] for a one character separator. *)
Fixpoint split (sep : ascii) (s : string) : list string :=
  match s with
  | EmptyString => [""]
  | String c s' =>
      if Ascii.eqb c sep then "" :: split sep s'
      else
        match split sep s' with
        | [] => [String c EmptyString]
        | p :: rest => String c p :: rest
        end
  end.

(** [s.replace(/[...]/g, by)]: every character satisfying [p] is replaced. *)
Fixpoint replace_chars (p : ascii -> bool) (by_ : string) (s : string) : string :=
  match s with
  | EmptyString => EmptyString
  | String c s' =>
      (if p c then by_ else String c EmptyString) +:+ replace_chars p by_ s'
  end.

(** [haystack.includes(needle)]. *)
Fixpoint includes (needle haystack : string) : bool :=
  String.prefix needle haystack ||
  match haystack with
  | EmptyString => false
  | String _ rest => includes needle rest
  end.

(** Decimal rendering of a number in a template literal. *)
Definition of_nat (n : nat) : string :=
  DecimalString.NilEmpty.string_of_uint (Nat.to_uint n).

Definition of_bool (b : bool) : string := if b then "true" else "false".

End Str.

(** ** Processes: the host, the effects and their log *)

Module Process.

(** A JavaScript [Error]. *)
Record JsError : Type := {
  message : string;
  stack : string
}.

Inductive Result (A : Type) : Type :=
| Ok (a : A)
| Err (e : JsError).
Arguments Ok {A} a.
Arguments Err {A} e.

(** JSON values, as [JSON.parse] returns them. *)
Inductive Json : Type :=
| JNull
| JBool (b : bool)
| JNum (n : Z)
| JStr (s : string)
| JArr (items : list Json)
| JObj (fields : list (string * Json)).

(** An entry of the file system. *)
Inductive Entry : Type :=
| File (content : string)
| Dir.

(** What a run does to the outside, in the order it does it. *)
Inductive Event : Type :=
| Stdout (line : string)          (* console.log *)
| Stderr (line : string)          (* console.error, console.warn *)
| Asked (question : string)       (* rl.question *)
| Ran (command : string)          (* execSync *)
| Probed (path : string)          (* fs.existsSync *)
| MadeDir (path : string)         (* fs.mkdirSync *)
| Wrote (path content : string)   (* fs.writeFileSync *)
| Called (function : string)      (* a call into the test generator package *)
| Closed.                         (* rl.close *)

(** The host: the builtins and the outside world a script runs against.
    [path_join], [json_parse], and the outcome of each external command and
    of each file system write are the host's; the scripts are verified for
    every host. *)
Record World : Type := {
  argv : list string;                     (* process.argv *)
  dirname : string;                       (* __dirname of the script *)
  cwd : string;                           (* process.cwd() *)
  now : string;                           (* new Date().toISOString() *)
  stdin : list string;                    (* the lines the questions still get *)
  fs : gmap string Entry;
  denied : gmap string JsError;           (* paths the host refuses to write *)
  path_join : list string -> string;      (* path.join *)
  json_parse : string -> Result Json;     (* JSON.parse *)
  exec : string -> Result string          (* execSync: output, or the failure *)
}.

Definition with_fs (w : World) (f : gmap string Entry) : World :=
  {| argv := argv w; dirname := dirname w; cwd := cwd w; now := now w;
     stdin := stdin w; fs := f; denied := denied w;
     path_join := path_join w; json_parse := json_parse w; exec := exec w |}.

Definition with_stdin (w : World) (i : list string) : World :=
  {| argv := argv w; dirname := dirname w; cwd := cwd w; now := now w;
     stdin := i; fs := fs w; denied := denied w;
     path_join := path_join w; json_parse := json_parse w; exec := exec w |}.

(** How a computation ends: with a value, with a thrown error, with
    [process.exit(code)], or waiting for input that never comes. *)
Inductive Outcome (A : Type) : Type :=
| Ret (a : A)
| Throw (e : JsError)
| Exit (code : Z)
| Stall.
Arguments Ret {A} a.
Arguments Throw {A} e.
Arguments Exit {A} code.
Arguments Stall {A}.

(** A computation takes the world to a new world, the events it caused and
    its outcome. *)
Definition Proc (A : Type) : Type := World -> World * list Event * Outcome A.

Definition ret {A : Type} (a : A) : Proc A := fun w => (w, [], Ret a).

Definition bind {A B : Type} (m : Proc A) (k : A -> Proc B) : Proc B :=
  fun w =>
    match m w with
    | (w', t, Ret a) => let '(w'', t', o) := k a w' in (w'', t ++ t', o)
    | (w', t, Throw e) => (w', t, Throw e)
    | (w', t, Exit c) => (w', t, Exit c)
    | (w', t, Stall) => (w', t, Stall)
    end.

Definition throw {A : Type} (e : JsError) : Proc A := fun w => (w, [], Throw e).

(** [process.exit(code)]: nothing after it runs, and no [catch] sees it. *)
Definition process_exit {A : Type} (code : Z) : Proc A := fun w => (w, [], Exit code).

(** [try { body } catch (error) { handler }]. *)
Definition try_catch {A : Type} (body : Proc A) (handler : JsError -> Proc A) : Proc A :=
  fun w =>
    match body w with
    | (w', t, Throw e) => let '(w'', t', o) := handler e w' in (w'', t ++ t', o)
    | r => r
    end.

Definition lift {A : Type} (r : Result A) : Proc A :=
  match r with
  | Ok a => ret a
  | Err e => throw e
  end.

Definition emit (e : Event) : Proc unit := fun w => (w, [e], Ret tt).

Definition ask {A : Type} (f : World -> A) : Proc A := fun w => (w, [], Ret (f w)).

End Process.

Import Process.

Declare Scope proc_scope.
Delimit Scope proc_scope with proc.
Notation "x <- m ;; k" := (bind m (fun x => k))
  (at level 100, m at next level, right associativity) : proc_scope.
Notation "m ;; k" := (bind m (fun _ => k))
  (at level 100, right associativity) : proc_scope.
Open Scope proc_scope.

Module Node.

Definition console_log (line : string) : Proc unit := emit (Stdout line).
Definition console_error (line : string) : Proc unit := emit (Stderr line).
Definition console_warn (line : string) : Proc unit := emit (Stderr line).

(** [items.forEach(f)]. *)
Fixpoint forEach {A : Type} (items : list A) (f : A -> Proc unit) : Proc unit :=
  match items with
  | [] => ret tt
  | x :: rest => f x;; forEach rest f
  end.

(** [if (c) { body }]. *)
Definition when (c : bool) (body : Proc unit) : Proc unit :=
  if c then body else ret tt.

Definition JSON_parse (text : string) : Proc Json :=
  fun w => lift (json_parse w text) w.

Definition path_join (parts : list string) : Proc string :=
  ask (fun w => Process.path_join w parts).

Definition fs_existsSync (path : string) : Proc bool :=
  emit (Probed path);;
  ask (fun w => bool_decide (is_Some (fs w !! path))).

Definition EISDIR (path : string) : JsError :=
  let m := "EISDIR: illegal operation on a directory, open '" +:+ path +:+ "'" in
  {| message := m; stack := "Error: " +:+ m |}.

Definition EEXIST (path : string) : JsError :=
  let m := "EEXIST: file already exists, mkdir '" +:+ path +:+ "'" in
  {| message := m; stack := "Error: " +:+ m |}.

(** [fs.writeFileSync(path, content)]: creates or replaces the file, or
    throws. *)
Definition fs_writeFileSync (path content : string) : Proc unit :=
  fun w =>
    match denied w !! path, fs w !! path with
    | Some e, _ => (w, [], Throw e)
    | None, Some Dir => (w, [], Throw (EISDIR path))
    | None, _ =>
        (with_fs w (<[path := File content]> (fs w)), [Wrote path content], Ret tt)
    end.

(** [fs.mkdirSync(path, { recursive: true })]. *)
Definition fs_mkdirSync (path : string) : Proc unit :=
  fun w =>
    match denied w !! path, fs w !! path with
    | Some e, _ => (w, [], Throw e)
    | None, Some (File _) => (w, [], Throw (EEXIST path))
    | None, _ => (with_fs w (<[path := Dir]> (fs w)), [MadeDir path], Ret tt)
    end.

(** [execSync(command)]. *)
Definition execSync (command : string) : Proc string :=
  emit (Ran command);;
  fun w => lift (exec w command) w.

(** The lines [rl.question] hands to the questions, of an input that
    arrives in chunks of lines.  A pending question gets the first line of
    the chunk that arrives; the other lines of the chunk arrive before the
    next question is asked, and are dropped.  [stdin] holds the lines handed
    over, not the lines sent. *)
Definition delivered (chunks : list (list string)) : list string :=
  omap head chunks.

(** [await prompt(question)]: the next line handed over, or no answer
    ever. *)
Definition prompt (question : string) : Proc string :=
  emit (Asked question);;
  fun w =>
    match stdin w with
    | [] => (w, [], Stall)
    | line :: rest => (with_stdin w rest, [], Ret line)
    end.

Definition rl_close : Proc unit := emit Closed.

(** A finished run: the world it leaves, what it did, and the exit status
    of the process. *)
Record Run : Type := {
  final : World;
  trace : list Event;
  status : Z
}.

(** The run of a script whose top level is [script]: an error nobody
    catches is printed with its stack and gives status 1; a script that
    runs off its end, or whose pending input never arrives, gives 0. *)
Definition run (script : Proc unit) (w : World) : Run :=
  match script w with
  | (w', t, Ret _) => {| final := w'; trace := t; status := 0 |}
  | (w', t, Exit c) => {| final := w'; trace := t; status := c |}
  | (w', t, Throw e) => {| final := w'; trace := t ++ [Stderr (stack e)]; status := 1 |}
  | (w', t, Stall) => {| final := w'; trace := t; status := 0 |}
  end.

Definition stdout (t : list Event) : list string :=
  omap (fun e => match e with Stdout l => Some l | _ => None end) t.

Definition stderr (t : list Event) : list string :=
  omap (fun e => match e with Stderr l => Some l | _ => None end) t.

Definition writes (t : list Event) : list (string * string) :=
  omap (fun e => match e with Wrote p c => Some (p, c) | _ => None end) t.

Definition calls (t : list Event) : list string :=
  omap (fun e => match e with Called f => Some f | _ => None end) t.

End Node.

Import Node.

(** ** The test generator package

    The scripts import [generateTestContent], [validateRequirements] and
    [performFullValidation] from the package
    [@carolinappowers/vue-tdd-automation/shared/test-generator], whose source
    is not part of the files at hand.  The scripts are modelled over its
    interface. *)

Module Generator.

(** [{ valid, errors }]. *)
Record ValidationResult : Type := {
  valid : bool;
  errors : list string
}.

Record Summary : Type := {
  totalErrors : nat;
  totalWarnings : nat;
  hasAccessibilityTests : bool;
  followsTddPattern : bool
}.

(** [{ valid, errors, warnings, summary }]. *)
Record ContentValidation : Type := {
  result :> ValidationResult;
  warnings : list string;
  summary : Summary
}.

(** The optional third argument of [generateTestContent]; [{}] and an
    omitted argument have neither field. *)
Record Metadata : Type := {
  issueNumber : option string;
  issueTitle : option string
}.

Definition no_metadata : Metadata := {| issueNumber := None; issueTitle := None |}.

(** Modelled from the spec: the interface of the test generator package
    (sections 3 and 4.1 to 4.3).  [validateRequirements] is a pure check
    that returns a [ValidationResult]; [generateTestContent] is a pure
    function to text that fails exactly when [componentName] is empty;
    [performFullValidation] scans a text and returns a result with warnings
    and a summary. *)
Class TestGenerator : Type := {
  validateRequirements : Json -> ValidationResult;
  generateTestContent : string -> Json -> Metadata -> Result string;
  performFullValidation : string -> string -> ContentValidation;
  generateTestContent_fails :
    forall componentName requirements metadata,
      (exists e, generateTestContent componentName requirements metadata = Err e)
      <-> componentName = ""
}.

End Generator.

Import Generator.

(** ** The batch generator, [generate-tests-from-issue] *)

Module Batch.

Section Script.

Context {package : TestGenerator}.

Definition usage : string :=
  "Usage: node generate-tests-from-issue.js <componentName> <requirementsJson> [issueNumber] [issueTitle]".

(** [issueNumber && issueTitle ? { issueNumber, issueTitle } : {}]. *)
Definition metadata (issueNumber issueTitle : option string) : Metadata :=
  if truthy_str issueNumber && truthy_str issueTitle
  then {| Generator.issueNumber := issueNumber; Generator.issueTitle := issueTitle |}
  else no_metadata.

(** The body of the [try] block. *)
Definition generate (componentName requirementsJson : string)
    (issueNumber issueTitle : option string) : Proc unit :=
  requirements <- JSON_parse requirementsJson;;
  emit (Called "validateRequirements");;
  let validation := validateRequirements requirements in
  when (negb (valid validation))
    (console_error "❌ Invalid requirements:";;
     forEach (errors validation) (fun error => console_error ("  - " +:+ error));;
     process_exit 1);;
  emit (Called "generateTestContent");;
  testContent <- lift (generateTestContent componentName requirements
                         (metadata issueNumber issueTitle));;
  emit (Called "performFullValidation");;
  let contentValidation := performFullValidation testContent componentName in
  when (negb (valid contentValidation))
    (console_error "❌ Generated test content has errors:";;
     forEach (errors contentValidation) (fun error => console_error ("  - " +:+ error));;
     process_exit 1);;
  when (0 <? List.length (warnings contentValidation))%nat
    (console_warn "⚠️  Generated test content has warnings:";;
     forEach (warnings contentValidation) (fun warning => console_warn ("  - " +:+ warning)));;
  console_log "TEST_CONTENT_START";;
  console_log testContent;;
  console_log "TEST_CONTENT_END";;
  console_error (Str.nl +:+ "✅ Test generation successful");;
  console_error ("  - Total tests: " +:+
                 Str.of_nat (totalErrors (summary contentValidation) +
                             totalWarnings (summary contentValidation)));;
  console_error ("  - Has accessibility tests: " +:+
                 Str.of_bool (hasAccessibilityTests (summary contentValidation)));;
  console_error ("  - Follows TDD pattern: " +:+
                 Str.of_bool (followsTddPattern (summary contentValidation)));;
  process_exit 0.

Definition generate_tests_from_issue : Proc unit :=
  argv <- ask argv;;
  let componentName := argv !! 2%nat in
  let requirementsJson := argv !! 3%nat in
  let issueNumber := argv !! 4%nat in
  let issueTitle := argv !! 5%nat in
  when (negb (truthy_str componentName) || negb (truthy_str requirementsJson))
    (console_error usage;;
     process_exit 1);;
  try_catch
    (generate (default "" componentName) (default "" requirementsJson)
       issueNumber issueTitle)
    (fun err =>
       console_error ("❌ Error generating tests: " +:+ message err);;
       console_error (stack err);;
       process_exit 1).

End Script.

End Batch.

(** ** The scaffold generator, [scripts/create-tdd-component.js] *)

Module Scaffold.

Import Str.

Definition testTemplate (componentName issueDescription : string) : string :=
  text [
    "/**";
    " * " +:+ issueDescription;
    " *";
    " * User Story: As a [user type], I want [feature] so that [benefit]";
    " *";
    " * Acceptance Criteria:";
    " * - Given [context], when [action], then [expected outcome]";
    " * - Given [context], when [action], then [expected outcome]";
    " *";
    " * TODO: Update this with actual requirements from GitHub issue";
    " */";
    "";
    "import { describe, it, expect, beforeEach } from 'vitest'";
    "// import { vi } from 'vitest' // Uncomment if you need to mock functions";
    "import { mount, VueWrapper } from '@vue/test-utils'";
    "import " +:+ componentName +:+ " from './" +:+ componentName +:+ ".vue'";
    "";
    "describe('" +:+ componentName +:+ "', () => {";
    "  let wrapper: VueWrapper";
    "";
    "  beforeEach(() => {";
    "    wrapper = mount(" +:+ componentName +:+ ", {";
    "      props: {";
    "        // Add default props here";
    "      }";
    "    })";
    "  })";
    "";
    "  describe('Component Initialization', () => {";
    "    it('should render the component', () => {";
    "      expect(wrapper.find('[data-testid=" +:+ dquote +:+ toLowerCase componentName
      +:+ "-container" +:+ dquote +:+ "]').exists()).toBe(true)";
    "    })";
    "";
    "    it('should display the correct initial state', () => {";
    "      // TODO: Add initialization tests";
    "      expect(true).toBe(false) // This should fail initially (TDD!)";
    "    })";
    "  })";
    "";
    "  describe('Props', () => {";
    "    it('should accept and display prop values correctly', async () => {";
    "      // TODO: Test prop handling";
    "      expect(true).toBe(false)";
    "    })";
    "  })";
    "";
    "  describe('User Interactions', () => {";
    "    it('should handle click events', async () => {";
    "      // TODO: Test user interactions";
    "      expect(true).toBe(false)";
    "    })";
    "  })";
    "";
    "  describe('Emitted Events', () => {";
    "    it('should emit events with correct payload', async () => {";
    "      // TODO: Test event emissions";
    "      expect(true).toBe(false)";
    "    })";
    "  })";
    "";
    "  describe('Accessibility', () => {";
    "    it('should have proper ARIA labels', () => {";
    "      // TODO: Test accessibility";
    "      expect(true).toBe(false)";
    "    })";
    "  })";
    "";
    "  describe('Edge Cases', () => {";
    "    it('should handle edge cases gracefully', () => {";
    "      // TODO: Test edge cases";
    "      expect(true).toBe(false)";
    "    })";
    "  })";
    "})"
  ].

Definition componentTemplate (componentName : string) : string :=
  text [
    "<template>";
    "  <div data-testid=" +:+ dquote +:+ toLowerCase componentName
      +:+ "-container" +:+ dquote +:+ ">";
    "    <!-- TODO: Implement component to pass tests -->";
    "    <h2>" +:+ componentName +:+ " Component</h2>";
    "    <p>Implementation pending - write tests first!</p>";
    "  </div>";
    "</template>";
    "";
    "<script setup lang=" +:+ dquote +:+ "ts" +:+ dquote +:+ ">";
    "// Uncomment imports as needed";
    "// import { ref, computed, watch } from 'vue'";
    "";
    "// Props - uncomment and define when needed";
    "// interface Props {";
    "//   // TODO: Define props based on test requirements";
    "// }";
    "// const props = defineProps<Props>()";
    "";
    "// Emits - uncomment and define when needed";
    "// const emit = defineEmits<{";
    "//   // TODO: Define events based on test requirements";
    "// }>()";
    "";
    "// State";
    "// TODO: Add reactive state as needed";
    "";
    "// Methods";
    "// TODO: Implement methods to satisfy tests";
    "";
    "// Computed";
    "// TODO: Add computed properties as needed";
    "</script>";
    "";
    "<style scoped>";
    "/* TODO: Add styles */";
    "</style>"
  ].

(** [process.argv[3] || `Issue: ${componentName} Component`]. *)
Definition issueDescription (argv : list string) (componentName : string) : string :=
  if truthy_str (argv !! 3%nat) then default "" (argv !! 3%nat)
  else "Issue: " +:+ componentName +:+ " Component".

Definition componentsDir : Proc string :=
  dir <- ask dirname;;
  path_join [dir; ".."; "src"; "components"].

Definition testFile (componentName : string) : Proc string :=
  dir <- componentsDir;;
  path_join [dir; componentName +:+ ".test.ts"].

Definition componentFile (componentName : string) : Proc string :=
  dir <- componentsDir;;
  path_join [dir; componentName +:+ ".vue"].

(** "Create component directory if it doesn't exist". *)
Definition ensure_directory (componentsDir : string) : Proc unit :=
  present <- fs_existsSync componentsDir;;
  when (negb present) (fs_mkdirSync componentsDir).

(** "Check if files already exist". *)
Definition check_files (testFile componentFile : string) : Proc unit :=
  present <- fs_existsSync testFile;;
  when present
    (console_error ("❌ Test file already exists: " +:+ testFile);;
     process_exit 1);;
  present <- fs_existsSync componentFile;;
  when present
    (console_error ("❌ Component file already exists: " +:+ componentFile);;
     process_exit 1).

(** "Write files". *)
Definition write_files (testFile componentFile testTemplate componentTemplate : string)
  : Proc unit :=
  try_catch
    (fs_writeFileSync testFile testTemplate;;
     console_log ("✅ Created test file: " +:+ testFile);;
     fs_writeFileSync componentFile componentTemplate;;
     console_log ("✅ Created component file: " +:+ componentFile);;
     console_log (nl +:+ "📋 Next steps:");;
     console_log "1. Update the test file with actual requirements from your GitHub issue";;
     console_log "2. Run tests in watch mode: npm run tdd";;
     console_log "3. Verify all tests fail (RED phase)";;
     console_log "4. Implement the component to make tests pass (GREEN phase)";;
     console_log "5. Refactor while keeping tests green (REFACTOR phase)";;
     console_log (nl +:+ "🚀 Happy TDD coding!"))
    (fun err =>
       console_error ("❌ Error creating files: " +:+ message err);;
       process_exit 1).

Definition create_tdd_component : Proc unit :=
  argv <- ask argv;;
  when (negb (truthy_str (argv !! 2%nat)))
    (console_error "❌ Please provide a component name";;
     console_log ("Usage: node scripts/create-tdd-component.js ComponentName "
                  +:+ dquote +:+ "Issue #1: Description" +:+ dquote);;
     process_exit 1);;
  let componentName := default "" (argv !! 2%nat) in
  let issueDescription := issueDescription argv componentName in
  componentsDir <- componentsDir;;
  testFile <- testFile componentName;;
  componentFile <- componentFile componentName;;
  let testTemplate := testTemplate componentName issueDescription in
  let componentTemplate := componentTemplate componentName in
  ensure_directory componentsDir;;
  check_files testFile componentFile;;
  write_files testFile componentFile testTemplate componentTemplate.

End Scaffold.

(** ** The interactive feature command line *)

Module Feature.

Import Str.

Module colors.
Definition esc : string := String (ascii_of_nat 27) EmptyString.
Definition reset : string := esc +:+ "[0m".
Definition bright : string := esc +:+ "[1m".
Definition green : string := esc +:+ "[32m".
Definition yellow : string := esc +:+ "[33m".
Definition blue : string := esc +:+ "[34m".
Definition cyan : string := esc +:+ "[36m".
Definition red : string := esc +:+ "[31m".
End colors.

(** [while ((item = await prompt(question)) !== '') items.push(item)] on
    the lines handed to the questions: the events, the items read, and the
    lines left (none when they end before the empty line). *)
Fixpoint read_items (question : string) (lines : list string)
  : list Event * list string * option (list string) :=
  match lines with
  | [] => ([Asked question], [], None)
  | line :: rest =>
      if String.eqb line "" then ([Asked question], [], Some rest)
      else
        let '(t, items, remaining) := read_items question rest in
        (Asked question :: t, line :: items, remaining)
  end.

Definition prompt_items (question : string) : Proc (list string) :=
  fun w =>
    match read_items question (stdin w) with
    | (t, items, Some rest) => (with_stdin w rest, t, Ret items)
    | (t, _, None) => (with_stdin w [], t, Stall)
    end.

(** What [main] has collected when the prompts are over. *)
Record Answers : Type := {
  componentName : string;
  description : string;
  userType : string;
  feature : string;
  benefit : string;
  acceptanceCriteria : list string;
  props : string;
  events : string;
  stateManagement : string;
  happyPath : list string;
  edgeCases : list string;
  errorCases : list string;
  desktopView : string;
  mobileView : string;
  accessibility : string
}.

Definition collect : Proc Answers :=
  console_log (colors.bright +:+ colors.cyan +:+ "🤖 TDD Feature Generator" +:+ colors.reset +:+ nl);;
  console_log ("This tool will create a GitHub issue and automatically set up TDD for your feature." +:+ nl);;
  componentName <- prompt (colors.yellow +:+ "Component name (PascalCase):" +:+ colors.reset +:+ " ");;
  description <- prompt (colors.yellow +:+ "Brief description:" +:+ colors.reset +:+ " ");;
  userType <- prompt (colors.yellow +:+ "User type (e.g., user, admin, guest):" +:+ colors.reset +:+ " ");;
  feature <- prompt (colors.yellow +:+ "What feature do they want?" +:+ colors.reset +:+ " ");;
  benefit <- prompt (colors.yellow +:+ "What benefit does it provide?" +:+ colors.reset +:+ " ");;
  console_log (nl +:+ colors.cyan +:+ "📝 Acceptance Criteria" +:+ colors.reset);;
  console_log "Enter acceptance criteria (empty line to finish):";;
  acceptanceCriteria <- prompt_items "  - ";;
  console_log (nl +:+ colors.cyan +:+ "🧩 Component Details" +:+ colors.reset);;
  props <- prompt (colors.yellow +:+ "Props (comma-separated, e.g., " +:+ dquote
                   +:+ "value: string, disabled: boolean" +:+ dquote +:+ "):" +:+ colors.reset +:+ " ");;
  events <- prompt (colors.yellow +:+ "Events (comma-separated, e.g., " +:+ dquote
                    +:+ "change, submit, cancel" +:+ dquote +:+ "):" +:+ colors.reset +:+ " ");;
  stateManagement <- prompt (colors.yellow +:+ "State management (local/composable/pinia):" +:+ colors.reset +:+ " ");;
  console_log (nl +:+ colors.cyan +:+ "✅ Test Scenarios" +:+ colors.reset);;
  console_log "Happy path scenarios (empty line to finish):";;
  happyPath <- prompt_items "  - ";;
  console_log "Edge cases (empty line to finish):";;
  edgeCases <- prompt_items "  - ";;
  console_log "Error cases (empty line to finish):";;
  errorCases <- prompt_items "  - ";;
  console_log (nl +:+ colors.cyan +:+ "📱 UI/UX Requirements" +:+ colors.reset);;
  desktopView <- prompt (colors.yellow +:+ "Desktop view requirements:" +:+ colors.reset +:+ " ");;
  mobileView <- prompt (colors.yellow +:+ "Mobile view requirements:" +:+ colors.reset +:+ " ");;
  accessibility <- prompt (colors.yellow +:+ "Accessibility requirements:" +:+ colors.reset +:+ " ");;
  ret {| componentName := componentName; description := description;
         userType := userType; feature := feature; benefit := benefit;
         acceptanceCriteria := acceptanceCriteria; props := props;
         events := events; stateManagement := stateManagement;
         happyPath := happyPath; edgeCases := edgeCases;
         errorCases := errorCases; desktopView := desktopView;
         mobileView := mobileView; accessibility := accessibility |}.

(** [s || fallback] on strings. *)
Definition or_default (s fallback : string) : string :=
  if String.eqb s "" then fallback else s.

Definition checklist (items : list string) : string :=
  join nl (map (fun c => "- [ ] " +:+ c) items).

Definition issueBody (a : Answers) : string :=
  trim (text [
    "";
    "## User Story";
    "As a " +:+ userType a +:+ ", I want " +:+ feature a +:+ " so that " +:+ benefit a;
    "";
    "## Acceptance Criteria";
    checklist (acceptanceCriteria a);
    "";
    "## Component Details";
    "**Component Name**: " +:+ componentName a;
    "**Props**: " +:+ or_default (props a) "None";
    "**Events**: " +:+
      (if String.eqb (events a) "" then "None"
       else join ", " (map (fun e => "@" +:+ trim e) (split ","%char (events a))));
    "**State Management**: " +:+ or_default (stateManagement a) "local state";
    "";
    "## Test Scenarios";
    "### Happy Path";
    checklist (happyPath a);
    "";
    "### Edge Cases";
    checklist (edgeCases a);
    "";
    "### Error Cases";
    checklist (errorCases a);
    "";
    "## API/Data Requirements";
    "```json";
    "{";
    "  // To be defined";
    "}";
    "```";
    "";
    "## UI/UX Requirements";
    "- Desktop view: " +:+ or_default (desktopView a) "Standard responsive layout";
    "- Mobile view: " +:+ or_default (mobileView a) "Mobile-optimized layout";
    "- Accessibility: " +:+ or_default (accessibility a) "WCAG 2.1 AA compliance";
    "";
    "## Dependencies";
    "- [ ] Backend API endpoint required?";
    "- [ ] Design mockup available?";
    "- [ ] External library needed?"
  ]).

Definition issueTitle (a : Answers) : string :=
  "[FEATURE] " +:+ componentName a +:+ " - " +:+ description a.

(** The immediately invoked function that probes for the GitHub CLI. *)
Definition hasGitHubCLI : Proc bool :=
  try_catch (execSync "gh --version";; ret true) (fun _ => ret false).

Definition gh_issue_create (a : Answers) : string :=
  "gh issue create --title " +:+ dquote +:+ issueTitle a +:+ dquote
  +:+ " --body " +:+ dquote
  +:+ replace_chars (fun c => Ascii.eqb c (ascii_of_nat 34)) (backslash +:+ dquote) (issueBody a)
  +:+ dquote +:+ " --label " +:+ dquote +:+ "feature-request,tdd,enhancement" +:+ dquote.

Definition issue_filename (a : Answers) (now : string) : string :=
  let timestamp :=
    replace_chars (fun c => Ascii.eqb c ":"%char || Ascii.eqb c "."%char) "-" now in
  "issue-" +:+ componentName a +:+ "-" +:+ timestamp +:+ ".md".

Definition issue_file_content (a : Answers) : string :=
  "---" +:+ nl +:+
  "title: " +:+ issueTitle a +:+ nl +:+
  "labels: feature-request, tdd, enhancement" +:+ nl +:+
  "---" +:+ nl +:+
  nl +:+
  issueBody a.

(** Options 1 and 2: create the issue with the GitHub CLI, or save it to a
    file. *)
Definition publish_issue (a : Answers) : Proc unit :=
  console_log (nl +:+ colors.green +:+ "✨ Creating GitHub issue..." +:+ colors.reset);;
  hasGitHubCLI <- hasGitHubCLI;;
  if (hasGitHubCLI : bool) then
    try_catch
      (result <- execSync (gh_issue_create a);;
       console_log (colors.green +:+ "✅ Issue created successfully!" +:+ colors.reset);;
       console_log result;;
       console_log (nl +:+ colors.cyan +:+ "🤖 The GitHub Action will now:" +:+ colors.reset);;
       console_log "  1. Create a feature branch";;
       console_log "  2. Generate component scaffold";;
       console_log "  3. Create test file with all requirements";;
       console_log "  4. Open a Pull Request";;
       console_log (nl +:+ "Check your GitHub repository for updates!"))
      (fun error =>
         console_error (colors.red +:+ "Error creating issue:" +:+ colors.reset
                        +:+ " " +:+ message error))
  else
    now <- ask now;;
    let filename := issue_filename a now in
    cwd <- ask cwd;;
    filepath <- path_join [cwd; filename];;
    fs_writeFileSync filepath (issue_file_content a);;
    console_log (colors.yellow +:+ "⚠️  GitHub CLI not found" +:+ colors.reset);;
    console_log ("Issue content saved to: " +:+ colors.bright +:+ filename +:+ colors.reset +:+ nl);;
    console_log "To create the issue manually:";;
    console_log "1. Go to your GitHub repository";;
    console_log ("2. Click " +:+ dquote +:+ "Issues" +:+ dquote +:+ " → " +:+ dquote +:+ "New Issue" +:+ dquote);;
    console_log ("3. Choose " +:+ dquote +:+ "Feature Request (TDD)" +:+ dquote +:+ " template");;
    console_log "4. Copy the content from the saved file";;
    console_log ("5. Make sure to add the " +:+ dquote +:+ "feature-request" +:+ dquote +:+ " label");;
    console_log (nl +:+ "Or install GitHub CLI: https://cli.github.com/").

Definition branchName (a : Answers) : string :=
  "feature/" +:+ toLowerCase (componentName a).

Definition git_checkout (a : Answers) : string :=
  "git checkout -b " +:+ branchName a.

Definition scaffold_command (a : Answers) : string :=
  "node scripts/create-tdd-component.js " +:+ componentName a +:+ " "
  +:+ dquote +:+ issueTitle a +:+ dquote.

(** The [requirements] object literal. *)
Definition requirements (a : Answers) : Json :=
  JObj [
    ("userStory", JStr ("As a " +:+ userType a +:+ ", I want " +:+ feature a
                        +:+ " so that " +:+ benefit a));
    ("acceptanceCriteria", JArr (map JStr (acceptanceCriteria a)));
    ("happyPath", JArr (map JStr (happyPath a)));
    ("edgeCases", JArr (map JStr (edgeCases a)));
    ("errorCases", JArr (map JStr (errorCases a)));
    ("props", JStr (props a));
    ("events", JStr (events a))
  ].

Section Script.

Context {package : TestGenerator}.

(** Option 3, the body of [if (generateLocal.toLowerCase() === 'y')]. *)
Definition generate_local (a : Answers) : Proc unit :=
  console_log (nl +:+ colors.cyan +:+ "🚀 Generating local TDD setup..." +:+ colors.reset);;
  try_catch
    (execSync (git_checkout a);; ret tt)
    (fun _ => console_log ("Branch " +:+ branchName a +:+ " may already exist, continuing..."));;
  execSync (scaffold_command a);;
  testFile <- path_join ["src"; "components"; componentName a +:+ ".test.ts"];;
  emit (Called "generateTestContent");;
  testContent <- lift (generateTestContent (componentName a) (requirements a) no_metadata);;
  fs_writeFileSync testFile testContent;;
  console_log (nl +:+ colors.green +:+ "✅ TDD setup complete!" +:+ colors.reset);;
  console_log (nl +:+ "Next steps:");;
  console_log ("  1. Run tests: " +:+ colors.bright +:+ "npm run tdd" +:+ colors.reset);;
  console_log ("  2. Implement " +:+ componentName a +:+ " to make tests pass");;
  console_log "  3. Commit when all tests are green".

(** What [main] does once the answers are in. *)
Definition act (a : Answers) : Proc unit :=
  publish_issue a;;
  generateLocal <- prompt (nl +:+ colors.yellow +:+ "Generate local TDD setup now? (y/n):"
                           +:+ colors.reset +:+ " ");;
  when (String.eqb (toLowerCase generateLocal) "y") (generate_local a);;
  rl_close.

Definition main : Proc unit :=
  a <- collect;;
  act a.

(** [main().catch(console.error)]: the rejection is handed to
    [console.error], which prints the error with its stack. *)
Definition tdd_feature : Proc unit :=
  try_catch main (fun error => console_error (stack error)).

End Script.

End Feature.

(** ** A model of the test generator package, from the specification *)

Module SpecModel.

Import Str.

(** [requirements.<name>]. *)
Fixpoint lookup_field (name : string) (fields : list (string * Json)) : option Json :=
  match fields with
  | [] => None
  | (k, v) :: rest => if String.eqb k name then Some v else lookup_field name rest
  end.

Definition field (name : string) (requirements : Json) : option Json :=
  match requirements with
  | JObj fields => lookup_field name fields
  | _ => None
  end.

(** A sequence-of-string field; an absent field is the empty sequence. *)
Definition strings (name : string) (requirements : Json) : list string :=
  match field name requirements with
  | Some (JArr items) =>
      omap (fun j => match j with JStr s => Some s | _ => None end) items
  | _ => []
  end.

Definition text_field (name : string) (requirements : Json) : option string :=
  match field name requirements with
  | Some (JStr s) => Some s
  | _ => None
  end.

(** Modelled from the spec: [validateRequirements] (section 4.1), absent
    from the files at hand.  The rule that a call with the requirements
    alone can check is modelled: the result is invalid when the acceptance
    criteria and all scenario lists are empty; every violation is listed. *)
Definition validateRequirements (requirements : Json) : ValidationResult :=
  let errors :=
    if bool_decide (strings "acceptanceCriteria" requirements = []
                    /\ strings "happyPath" requirements = []
                    /\ strings "edgeCases" requirements = []
                    /\ strings "errorCases" requirements = [])
    then ["No acceptance criteria or test scenarios to generate tests from"]
    else [] in
  {| valid := bool_decide (errors = []); errors := errors |}.

(** The deliberately failing assertion of the red phase. *)
Definition red_phase : string := "expect(true).toBe(false)".

Definition is_name_char (c : ascii) : bool :=
  let n := N_of_ascii c in
  ((n =? 32) || ((48 <=? n) && (n <=? 57)) || ((97 <=? n) && (n <=? 122)))%N.

Fixpoint keep (p : ascii -> bool) (s : string) : string :=
  match s with
  | EmptyString => EmptyString
  | String c s' => if p c then String c (keep p s') else keep p s'
  end.

(** The name of the test of a criterion: the criterion lower-cased, its
    punctuation dropped, as in the generated file [UserProfile.test.ts]. *)
Definition test_name (criterion : string) : string :=
  "should " +:+ keep is_name_char (toLowerCase criterion).

(** The stub of one acceptance criterion. *)
Definition criterion_test (componentName criterion : string) : string :=
  text [
    "    it('" +:+ test_name criterion +:+ "', async () => {";
    "      // Acceptance Criteria: " +:+ criterion;
    "      const { user } = render(" +:+ componentName +:+ ");";
    "";
    "      // TODO: Implement test for: " +:+ criterion;
    "";
    "      " +:+ red_phase +:+ "; // Red phase - this should fail";
    "    });"
  ].

Definition acceptance_group (componentName : string) (criteria : list string) : string :=
  match criteria with
  | [] => ""
  | _ =>
      "  describe('Acceptance Criteria', () => {" +:+ nl +:+
      join nl (map (criterion_test componentName) criteria) +:+
      "  });" +:+ nl +:+
      nl
  end.

(** The two fixed accessibility stubs. *)
Definition accessibility_group (componentName : string) : string :=
  text [
    "  describe('Accessibility', () => {";
    "    it('should be accessible to screen readers', () => {";
    "      render(" +:+ componentName +:+ ");";
    "";
    "      // TODO: Add accessibility checks";
    "      // - Check for proper ARIA labels";
    "      // - Verify semantic HTML elements";
    "      // - Ensure proper heading hierarchy";
    "";
    "      " +:+ red_phase +:+ "; // Red phase - this should fail";
    "    });";
    "";
    "    it('should be keyboard navigable', async () => {";
    "      const { user } = render(" +:+ componentName +:+ ");";
    "";
    "      // TODO: Test keyboard navigation";
    "      // await user.tab();";
    "      // expect(element).toHaveFocus();";
    "";
    "      " +:+ red_phase +:+ "; // Red phase - this should fail";
    "    });";
    "  });"
  ].

Definition header (componentName : string) (requirements : Json) (metadata : Metadata) : string :=
  text ([
    "/**";
    " * " +:+ componentName +:+ " Component Tests";
    match issueNumber metadata, issueTitle metadata with
    | Some number, Some title => " * GitHub Issue #" +:+ number +:+ ": " +:+ title
    | _, _ => " * Generated from feature requirements"
    end;
    " *" ] ++
    match text_field "userStory" requirements with
    | Some story => [ " * User Story: " +:+ story; " *" ]
    | None => []
    end ++ [
    " * This test file follows TDD approach - all tests should fail initially (Red phase)";
    " */";
    "";
    "";
    "import { describe, it, expect, beforeEach, vi, afterEach } from 'vitest'";
    "import { render, screen, waitFor } from '@/test/helpers/testing-library'";
    "import { mount } from '@vue/test-utils'";
    "import " +:+ componentName +:+ " from './" +:+ componentName +:+ ".vue'";
    "";
    "describe('" +:+ componentName +:+ " Component', () => {";
    "  beforeEach(() => {";
    "    vi.clearAllMocks();";
    "  });";
    "";
    "  afterEach(() => {";
    "    vi.restoreAllMocks();";
    "  });";
    "" ]).

Definition render (componentName : string) (requirements : Json) (metadata : Metadata) : string :=
  header componentName requirements metadata +:+
  acceptance_group componentName (strings "acceptanceCriteria" requirements) +:+
  accessibility_group componentName +:+
  "});" +:+ nl.

(** Modelled from the spec: [generateTestContent] (section 4.2), absent
    from the files at hand; the layout of the text follows the generated
    file [UserProfile.test.ts].  One suite per component, an "Acceptance
    Criteria" group with one failing stub per criterion, the "Accessibility"
    group with its two fixed stubs; the header names the issue when the
    metadata has both its number and its title; an empty component name is
    an error. *)
Definition generateTestContent (componentName : string) (requirements : Json)
    (metadata : Metadata) : Result string :=
  if String.eqb componentName "" then
    Err {| message := "Component name is required";
           stack := "Error: Component name is required" |}
  else Ok (render componentName requirements metadata).

(** Modelled from the spec: [performFullValidation] (section 4.3), absent
    from the files at hand.  Errors: no top-level suite for the component,
    no test case.  Warnings: no accessibility group, no red-phase
    assertion.  The summary counts both and carries the two flags. *)
Definition performFullValidation (content componentName : string) : ContentValidation :=
  let errors :=
    (if includes ("describe('" +:+ componentName) content then []
     else ["Missing test suite for " +:+ componentName]) ++
    (if includes "it('" content then [] else ["No test cases found"]) in
  let hasAccessibilityTests := includes "describe('Accessibility'" content in
  let followsTddPattern := includes red_phase content in
  let warnings :=
    (if hasAccessibilityTests then [] else ["No accessibility tests found"]) ++
    (if followsTddPattern then [] else ["No failing red-phase assertion found"]) in
  {| result := {| valid := bool_decide (errors = []); errors := errors |};
     warnings := warnings;
     summary := {| totalErrors := List.length errors;
                   totalWarnings := List.length warnings;
                   hasAccessibilityTests := hasAccessibilityTests;
                   followsTddPattern := followsTddPattern |} |}.

End SpecModel.

(** ** Plain objects and the spread syntax *)

Module Obj.

(** The values the option objects of the mounting helpers are made of.
    [OObj] is a plain object, given by its own enumerable properties;
    [OFun] is a value without own enumerable properties that is neither a
    primitive nor an array: a function, a component defined as one.
    Strings are sequences of one byte characters, as everywhere here. *)
Inductive JsVal : Type :=
| OUndefined
| ONull
| OBool (b : bool)
| ONum (n : Z)
| OStr (s : string)
| OArr (items : list JsVal)
| OObj (properties : gmap string JsVal)
| OFun (name : string).

Abbreviation Object := (gmap string JsVal).

(** ToBoolean. *)
Definition truthy (v : JsVal) : bool :=
  match v with
  | OUndefined | ONull => false
  | OBool b => b
  | ONum n => negb (n =? 0)
  | OStr s => negb (String.eqb s "")
  | OArr _ | OObj _ | OFun _ => true
  end.

(** [o.name] on a plain object, for a name [Object.prototype] does not
    define. *)
Definition prop (o : Object) (name : string) : JsVal :=
  default OUndefined (o !! name).

(** [v?.name], for a name that no builtin prototype defines and that is no
    index: [undefined] unless [v] is a plain object. *)
Definition optional_member (v : JsVal) (name : string) : JsVal :=
  match v with
  | OObj o => prop o name
  | _ => OUndefined
  end.

(** What [...v] copies: the own enumerable properties of [v].  An array
    and a string have one per index; [undefined], [null], the other
    primitives and functions have none. *)
Definition own_properties (v : JsVal) : Object :=
  match v with
  | OObj o => o
  | OArr items => list_to_map (imap (fun i item => (Str.of_nat i, item)) items)
  | OStr s =>
      list_to_map (imap (fun i c => (Str.of_nat i, OStr (String c EmptyString)))
                     (list_ascii_of_string s))
  | _ => ∅
  end.

(** [{ ...target-so-far, ...v }]: the properties of [v] replace those
    written before. *)
Definition spread (target : Object) (v : JsVal) : Object :=
  own_properties v ∪ target.

End Obj.

(** ** [src/test/helpers/vue-testing.ts]: the mounting helpers *)

Module Mounting.

Import Obj.

(** A call of [mount] or of [shallowMount] of [@vue/test-utils]. *)
Record Mount : Type := {
  shallow : bool;
  component : JsVal;
  options : Object
}.

(** [renderComponent(component, options = {})]. *)
Definition renderComponent (component : JsVal) (options : Object) : Mount :=
  let useShallow := prop options "shallow" in
  let mountOptions := delete "shallow" options in
  let defaultGlobalStubs :=
    spread (<["Teleport" := OBool true]>
              (<["RouterView" := OBool true]>
                 (<["RouterLink" := OBool true]> ∅)))
      (optional_member (prop mountOptions "global") "stubs") in
  let finalOptions :=
    <["global" := OObj (<["stubs" := OObj defaultGlobalStubs]>
                          (spread ∅ (prop mountOptions "global")))]>
      (spread ∅ (OObj mountOptions)) in
  {| shallow := truthy useShallow; component := component; options := finalOptions |}.

(** [mountWithProvide(component, provides, options = {})]. *)
Definition mountWithProvide (component : JsVal) (provides options : Object) : Mount :=
  {| shallow := false;
     component := component;
     options :=
       <["global" :=
           OObj (<["provide" :=
                     OObj (spread (spread ∅ (OObj provides))
                             (optional_member (prop options "global") "provide"))]>
                   (spread ∅ (prop options "global")))]>
         (spread ∅ (OObj options)) |}.

(** [createWrapperFactory(component, defaultOptions = {})(overrides = {})]. *)
Definition createWrapperFactory (component : JsVal) (defaultOptions overrides : Object)
  : Mount :=
  {| shallow := false;
     component := component;
     options :=
       <["global" := OObj (spread (spread ∅ (prop defaultOptions "global"))
                             (prop overrides "global"))]>
         (<["props" := OObj (spread (spread ∅ (prop defaultOptions "props"))
                               (prop overrides "props"))]>
            (spread (spread ∅ (OObj defaultOptions)) (OObj overrides))) |}.

End Mounting.

(** ** [src/test/helpers/vue-testing.ts]: [getAllEmittedEvents] *)

Module Emissions.

(** What [wrapper.emitted(eventName)] hands to its caller.  The wrapper
    keeps the emissions in a plain object keyed by event name, and returns
    the member of that name, or the object itself when the name is empty:
    the array of the emissions of the event, [undefined], or a value that
    is truthy and no array, which is a member inherited from
    [Object.prototype] or the object of all events. *)
Inductive Emitted : Type :=
| Undefined
| Emissions (emissions : list (list Value))
| NotAnArray.

Definition emitted (wrapper : VueTesting.VueWrapper) (eventName : string) : Emitted :=
  if String.eqb eventName "" then NotAnArray
  else
    match VueTesting.emitted wrapper eventName with
    | Some emissions => Emissions emissions
    | None => if Setup.inherited eventName then NotAnArray else Undefined
    end.

Definition map_is_not_a_function : JsError :=
  {| message := "emitted.map is not a function";
     stack := "TypeError: emitted.map is not a function" |}.

(** [getAllEmittedEvents(wrapper, eventName)]. *)
Definition getAllEmittedEvents (wrapper : VueTesting.VueWrapper) (eventName : string)
  : Result (list Value) :=
  match emitted wrapper eventName with
  | Undefined => Ok []
  | Emissions emitted =>
      Ok (map (fun emission => default VUndefined (emission !! 0%nat)) emitted)
  | NotAnArray => Err map_is_not_a_function
  end.

End Emissions.

(** ** The Testing Library helpers, listed with [src/test/setup.ts] *)

Module TestingLibrary.

Import Obj.

(** [render(component, options = {})]: the options [tlRender] is called
    with. *)
Definition render (component : JsVal) (options : Object) : Object :=
  <["global" :=
      OObj (spread
              (<["stubs" :=
                   OObj (spread (<["Teleport" := OBool true]>
                                   (<["RouterView" := OBool true]>
                                      (<["RouterLink" := OBool true]> ∅)))
                           (optional_member (prop options "global") "stubs"))]> ∅)
              (prop options "global"))]>
    (spread ∅ (OObj options)).

(** What the accessibility helpers read of an element: its attributes, its
    text content, and whether it is an instance of [HTMLInputElement],
    [HTMLSelectElement] or [HTMLTextAreaElement]. *)
Record Element : Type := {
  attributes : gmap string string;
  textContent : option string;
  form_control : bool
}.

Record Style : Type := {
  display : string;
  visibility : string
}.

(** The page: the computed styles, the elements by id, and the selector
    engine, which throws on a selector it cannot parse. *)
Record Document : Type := {
  getComputedStyle : Element -> Style;
  getElementById : string -> option Element;
  querySelector : string -> Result (option Element)
}.

(** [element.getAttribute(name)]; [null] is [None]. *)
Definition getAttribute (element : Element) (name : string) : option string :=
  attributes element !! name.

Definition hasAttribute (element : Element) (name : string) : bool :=
  bool_decide (is_Some (attributes element !! name)).

(** [element.id] reflects the [id] attribute. *)
Definition id (element : Element) : string :=
  default "" (attributes element !! "id").

(** [a11y.isAccessible(element)]. *)
Definition isAccessible (document : Document) (element : Element) : bool :=
  if bool_decide (getAttribute element "aria-hidden" = Some "true") then false
  else
    let style := getComputedStyle document element in
    if String.eqb (display style) "none" || String.eqb (visibility style) "hidden"
    then false
    else
      let hasAriaLabel := truthy_str (getAttribute element "aria-label") in
      let hasAriaLabelledBy := truthy_str (getAttribute element "aria-labelledby") in
      let hasText := truthy_str (Str.trim <$> textContent element) in
      hasAriaLabel || hasAriaLabelledBy || hasText.

(** [label.textContent || '']. *)
Definition text_or_empty (element : Element) : string :=
  if truthy_str (textContent element) then default "" (textContent element) else "".

(** "Check for label element (for form inputs)", and the fall back to the
    text content. *)
Definition name_from_label (document : Document) (element : Element) : Result string :=
  if form_control element && negb (String.eqb (id element) "") then
    match querySelector document
            ("label[for=" +:+ Str.dquote +:+ id element +:+ Str.dquote +:+ "]") with
    | Err e => Err e
    | Ok (Some label) => Ok (text_or_empty label)
    | Ok None => Ok (text_or_empty element)
    end
  else Ok (text_or_empty element).

(** [a11y.getAccessibleName(element)]. *)
Definition getAccessibleName (document : Document) (element : Element) : Result string :=
  let ariaLabel := getAttribute element "aria-label" in
  if truthy_str ariaLabel then Ok (default "" ariaLabel)
  else
    let labelledBy := getAttribute element "aria-labelledby" in
    if truthy_str labelledBy then
      match getElementById document (default "" labelledBy) with
      | Some label => Ok (text_or_empty label)
      | None => name_from_label document element
      end
    else name_from_label document element.

(** The own properties of the table [requiredAttributes]. *)
Definition requiredAttributes : gmap string (list string) :=
  list_to_map [
    ("button", []);
    ("link", []);
    ("navigation", ["aria-label"]);
    ("main", []);
    ("complementary", ["aria-label"]);
    ("contentinfo", []);
    ("banner", []);
    ("region", ["aria-label"]);
    ("alert", []);
    ("alertdialog", ["aria-labelledby"; "aria-describedby"]);
    ("dialog", ["aria-labelledby"]);
    ("tab", ["aria-selected"; "aria-controls"]);
    ("tabpanel", ["aria-labelledby"]);
    ("progressbar", ["aria-valuenow"; "aria-valuemin"; "aria-valuemax"]);
    ("slider", ["aria-valuenow"; "aria-valuemin"; "aria-valuemax"]);
    ("combobox", ["aria-expanded"; "aria-controls"]);
    ("menu", []);
    ("menuitem", []);
    ("tooltip", [])
  ].

(** The [length] of what the table inherits from [Object.prototype]: the
    number of parameters of a method; [__proto__] is the prototype itself,
    an object without [length]. *)
Definition inherited_length (key : string) : option nat :=
  if bool_decide (key ∈ ["toString"; "toLocaleString"; "valueOf"]) then Some 0%nat
  else if bool_decide (key ∈ ["__defineGetter__"; "__defineSetter__"]) then Some 2%nat
  else if String.eqb key "__proto__" then None
  else Some 1%nat.

Definition not_a_function (what : string) : JsError :=
  {| message := what +:+ " is not a function";
     stack := "TypeError: " +:+ what +:+ " is not a function" |}.

(** [a11y.hasRequiredAriaAttributes(element)]. *)
Definition hasRequiredAriaAttributes (element : Element) : Result bool :=
  let role := getAttribute element "role" in
  if negb (truthy_str role) then Ok true
  else
    let role := default "" role in
    match requiredAttributes !! role with
    | Some required =>
        if (List.length required =? 0)%nat then Ok true
        else Ok (existsb (fun attr => hasAttribute element attr) required)
    | None =>
        if Setup.inherited role then
          match inherited_length role with
          | Some 0%nat => Ok true
          | _ => Err (not_a_function "required.some")
          end
        else Ok true
    end.

End TestingLibrary.

(** ** [src/test/setup.ts]: the matcher [toHaveBeenCalledWithEvent] *)

Module Matchers.

(** What the matcher reads of the first argument of a recorded call:
    whether it is [undefined] or [null], and else what its [type] property
    is when that is a string. *)
Inductive Argument : Type :=
| AUndefined
| ANull
| AValue (type : option string).

Record MatcherResult : Type := {
  pass : bool;
  message : string
}.

Definition cannot_read (of_ : string) : JsError :=
  let m := "Cannot read properties of " +:+ of_ +:+ " (reading 'type')" in
  {| Process.message := m; stack := "TypeError: " +:+ m |}.

(** [calls.some(([event]) => event.type === eventType)]. *)
Fixpoint some (calls : list (list Argument)) (eventType : string) : Result bool :=
  match calls with
  | [] => Ok false
  | call :: rest =>
      match default AUndefined (head call) with
      | AUndefined => Err (cannot_read "undefined")
      | ANull => Err (cannot_read "null")
      | AValue type =>
          if bool_decide (type = Some eventType) then Ok true else some rest eventType
      end
  end.

(** [toHaveBeenCalledWithEvent(received, eventType)], on the calls
    [received.mock.calls]. *)
Definition toHaveBeenCalledWithEvent (calls : list (list Argument)) (eventType : string)
  : Result MatcherResult :=
  match some calls eventType with
  | Err e => Err e
  | Ok pass =>
      Ok {| pass := pass;
            message :=
              if pass
              then "Expected not to be called with event type " +:+ Str.dquote
                   +:+ eventType +:+ Str.dquote
              else "Expected to be called with event type " +:+ Str.dquote
                   +:+ eventType +:+ Str.dquote |}
  end.

End Matchers.

(** ** [src/test/helpers/index.ts]: [waitFor] *)

Module Helpers.

(** What [waitFor] meets: what each call of [condition] returns or throws
    and the time the call takes, and the time each timer takes to fire given
    the delay it was set for; times are in milliseconds of [Date.now()]. *)
Record Host : Type := {
  condition : nat -> Result bool;
  took : nat -> Z;
  setTimeout : nat -> Z -> Z
}.

Inductive Settled : Type :=
| Resolved
| Rejected (e : JsError).

Definition timeout_error : JsError :=
  {| message := "Timeout waiting for condition";
     stack := "Error: Timeout waiting for condition" |}.

(** The loop, entering its [k]-th pass [elapsed] milliseconds after
    [startTime] was read; [None] while the promise is pending. *)
Fixpoint poll (fuel : nat) (host : Host) (timeout interval : Z) (k : nat) (elapsed : Z)
  : option Settled :=
  match fuel with
  | O => None
  | S fuel =>
      let elapsed := elapsed + took host k in
      match condition host k with
      | Err e => Some (Rejected e)
      | Ok true => Some Resolved
      | Ok false =>
          if elapsed >? timeout then Some (Rejected timeout_error)
          else poll fuel host timeout interval (S k)
                 (elapsed + setTimeout host k interval)
      end
  end.

(** [waitFor(condition, timeout = 1000, interval = 10)], run for at most
    [fuel] passes of its loop. *)
Definition waitFor (host : Host) (timeout interval : Z) (fuel : nat) : option Settled :=
  poll fuel host timeout interval 0 0.

End Helpers.

(** ** [src/test/helpers/composables-testing.ts]: [testReactiveComposable] *)

Module Composables.

Section Reactive.

(** The composable's result, with all its state. *)
Context {T : Type}.

(** A function applied to the result: the result it leaves, and the error
    it throws, if any. *)
Definition Action : Type := T -> T * option JsError.

Record Mutation : Type := {
  mutate : Action;
  expect : Action
}.

Inductive Step : Type :=
| Mutated
| Asserted
| Unmounted.

(** The body of the [for] loop, over the mutations left; [flush] is what
    the pending reactive effects do to the result while the loop awaits its
    timer. *)
Fixpoint run_mutations (flush : T -> T) (mutations : list Mutation) (result : T)
  : T * list Step * option JsError :=
  match mutations with
  | [] => (result, [], None)
  | m :: rest =>
      match mutate m result with
      | (result, Some e) => (result, [Mutated], Some e)
      | (result, None) =>
          match expect m (flush result) with
          | (result, Some e) => (result, [Mutated; Asserted], Some e)
          | (result, None) =>
              let '(result, steps, error) := run_mutations flush rest result in
              (result, Mutated :: Asserted :: steps, error)
          end
      end
  end.

(** [testReactiveComposable(composable, mutations)], from the result
    [withSetup(composable)] returned: what was done, in order, and the error
    the promise is rejected with, if any.  [unmount] is the error
    [app.unmount()] throws, if any. *)
Definition testReactiveComposable (result : T) (flush : T -> T)
    (unmount : option JsError) (mutations : list Mutation)
  : list Step * option JsError :=
  let '(_, steps, error) := run_mutations flush mutations result in
  (steps ++ [Unmounted],
   match unmount with
   | Some e => Some e
   | None => error
   end).

End Reactive.

Arguments Action : clear implicits.
Arguments Mutation : clear implicits.

End Composables.

(** * Statements

    The notions the properties below are stated with, and the sample inputs
    they are tried on. *)

(** ** The storage mock *)

Section StorageStatements.

Import Setup.

(** Both window properties refer to the one mock, in every state. *)
Definition shared (w : Window) : Prop :=
  localStorage w = sessionStorage w /\ is_Some (heap w !! localStorage w).

End StorageStatements.

(** ** The batch generator *)

Section BatchStatements.

Context {package : TestGenerator}.

Definition batch_metadata (w : World) : Metadata :=
  Batch.metadata (argv w !! 4%nat) (argv w !! 5%nat).

(** What the run prints about warnings. *)
Definition warning_lines (contentValidation : ContentValidation) : list Event :=
  if (0 <? List.length (warnings contentValidation))%nat
  then Stderr "⚠️  Generated test content has warnings:" ::
       map (fun warning => Stderr ("  - " +:+ warning)) (warnings contentValidation)
  else [].

(** The six ways a run of the batch generator can go. *)
Inductive batch_run (w : World) : Run -> Prop :=
| batch_usage :
    truthy_str (argv w !! 2%nat) = false \/ truthy_str (argv w !! 3%nat) = false ->
    batch_run w {| final := w; trace := [Stderr Batch.usage]; status := 1 |}
| batch_parse_error c j e :
    argv w !! 2%nat = Some c -> c <> "" -> argv w !! 3%nat = Some j -> j <> "" ->
    json_parse w j = Err e ->
    batch_run w
      {| final := w;
         trace := [Stderr ("❌ Error generating tests: " +:+ message e);
                   Stderr (stack e)];
         status := 1 |}
| batch_requirements_invalid c j requirements :
    argv w !! 2%nat = Some c -> c <> "" -> argv w !! 3%nat = Some j -> j <> "" ->
    json_parse w j = Ok requirements ->
    valid (validateRequirements requirements) = false ->
    batch_run w
      {| final := w;
         trace := [Called "validateRequirements";
                   Stderr "❌ Invalid requirements:"] ++
                  map (fun error => Stderr ("  - " +:+ error))
                      (errors (validateRequirements requirements));
         status := 1 |}
| batch_generate_error c j requirements e :
    argv w !! 2%nat = Some c -> c <> "" -> argv w !! 3%nat = Some j -> j <> "" ->
    json_parse w j = Ok requirements ->
    valid (validateRequirements requirements) = true ->
    generateTestContent c requirements (batch_metadata w) = Err e ->
    batch_run w
      {| final := w;
         trace := [Called "validateRequirements"; Called "generateTestContent";
                   Stderr ("❌ Error generating tests: " +:+ message e);
                   Stderr (stack e)];
         status := 1 |}
| batch_content_invalid c j requirements testContent :
    argv w !! 2%nat = Some c -> c <> "" -> argv w !! 3%nat = Some j -> j <> "" ->
    json_parse w j = Ok requirements ->
    valid (validateRequirements requirements) = true ->
    generateTestContent c requirements (batch_metadata w) = Ok testContent ->
    valid (performFullValidation testContent c) = false ->
    batch_run w
      {| final := w;
         trace := [Called "validateRequirements"; Called "generateTestContent";
                   Called "performFullValidation";
                   Stderr "❌ Generated test content has errors:"] ++
                  map (fun error => Stderr ("  - " +:+ error))
                      (errors (performFullValidation testContent c));
         status := 1 |}
| batch_success c j requirements testContent :
    argv w !! 2%nat = Some c -> c <> "" -> argv w !! 3%nat = Some j -> j <> "" ->
    json_parse w j = Ok requirements ->
    valid (validateRequirements requirements) = true ->
    generateTestContent c requirements (batch_metadata w) = Ok testContent ->
    valid (performFullValidation testContent c) = true ->
    let contentValidation := performFullValidation testContent c in
    batch_run w
      {| final := w;
         trace := [Called "validateRequirements"; Called "generateTestContent";
                   Called "performFullValidation"] ++
                  warning_lines contentValidation ++
                  [Stdout "TEST_CONTENT_START"; Stdout testContent;
                   Stdout "TEST_CONTENT_END";
                   Stderr (Str.nl +:+ "✅ Test generation successful");
                   Stderr ("  - Total tests: " +:+
                           Str.of_nat (totalErrors (summary contentValidation) +
                                       totalWarnings (summary contentValidation)));
                   Stderr ("  - Has accessibility tests: " +:+
                           Str.of_bool (hasAccessibilityTests (summary contentValidation)));
                   Stderr ("  - Follows TDD pattern: " +:+
                           Str.of_bool (followsTddPattern (summary contentValidation)))];
         status := 0 |}.

(** The four failures the specification lists. *)
Definition missing_argument (w : World) : Prop :=
  truthy_str (argv w !! 2%nat) = false \/ truthy_str (argv w !! 3%nat) = false.

Definition unparseable_json (w : World) : Prop :=
  exists j e, argv w !! 3%nat = Some j /\ json_parse w j = Err e.

Definition requirements_invalid (w : World) : Prop :=
  exists j requirements,
    argv w !! 3%nat = Some j /\ json_parse w j = Ok requirements /\
    valid (validateRequirements requirements) = false.

Definition content_invalid (w : World) : Prop :=
  exists c j requirements testContent,
    argv w !! 2%nat = Some c /\ argv w !! 3%nat = Some j /\
    json_parse w j = Ok requirements /\
    generateTestContent c requirements (batch_metadata w) = Ok testContent /\
    valid (performFullValidation testContent c) = false.

(** Both validations passed, on the text [testContent]. *)
Definition validated (w : World) (testContent : string) : Prop :=
  exists c j requirements,
    argv w !! 2%nat = Some c /\ c <> "" /\ argv w !! 3%nat = Some j /\ j <> "" /\
    json_parse w j = Ok requirements /\
    valid (validateRequirements requirements) = true /\
    generateTestContent c requirements (batch_metadata w) = Ok testContent /\
    valid (performFullValidation testContent c) = true.

End BatchStatements.

(** ** The scaffold generator *)

Definition components_dir (w : World) : string :=
  Process.path_join w [dirname w; ".."; "src"; "components"].

Definition test_file (w : World) (componentName : string) : string :=
  Process.path_join w [components_dir w; componentName +:+ ".test.ts"].

Definition component_file (w : World) (componentName : string) : string :=
  Process.path_join w [components_dir w; componentName +:+ ".vue"].

Definition present (w : World) (path : string) : Prop := is_Some (fs w !! path).


(** The step that makes sure the components directory is there. *)
Inductive directory_step (w : World) : World -> list Event -> Prop :=
| directory_present :
    present w (components_dir w) ->
    directory_step w w [Probed (components_dir w)]
| directory_made :
    ~ present w (components_dir w) ->
    denied w !! components_dir w = None ->
    directory_step w (with_fs w (<[components_dir w := Dir]> (fs w)))
      [Probed (components_dir w); MadeDir (components_dir w)].

Definition next_steps : list Event :=
  [ Stdout (Str.nl +:+ "📋 Next steps:");
    Stdout "1. Update the test file with actual requirements from your GitHub issue";
    Stdout "2. Run tests in watch mode: npm run tdd";
    Stdout "3. Verify all tests fail (RED phase)";
    Stdout "4. Implement the component to make tests pass (GREEN phase)";
    Stdout "5. Refactor while keeping tests green (REFACTOR phase)";
    Stdout (Str.nl +:+ "🚀 Happy TDD coding!") ].

(** The ways a run of the scaffold generator can go. *)
Inductive scaffold_run (w : World) : Run -> Prop :=
| scaffold_no_name :
    truthy_str (argv w !! 2%nat) = false ->
    scaffold_run w
      {| final := w;
         trace := [Stderr "❌ Please provide a component name";
                   Stdout ("Usage: node scripts/create-tdd-component.js ComponentName "
                           +:+ Str.dquote +:+ "Issue #1: Description" +:+ Str.dquote)];
         status := 1 |}
| scaffold_mkdir_fails c e :
    argv w !! 2%nat = Some c -> c <> "" ->
    ~ present w (components_dir w) ->
    denied w !! components_dir w = Some e ->
    scaffold_run w
      {| final := w;
         trace := [Probed (components_dir w); Stderr (stack e)];
         status := 1 |}
| scaffold_test_exists c w1 pre :
    argv w !! 2%nat = Some c -> c <> "" ->
    directory_step w w1 pre ->
    present w1 (test_file w c) ->
    scaffold_run w
      {| final := w1;
         trace := pre ++ [Probed (test_file w c);
                          Stderr ("❌ Test file already exists: " +:+ test_file w c)];
         status := 1 |}
| scaffold_component_exists c w1 pre :
    argv w !! 2%nat = Some c -> c <> "" ->
    directory_step w w1 pre ->
    ~ present w1 (test_file w c) ->
    present w1 (component_file w c) ->
    scaffold_run w
      {| final := w1;
         trace := pre ++ [Probed (test_file w c); Probed (component_file w c);
                          Stderr ("❌ Component file already exists: "
                                  +:+ component_file w c)];
         status := 1 |}
| scaffold_test_write_fails c w1 pre e :
    argv w !! 2%nat = Some c -> c <> "" ->
    directory_step w w1 pre ->
    ~ present w1 (test_file w c) ->
    ~ present w1 (component_file w c) ->
    denied w !! test_file w c = Some e ->
    scaffold_run w
      {| final := w1;
         trace := pre ++ [Probed (test_file w c); Probed (component_file w c);
                          Stderr ("❌ Error creating files: " +:+ message e)];
         status := 1 |}
| scaffold_component_write_fails c w1 pre e :
    argv w !! 2%nat = Some c -> c <> "" ->
    directory_step w w1 pre ->
    ~ present w1 (test_file w c) ->
    ~ present w1 (component_file w c) ->
    denied w !! test_file w c = None ->
    denied w !! component_file w c = Some e ->
    let testTemplate := Scaffold.testTemplate c (Scaffold.issueDescription (argv w) c) in
    scaffold_run w
      {| final := with_fs w1 (<[test_file w c := File testTemplate]> (fs w1));
         trace := pre ++ [Probed (test_file w c); Probed (component_file w c);
                          Wrote (test_file w c) testTemplate;
                          Stdout ("✅ Created test file: " +:+ test_file w c);
                          Stderr ("❌ Error creating files: " +:+ message e)];
         status := 1 |}
| scaffold_success c w1 pre :
    argv w !! 2%nat = Some c -> c <> "" ->
    directory_step w w1 pre ->
    ~ present w1 (test_file w c) ->
    ~ present w1 (component_file w c) ->
    denied w !! test_file w c = None ->
    denied w !! component_file w c = None ->
    let testTemplate := Scaffold.testTemplate c (Scaffold.issueDescription (argv w) c) in
    let componentTemplate := Scaffold.componentTemplate c in
    scaffold_run w
      {| final := with_fs w1 (<[component_file w c := File componentTemplate]>
                                (<[test_file w c := File testTemplate]> (fs w1)));
         trace := pre ++ [Probed (test_file w c); Probed (component_file w c);
                          Wrote (test_file w c) testTemplate;
                          Stdout ("✅ Created test file: " +:+ test_file w c);
                          Wrote (component_file w c) componentTemplate;
                          Stdout ("✅ Created component file: " +:+ component_file w c)]
                      ++ next_steps;
         status := 0 |}.

Definition is_write (e : Event) : bool :=
  match e with Wrote _ _ => true | _ => false end.

(** What a run did before its first write. *)
Fixpoint before_first_write (t : list Event) : list Event :=
  match t with
  | [] => []
  | e :: rest => if is_write e then [] else e :: before_first_write rest
  end.

(** ** The interactive feature command line *)

(** A computation that never calls [process.exit]. *)
Definition never_exits {A : Type} (m : Proc A) : Prop :=
  forall w w' t code, m w <> (w', t, Exit code).

(** A computation that leaves everything but the pending input as it is. *)
Definition only_reads_input {A : Type} (m : Proc A) : Prop :=
  forall w w' t o, m w = (w', t, o) -> w' = with_stdin w (stdin w').

Section FeatureStatements.

Import Feature.




End FeatureStatements.

(** ** The modelled package as an instance of the interface *)

(** The modelled package implements the interface. *)
#[export] Instance spec_package : TestGenerator.
Proof.
  refine {| validateRequirements := SpecModel.validateRequirements;
            generateTestContent := SpecModel.generateTestContent;
            performFullValidation := SpecModel.performFullValidation;
            generateTestContent_fails := _ |}.
  intros componentName requirements metadata.
  unfold SpecModel.generateTestContent.
  destruct (String.eqb_spec componentName ""); split; try done.
  - by eexists.
  - by intros [e He].
Defined.

(** ** Sample inputs *)


Definition command_failed (command : string) : JsError :=
  {| message := "Command failed: " +:+ command;
     stack := "Error: Command failed: " +:+ command |}.

Definition syntax_error (text : string) : JsError :=
  {| message := "Unexpected token in JSON: " +:+ text;
     stack := "SyntaxError: Unexpected token in JSON: " +:+ text |}.

Definition LoginForm_json : string :=
  "{" +:+ Str.dquote +:+ "acceptanceCriteria" +:+ Str.dquote +:+ ":[" +:+ Str.dquote
  +:+ "Given valid credentials, when submitted, then user is redirected"
  +:+ Str.dquote +:+ "]}".

Definition LoginForm_requirements : Json :=
  JObj [("acceptanceCriteria",
         JArr [JStr "Given valid credentials, when submitted, then user is redirected"])].

(** A host whose [JSON.parse] knows two texts, whose [path.join] joins with
    a slash, whose commands all succeed and whose file system is empty. *)
Definition host : World :=
  {| argv := ["node"; "script.js"];
     dirname := "/repo/scripts";
     cwd := "/repo";
     now := "2024-05-01T12:30:45.123Z";
     stdin := [];
     fs := ∅;
     denied := ∅;
     Process.path_join := Str.join "/";
     json_parse := fun text =>
       if String.eqb text "{}" then Ok (JObj [])
       else if String.eqb text LoginForm_json then Ok LoginForm_requirements
       else Err (syntax_error text);
     exec := fun _ => Ok "" |}.

Definition with_argv (w : World) (arguments : list string) : World :=
  {| argv := ["node"; "script.js"] ++ arguments; dirname := dirname w; cwd := cwd w;
     now := now w; stdin := stdin w; fs := fs w; denied := denied w;
     Process.path_join := Process.path_join w; json_parse := json_parse w; exec := exec w |}.

Definition with_exec (w : World) (f : string -> Result string) : World :=
  {| argv := argv w; dirname := dirname w; cwd := cwd w;
     now := now w; stdin := stdin w; fs := fs w; denied := denied w;
     Process.path_join := Process.path_join w; json_parse := json_parse w; exec := f |}.

(** The answers of a user who wants a [Button] and local generation. *)
Definition Button_input : list string :=
  [ "Button"; "A button"; "user"; "a button to press"; "I can submit the form";
    "Given a form, when the button is pressed, then the form is submitted"; "";
    "label: string"; "click"; "";
    "renders its label"; ""; ""; "";
    ""; ""; "";
    "y" ].

Definition Button_answers : Feature.Answers :=
  {| Feature.componentName := "Button";
     Feature.description := "A button";
     Feature.userType := "user";
     Feature.feature := "a button to press";
     Feature.benefit := "I can submit the form";
     Feature.acceptanceCriteria :=
       ["Given a form, when the button is pressed, then the form is submitted"];
     Feature.props := "label: string";
     Feature.events := "click";
     Feature.stateManagement := "";
     Feature.happyPath := ["renders its label"];
     Feature.edgeCases := [];
     Feature.errorCases := [];
     Feature.desktopView := "";
     Feature.mobileView := "";
     Feature.accessibility := "" |}.

(** The scaffold generator fails (say, the files exist already); everything
    else works. *)
Definition scaffold_fails : World :=
  with_exec (with_stdin host Button_input)
    (fun command =>
       if String.prefix "node scripts/create-tdd-component.js" command
       then Err (command_failed command) else Ok "").


(** The components directory holds a test file for [Button] already. *)
Definition Button_exists : World :=
  with_fs (with_argv host ["Button"; "Issue #7: A button"])
    (<["/repo/scripts/../src/components/Button.test.ts" := File "// my tests"]>
       (<["/repo/scripts/../src/components" := Dir]> ∅)).

(** Another day, another checkout. *)
Definition elsewhere : World :=
  {| argv := ["node"; "create-tdd-component.js"; "Button"; "Issue #7: A button"; "extra"];
     dirname := "/home/dev/project/scripts";
     cwd := "/tmp";
     now := "2031-12-24T23:59:59.999Z";
     stdin := ["ignored"];
     fs := {[ "/etc/hosts" := File "127.0.0.1 localhost" ]};
     denied := ∅;
     Process.path_join := Str.join "/";
     json_parse := fun _ => Ok JNull;
     exec := fun command => Err (command_failed command) |}.

(** The requirements and the text of the generated file
    [UserProfile.test.ts] of the repository. *)
Definition UserProfile_requirements : Json :=
  JObj [
    ("userStory", JStr "As a user, I want to view my profile information so that I can see my account details");
    ("acceptanceCriteria", JArr [
       JStr "Given a user is logged in, when they navigate to profile, then their name is displayed";
       JStr "Given a user is logged in, when they view profile, then their email is shown";
       JStr "Error handling: Display error message if profile fails to load";
       JStr "Performance: Profile should load within 2 seconds" ])
  ].

Definition UserProfile_test_ts : string :=
  Str.text [
    "/**";
    " * UserProfile Component Tests";
    " * GitHub Issue #1: [FEATURE] UserProfile - Display user profile information";
    " *";
    " * User Story: As a user, I want to view my profile information so that I can see my account details";
    " *";
    " * This test file follows TDD approach - all tests should fail initially (Red phase)";
    " */";
    "";
    "";
    "import { describe, it, expect, beforeEach, vi, afterEach } from 'vitest'";
    "import { render, screen, waitFor } from '@/test/helpers/testing-library'";
    "import { mount } from '@vue/test-utils'";
    "import UserProfile from './UserProfile.vue'";
    "";
    "describe('UserProfile Component', () => {";
    "  beforeEach(() => {";
    "    vi.clearAllMocks();";
    "  });";
    "";
    "  afterEach(() => {";
    "    vi.restoreAllMocks();";
    "  });";
    "";
    "  describe('Acceptance Criteria', () => {";
    "    it('should given a user is logged in when they navigate to profile then their name is displayed', async () => {";
    "      // Acceptance Criteria: Given a user is logged in, when they navigate to profile, then their name is displayed";
    "      const { user } = render(UserProfile);";
    "";
    "      // TODO: Implement test for: Given a user is logged in, when they navigate to profile, then their name is displayed";
    "";
    "      expect(true).toBe(false); // Red phase - this should fail";
    "    });";
    "";
    "    it('should given a user is logged in when they view profile then their email is shown', async () => {";
    "      // Acceptance Criteria: Given a user is logged in, when they view profile, then their email is shown";
    "      const { user } = render(UserProfile);";
    "";
    "      // TODO: Implement test for: Given a user is logged in, when they view profile, then their email is shown";
    "";
    "      expect(true).toBe(false); // Red phase - this should fail";
    "    });";
    "";
    "    it('should error handling display error message if profile fails to load', async () => {";
    "      // Acceptance Criteria: Error handling: Display error message if profile fails to load";
    "      const { user } = render(UserProfile);";
    "";
    "      // TODO: Implement test for: Error handling: Display error message if profile fails to load";
    "";
    "      expect(true).toBe(false); // Red phase - this should fail";
    "    });";
    "";
    "    it('should performance profile should load within 2 seconds', async () => {";
    "      // Acceptance Criteria: Performance: Profile should load within 2 seconds";
    "      const { user } = render(UserProfile);";
    "";
    "      // TODO: Implement test for: Performance: Profile should load within 2 seconds";
    "";
    "      expect(true).toBe(false); // Red phase - this should fail";
    "    });";
    "  });";
    "";
    "  describe('Accessibility', () => {";
    "    it('should be accessible to screen readers', () => {";
    "      render(UserProfile);";
    "";
    "      // TODO: Add accessibility checks";
    "      // - Check for proper ARIA labels";
    "      // - Verify semantic HTML elements";
    "      // - Ensure proper heading hierarchy";
    "";
    "      expect(true).toBe(false); // Red phase - this should fail";
    "    });";
    "";
    "    it('should be keyboard navigable', async () => {";
    "      const { user } = render(UserProfile);";
    "";
    "      // TODO: Test keyboard navigation";
    "      // await user.tab();";
    "      // expect(element).toHaveFocus();";
    "";
    "      expect(true).toBe(false); // Red phase - this should fail";
    "    });";
    "  });";
    "});"
  ].

(** ** Further notions *)

(** The stores the mock can hold: what the operations make of the empty
    store. *)
Inductive reachable : Setup.Store -> Prop :=
| reachable_empty : reachable []
| reachable_setItem store key value :
    reachable store -> reachable (Setup.setItem store key value)
| reachable_removeItem store key :
    reachable store -> reachable (Setup.removeItem store key)
| reachable_clear store : reachable store -> reachable (Setup.clear store).

(** [key] is an own property of the store. *)
Definition stored (store : Setup.Store) (key : string) : Prop :=
  is_Some (Setup.own store key).

(** The host refuses to write the component file of [Button]. *)
Definition EACCES (path : string) : JsError :=
  let m := "EACCES: permission denied, open '" +:+ path +:+ "'" in
  {| message := m; stack := "Error: " +:+ m |}.

Definition component_denied : World :=
  let w := with_fs (with_argv host ["Button"])
             (<["/repo/scripts/../src/components" := Dir]> ∅) in
  {| argv := argv w; dirname := dirname w; cwd := cwd w; now := now w;
     stdin := stdin w; fs := fs w;
     denied := {[ "/repo/scripts/../src/components/Button.vue"
                  := EACCES "/repo/scripts/../src/components/Button.vue" ]};
     Process.path_join := Process.path_join w; json_parse := json_parse w;
     exec := exec w |}.

(** Events that only print. *)
Definition prints (e : Event) : Prop :=
  match e with
  | Stdout _ | Stderr _ | Called _ => True
  | _ => False
  end.

(** Events of the conversation with the user. *)
Definition converses (e : Event) : Prop :=
  match e with
  | Stdout _ | Asked _ => True
  | _ => False
  end.

(** The question that decides on local generation. *)
Definition generate_local_question : string :=
  Str.nl +:+ Feature.colors.yellow +:+ "Generate local TDD setup now? (y/n):"
  +:+ Feature.colors.reset +:+ " ".

(** The GitHub CLI is installed, and refuses to create the issue. *)
Definition gh_rejects : World :=
  with_exec host
    (fun command =>
       if String.prefix "gh issue create" command
       then Err (command_failed "gh issue create") else Ok "gh version 2.40.0").

(** A computation whose events all belong to the conversation. *)
Definition only_converses {A : Type} (m : Proc A) : Prop :=
  forall w w' t o, m w = (w', t, o) -> Forall converses t.

(** [options.global?.stubs] and [options.global?.provide]. *)
Definition stubs_of (options : Obj.Object) : Obj.JsVal :=
  Obj.optional_member (Obj.prop options "global") "stubs".

Definition provide_of (options : Obj.Object) : Obj.JsVal :=
  Obj.optional_member (Obj.prop options "global") "provide".

(** The components stubbed by default. *)
Definition router_stubs : list string := ["RouterLink"; "RouterView"; "Teleport"].

(** The property [name] of two objects merged, the second one first. *)
Definition merged (base overrides : Obj.Object) (name : string) : option Obj.JsVal :=
  match overrides !! name with
  | Some v => Some v
  | None => base !! name
  end.

(** The selector [getAccessibleName] looks the label of a form control up
    with. *)
Definition label_selector (element : TestingLibrary.Element) : string :=
  "label[for=" +:+ Str.dquote +:+ TestingLibrary.id element +:+ Str.dquote +:+ "]".

(** An element whose role is the name of a method of every object. *)
Definition odd_role : TestingLibrary.Element :=
  {| TestingLibrary.attributes := {[ "role" := "constructor" ]};
     TestingLibrary.textContent := Some "";
     TestingLibrary.form_control := false |}.

(** A page without style sheets, ids and labels. *)
Definition blank_page : TestingLibrary.Document :=
  {| TestingLibrary.getComputedStyle :=
       fun _ => {| TestingLibrary.display := "block";
                   TestingLibrary.visibility := "visible" |};
     TestingLibrary.getElementById := fun _ => None;
     TestingLibrary.querySelector := fun _ => Ok None |}.

(** A close button: an icon, labelled for screen readers. *)
Definition close_button : TestingLibrary.Element :=
  {| TestingLibrary.attributes := {[ "aria-label" := "Close" ]};
     TestingLibrary.textContent := Some "×";
     TestingLibrary.form_control := false |}.

(** An input labelled by an element that has no text, on a page that knows
    that element. *)
Definition empty_title : TestingLibrary.Element :=
  {| TestingLibrary.attributes := {[ "id" := "title" ]};
     TestingLibrary.textContent := Some "";
     TestingLibrary.form_control := false |}.

Definition titled_input : TestingLibrary.Element :=
  {| TestingLibrary.attributes := {[ "aria-labelledby" := "title"; "id" := "name" ]};
     TestingLibrary.textContent := Some "fallback";
     TestingLibrary.form_control := true |}.

Definition titled_page : TestingLibrary.Document :=
  {| TestingLibrary.getComputedStyle := TestingLibrary.getComputedStyle blank_page;
     TestingLibrary.getElementById :=
       fun i => if String.eqb i "title" then Some empty_title else None;
     TestingLibrary.querySelector := fun _ => Ok None |}.

(** The first argument of a recorded call. *)
Definition first_argument (call : list Matchers.Argument) : Matchers.Argument :=
  default Matchers.AUndefined (head call).

(** A call with an event of another type, or with something that is no
    event. *)
Definition other_event (eventType : string) (call : list Matchers.Argument) : Prop :=
  exists type, first_argument call = Matchers.AValue type /\ type <> Some eventType.

(** A host whose condition comes true at the fourth check and whose timers
    are punctual. *)
Definition punctual : Helpers.Host :=
  {| Helpers.condition := fun k => Ok (3 <=? k)%nat;
     Helpers.took := fun _ => 0;
     Helpers.setTimeout := fun _ delay => delay |}.

(** The mutation fails on [result] with [e]: [mutate] throws it, or the
    assertion does. *)
Definition fails {T : Type} (flush : T -> T) (m : Composables.Mutation T)
    (result : T) (e : JsError) : Prop :=
  (Composables.mutate m result).2 = Some e \/
  ((Composables.mutate m result).2 = None /\
   (Composables.expect m (flush (Composables.mutate m result).1)).2 = Some e).

(** * Properties *)

(** ** Strings *)

Lemma append_cons (x : ascii) (a b : string) : String x a +:+ b = String x (a +:+ b).
Proof. reflexivity. Qed.

Lemma append_assoc (a b c : string) : (a +:+ b) +:+ c = a +:+ (b +:+ c).
Proof.
  induction a as [|x a IH]; [reflexivity |].
  by rewrite !append_cons, IH.
Qed.

Lemma string_prefix_nil (s : string) : String.prefix "" s = true.
Proof. by destruct s. Qed.

Lemma prefix_refl_append (n b : string) : String.prefix n (n +:+ b) = true.
Proof.
  induction n as [|x n IH]; [apply string_prefix_nil |].
  rewrite append_cons. simpl.
  destruct (ascii_dec x x); [exact IH | congruence].
Qed.

Lemma prefix_append (n a b : string) :
  String.prefix n a = true -> String.prefix n (a +:+ b) = true.
Proof.
  revert a. induction n as [|x n IH]; intros a H; [apply string_prefix_nil |].
  destruct a as [|y a]; [discriminate |].
  rewrite append_cons. simpl in *.
  destruct (ascii_dec x y); [by apply IH | discriminate].
Qed.

Lemma prefix_split (m s : string) :
  String.prefix m s = true -> exists r, s = m +:+ r.
Proof.
  revert s. induction m as [|y m IH]; intros s H; [by exists s |].
  destruct s as [|z s]; simpl in H; [discriminate |].
  destruct (ascii_dec y z) as [-> |]; [| discriminate].
  destruct (IH _ H) as [r ->]. by exists r.
Qed.

Lemma includes_cons (n : string) (x : ascii) (h : string) :
  Str.includes n (String x h) = String.prefix n (String x h) || Str.includes n h.
Proof. reflexivity. Qed.

Lemma includes_nil (n : string) :
  Str.includes n "" = String.prefix n "" || false.
Proof. reflexivity. Qed.

Lemma includes_prefix (n h : string) :
  String.prefix n h = true -> Str.includes n h = true.
Proof.
  intros H. destruct h; [rewrite includes_nil | rewrite includes_cons];
    rewrite H; reflexivity.
Qed.

Lemma includes_here (n b : string) : Str.includes n (n +:+ b) = true.
Proof. apply includes_prefix, prefix_refl_append. Qed.

Lemma includes_append_l (n a b : string) :
  Str.includes n a = true -> Str.includes n (a +:+ b) = true.
Proof.
  induction a as [|x a IH]; intros H.
  - rewrite includes_nil, orb_false_r in H. destruct n; [| discriminate].
    apply includes_prefix, string_prefix_nil.
  - rewrite append_cons, includes_cons. rewrite includes_cons in H.
    apply orb_true_iff in H as [H | H].
    + apply (prefix_append _ _ b) in H. rewrite append_cons in H.
      rewrite H. reflexivity.
    + rewrite (IH H). apply orb_true_r.
Qed.

Lemma includes_append_r (n a b : string) :
  Str.includes n b = true -> Str.includes n (a +:+ b) = true.
Proof.
  intros H. induction a as [|x a IH]; [exact H |].
  rewrite append_cons, includes_cons, IH. apply orb_true_r.
Qed.

(** [includes] finds every occurrence. *)
Lemma includes_middle (n a b : string) : Str.includes n (a +:+ n +:+ b) = true.
Proof. apply includes_append_r, includes_here. Qed.

Lemma includes_trans (n m h : string) :
  Str.includes n m = true -> Str.includes m h = true -> Str.includes n h = true.
Proof.
  intros Hnm. induction h as [|x h IH]; intros H.
  - rewrite includes_nil, orb_false_r in H. destruct m; [| discriminate]. exact Hnm.
  - rewrite includes_cons in H. apply orb_true_iff in H as [H | H].
    + apply prefix_split in H as [r ->]. by apply includes_append_l.
    + rewrite includes_cons, (IH H). apply orb_true_r.
Qed.

Lemma includes_text (n l : string) (lines : list string) :
  l ∈ lines -> Str.includes n l = true -> Str.includes n (Str.text lines) = true.
Proof.
  induction 1 as [l lines | l l' lines _ IH]; intros H; simpl.
  - by apply includes_append_l.
  - apply includes_append_r, includes_append_r, IH, H.
Qed.

Lemma includes_join (n sep p : string) (parts : list string) :
  p ∈ parts -> Str.includes n p = true -> Str.includes n (Str.join sep parts) = true.
Proof.
  induction 1 as [p parts | p p' parts Hin IH]; intros H.
  - destruct parts; simpl; [exact H | by apply includes_append_l].
  - destruct parts as [|q parts]; [by apply elem_of_nil in Hin |].
    change (Str.join sep (p' :: q :: parts))
      with (p' +:+ sep +:+ Str.join sep (q :: parts)).
    apply includes_append_r, includes_append_r, IH, H.
Qed.

(** ** [getEmittedEvent] *)



(** ** The storage mock *)

Section StorageMock.

Import Setup.

Lemma own_assign_eq (store : Store) (key value : string) :
  own (assign store key value) key = Some value.
Proof.
  induction store as [|[k v] store IH]; simpl.
  - by rewrite String.eqb_refl.
  - destruct (String.eqb k key) eqn:E; simpl; rewrite E; [reflexivity | exact IH].
Qed.

Lemma own_assign_ne (store : Store) (key key' value : string) :
  key <> key' -> own (assign store key value) key' = own store key'.
Proof.
  intros Hne. induction store as [|[k v] store IH]; simpl.
  - by apply String.eqb_neq in Hne as ->.
  - destruct (String.eqb k key) eqn:E; simpl.
    + apply String.eqb_eq in E as ->. by apply String.eqb_neq in Hne as ->.
    + by rewrite IH.
Qed.

Lemma shared_install : shared install.
Proof. split; [reflexivity | by eexists]. Qed.

Lemma shared_update (w : Window) (which : Which) (f : Store -> Store) :
  shared w -> shared (update w which f).
Proof.
  intros [Href [store Hstore]]. split; [exact Href |]. simpl.
  destruct (decide (ref w which = localStorage w)) as [-> | Hne].
  - rewrite lookup_alter_eq, Hstore. by eexists.
  - rewrite lookup_alter_ne by done. by eexists.
Qed.

Lemma shared_step (w : Window) (op : Op) : shared w -> shared (step w op).
Proof. destruct op; apply shared_update. Qed.

Lemma shared_after (ops : list Op) : shared (after ops).
Proof.
  unfold after. generalize shared_install. generalize install.
  induction ops as [|op ops IH]; intros w Hw; [exact Hw |].
  apply IH, shared_step, Hw.
Qed.

Lemma ref_shared (w : Window) (which : Which) :
  shared w -> ref w which = localStorage w.
Proof. intros [Href _]. destruct which; [reflexivity | by symmetry]. Qed.

(** Reading through one property what was changed through any of them. *)
Lemma getItem_update (w : Window) (which which' : Which) (f : Store -> Store)
    (key : string) :
  shared w ->
  call_getItem (update w which f) which' key
  = (fun store => getItem (f store) key) <$> heap w !! localStorage w.
Proof.
  intros Hw. unfold call_getItem.
  change (ref (update w which f) which') with (ref w which').
  rewrite (ref_shared w which' Hw). simpl.
  rewrite (ref_shared w which Hw), lookup_alter_eq.
  by destruct (heap w !! localStorage w).
Qed.

(** The two properties always read the same. *)
Lemma getItem_shared (w : Window) (which : Which) (key : string) :
  shared w -> call_getItem w which key = call_getItem w (other which) key.
Proof.
  intros Hw. unfold call_getItem.
  by rewrite !(ref_shared w _ Hw).
Qed.

(** A non-empty value stored under a key other than [__proto__] is read
    back through either property. *)
Lemma setItem_getItem_shared (ops : list Op) (which which' : Which)
    (key value : string) :
  value <> "" -> key <> "__proto__" ->
  call_getItem (call_setItem (after ops) which key value) which' key
  = Some (VStr value).
Proof.
  intros Hvalue Hkey. pose proof (shared_after ops) as Hw.
  unfold call_setItem. rewrite getItem_update by done.
  destruct Hw as [_ [store ->]]. simpl. f_equal.
  unfold getItem, setItem, set, get.
  apply String.eqb_neq in Hkey as ->. rewrite own_assign_eq.
  unfold or_else. simpl. by apply String.eqb_neq in Hvalue as ->.
Qed.

(** After clearing through either property, a key that [Object.prototype]
    does not define reads as [null] through both. *)
Lemma clear_getItem_shared (ops : list Op) (which which' : Which) (key : string) :
  inherited key = false ->
  call_getItem (call_clear (after ops) which) which' key = Some VNull.
Proof.
  intros Hkey. pose proof (shared_after ops) as Hw.
  unfold call_clear. rewrite getItem_update by done.
  destruct Hw as [_ [store ->]]. simpl. f_equal.
  unfold getItem, clear, get. simpl. by rewrite Hkey.
Qed.

(** A key that was never set and that [Object.prototype] does not define
    reads as [null]. *)
Lemma getItem_unset (store : Store) (key : string) :
  own store key = None -> inherited key = false -> getItem store key = VNull.
Proof. intros Hown Hkey. unfold getItem, get. by rewrite Hown, Hkey. Qed.

(** An empty value is stored, and read back as [null], in every state. *)
Lemma setItem_empty_getItem (ops : list Op) (which which' : Which) (key : string) :
  call_getItem (call_setItem (after ops) which key "") which' key = Some VNull
  \/ key = "__proto__".
Proof.
  destruct (decide (key = "__proto__")) as [| Hkey]; [by right | left].
  pose proof (shared_after ops) as Hw.
  unfold call_setItem. rewrite getItem_update by done.
  destruct Hw as [_ [store ->]]. simpl. f_equal.
  unfold getItem, setItem, set, get.
  apply String.eqb_neq in Hkey as ->. by rewrite own_assign_eq.
Qed.

End StorageMock.

(** C9 (the code departs from it): a value stored through
    [localStorage.setItem] is to be read back through
    [sessionStorage.getItem]; for the empty string the mock answers [null],
    because [getItem] is [store[key] || null] and the empty string is falsy. *)
Theorem storage_mock_loses_empty_value :
  Setup.call_getItem
    (Setup.call_setItem Setup.install Setup.Local "draft" "") Setup.Session "draft"
  = Some VNull.
Proof. reflexivity. Qed.

(** A second departure, from the same use of a plain object as the map: a
    key that was never set but that [Object.prototype] defines does not read
    as [null]. *)
Lemma storage_mock_inherited_key :
  Setup.call_getItem Setup.install Setup.Local "toString"
  = Some (VObj "Object.prototype.toString").
Proof. reflexivity. Qed.

(** ** The batch generator *)

Lemma forEach_console_error (f : string -> string) (items : list string) (w : World) :
  forEach items (fun item w => (w, [Stderr (f item)], Ret tt)) w
  = (w, map (fun item => Stderr (f item)) items, Ret tt).
Proof.
  induction items as [|x items IH]; [reflexivity |].
  simpl. unfold bind. by rewrite IH.
Qed.

Lemma stdout_app (t t' : list Event) : stdout (t ++ t') = stdout t ++ stdout t'.
Proof. apply omap_app. Qed.

Lemma stdout_stderr (f : string -> string) (items : list string) :
  stdout (map (fun item => Stderr (f item)) items) = [].
Proof. induction items; [reflexivity | exact IHitems]. Qed.

Lemma calls_app (t t' : list Event) : calls (t ++ t') = calls t ++ calls t'.
Proof. apply omap_app. Qed.

Lemma calls_stderr (f : string -> string) (items : list string) :
  calls (map (fun item => Stderr (f item)) items) = [].
Proof. induction items; [reflexivity | exact IHitems]. Qed.

(** Unfolds the sequencing of effects, leaving strings alone. *)
Ltac proc_step :=
  cbv [bind ret throw process_exit try_catch lift emit ask when
       console_log console_error console_warn JSON_parse Node.path_join
       fs_existsSync execSync prompt rl_close].

Section BatchFacts.

Context {package : TestGenerator}.

Lemma stdout_warning_lines (contentValidation : ContentValidation) :
  stdout (warning_lines contentValidation) = [].
Proof. unfold warning_lines. destruct (0 <? _)%nat; [apply stdout_stderr | done]. Qed.

Lemma calls_warning_lines (contentValidation : ContentValidation) :
  calls (warning_lines contentValidation) = [].
Proof. unfold warning_lines. destruct (0 <? _)%nat; [apply calls_stderr | done]. Qed.

Lemma batch_run_cases (w : World) :
  batch_run w (run Batch.generate_tests_from_issue w).
Proof.
  unfold run, Batch.generate_tests_from_issue, Batch.generate.
  proc_step.
  destruct (argv w !! 2%nat) as [c|] eqn:Hc; simpl;
    [| apply batch_usage; rewrite Hc; by left].
  destruct (String.eqb c "") eqn:Hce; simpl;
    [apply batch_usage; rewrite Hc; simpl; rewrite Hce; by left |].
  destruct (argv w !! 3%nat) as [j|] eqn:Hj; simpl;
    [| apply batch_usage; rewrite Hj; by right].
  destruct (String.eqb j "") eqn:Hje; simpl;
    [apply batch_usage; rewrite Hj; simpl; rewrite Hje; by right |].
  apply String.eqb_neq in Hce, Hje.
  destruct (json_parse w j) as [requirements | e] eqn:Hparse; simpl;
    [| by eapply batch_parse_error].
  destruct (valid (validateRequirements requirements)) eqn:Hvalid; simpl.
  2:{ rewrite forEach_console_error. simpl. rewrite app_nil_r.
      by eapply batch_requirements_invalid. }
  fold (batch_metadata w).
  destruct (generateTestContent c requirements (batch_metadata w))
    as [testContent | e] eqn:Hgen; simpl;
    [| by eapply batch_generate_error].
  destruct (valid (performFullValidation testContent c)) eqn:Hcontent; simpl.
  2:{ rewrite forEach_console_error. simpl. rewrite app_nil_r.
      by eapply batch_content_invalid. }
  pose proof (batch_success w c j requirements testContent
                Hc Hce Hj Hje Hparse Hvalid Hgen Hcontent) as H.
  unfold warning_lines in H. simpl in H.
  destruct (0 <? List.length (warnings (performFullValidation testContent c)))%nat;
    simpl; [rewrite forEach_console_error |]; simpl; exact H.
Qed.

Lemma truthy_str_Some (s : string) : s <> "" -> truthy_str (Some s) = true.
Proof. intros H. simpl. by apply String.eqb_neq in H as ->. Qed.

(** C1: the batch generator exits with status 1 when a required argument
    is missing, when the requirements are not parseable JSON, when
    [validateRequirements] returns [valid = false], or when
    [performFullValidation] returns [valid = false]; on every other
    invocation it exits with status 0. *)
Theorem batch_exit_status (w : World) :
  let failed :=
    missing_argument w \/ unparseable_json w \/
    requirements_invalid w \/ content_invalid w in
  (failed -> status (run Batch.generate_tests_from_issue w) = 1) /\
  (~ failed -> status (run Batch.generate_tests_from_issue w) = 0).
Proof.
  intros failed. subst failed.
  destruct (batch_run_cases w)
    as [Hmiss | c j e Hc Hce Hj Hje Hparse | c j req Hc Hce Hj Hje Hparse Hvalid
        | c j req e Hc Hce Hj Hje Hparse Hvalid Hgen
        | c j req text Hc Hce Hj Hje Hparse Hvalid Hgen Hcontent
        | c j req text Hc Hce Hj Hje Hparse Hvalid Hgen Hcontent]; simpl.
  - split; [reflexivity |]. intros H. destruct H. by left.
  - split; [reflexivity |]. intros H. destruct H. right; left. by exists j, e.
  - split; [reflexivity |]. intros H. destruct H. right; right; left. by exists j, req.
  - exfalso. apply Hce.
    apply (generateTestContent_fails c req (batch_metadata w)). by exists e.
  - split; [reflexivity |]. intros H. destruct H. right; right; right.
    by exists c, j, req, text.
  - split; [| reflexivity]. intros [Hmiss | [Hjson | [Hreq | Hcv]]]; exfalso.
    + destruct Hmiss as [Hmiss | Hmiss].
      * by rewrite Hc, truthy_str_Some in Hmiss.
      * by rewrite Hj, truthy_str_Some in Hmiss.
    + destruct Hjson as (j' & e & Hj' & Hparse'). congruence.
    + destruct Hreq as (j' & req' & Hj' & Hparse' & Hvalid'). congruence.
    + destruct Hcv as (c' & j' & req' & text' & Hc' & Hj' & Hparse' & Hgen' & Hcontent').
      congruence.
Qed.

(** C2: the batch generator writes the sentinel-wrapped block, a
    [TEST_CONTENT_START] line, the generated text and a [TEST_CONTENT_END]
    line, to standard output exactly when the requirements validation and
    the content validation have both passed, and otherwise writes nothing
    there; [validateRequirements] runs before [generateTestContent], which
    runs before [performFullValidation]. *)
Theorem batch_sentinel_block (w : World) :
  let r := run Batch.generate_tests_from_issue w in
  (forall testContent,
     validated w testContent ->
     stdout (trace r) = ["TEST_CONTENT_START"; testContent; "TEST_CONTENT_END"]) /\
  ((forall testContent, ~ validated w testContent) -> stdout (trace r) = []) /\
  calls (trace r) `prefix_of`
    ["validateRequirements"; "generateTestContent"; "performFullValidation"].
Proof.
  intros r. subst r.
  destruct (batch_run_cases w)
    as [Hmiss | c j e Hc Hce Hj Hje Hparse | c j req Hc Hce Hj Hje Hparse Hvalid
        | c j req e Hc Hce Hj Hje Hparse Hvalid Hgen
        | c j req text Hc Hce Hj Hje Hparse Hvalid Hgen Hcontent
        | c j req text Hc Hce Hj Hje Hparse Hvalid Hgen Hcontent]; simpl.
  - split; [| split; [reflexivity | apply prefix_nil]].
    intros text (c & j & req & Hc & Hce & Hj & Hje & _). exfalso.
    destruct Hmiss as [Hmiss | Hmiss].
    + by rewrite Hc, truthy_str_Some in Hmiss.
    + by rewrite Hj, truthy_str_Some in Hmiss.
  - split; [| split; [reflexivity | apply prefix_nil]].
    intros text (c' & j' & req & Hc' & _ & Hj' & _ & Hparse' & _). congruence.
  - rewrite stdout_stderr, calls_stderr.
    split; [| split; [reflexivity | by exists ["generateTestContent"; "performFullValidation"]]].
    intros text (c' & j' & req' & Hc' & _ & Hj' & _ & Hparse' & Hvalid' & _). congruence.
  - split; [| split; [reflexivity | by exists ["performFullValidation"]]].
    intros text (c' & j' & req' & Hc' & _ & Hj' & _ & Hparse' & _ & Hgen' & _). congruence.
  - rewrite stdout_stderr, calls_stderr.
    split; [| split; [reflexivity | by exists []]].
    intros text' (c' & j' & req' & Hc' & _ & Hj' & _ & Hparse' & _ & Hgen' & Hcontent').
    congruence.
  - subst contentValidation.
    rewrite stdout_app, calls_app, stdout_warning_lines, calls_warning_lines. simpl.
    split; [| split; [| by exists []]].
    + intros text' (c' & j' & req' & Hc' & _ & Hj' & _ & Hparse' & _ & Hgen' & _).
      congruence.
    + intros Hnone. destruct (Hnone text). by exists c, j, req.
Qed.

(** What the batch generator prints on standard output, as a function of
    the component name, the parsed requirements and the metadata. *)
Lemma batch_stdout (w : World) (c j : string) (requirements : Json) :
  argv w !! 2%nat = Some c -> c <> "" -> argv w !! 3%nat = Some j -> j <> "" ->
  json_parse w j = Ok requirements ->
  stdout (trace (run Batch.generate_tests_from_issue w)) =
  if valid (validateRequirements requirements) then
    match generateTestContent c requirements (batch_metadata w) with
    | Ok testContent =>
        if valid (performFullValidation testContent c)
        then ["TEST_CONTENT_START"; testContent; "TEST_CONTENT_END"]
        else []
    | Err _ => []
    end
  else [].
Proof.
  intros Hc Hce Hj Hje Hparse.
  destruct (batch_run_cases w)
    as [Hmiss | c' j' e Hc' _ Hj' _ Hparse' | c' j' req Hc' _ Hj' _ Hparse' Hvalid
        | c' j' req e Hc' _ Hj' _ Hparse' Hvalid Hgen
        | c' j' req text Hc' _ Hj' _ Hparse' Hvalid Hgen Hcontent
        | c' j' req text Hc' _ Hj' _ Hparse' Hvalid Hgen Hcontent];
    try (rewrite Hc in Hc'; injection Hc' as <-;
         rewrite Hj in Hj'; injection Hj' as <-;
         rewrite Hparse in Hparse'; try discriminate Hparse';
         injection Hparse' as <-);
    simpl.
  - destruct Hmiss as [Hmiss | Hmiss].
    + by rewrite Hc, truthy_str_Some in Hmiss.
    + by rewrite Hj, truthy_str_Some in Hmiss.
  - by rewrite stdout_stderr, Hvalid.
  - by rewrite Hvalid, Hgen.
  - by rewrite stdout_stderr, Hvalid, Hgen, Hcontent.
  - subst contentValidation.
    by rewrite stdout_app, stdout_warning_lines, Hvalid, Hgen, Hcontent.
Qed.

End BatchFacts.

(** ** The scaffold generator *)

Lemma bind_Ret {A B : Type} (m : Proc A) (k : A -> Proc B) (w w' : World)
    (t : list Event) (a : A) :
  m w = (w', t, Ret a) ->
  bind m k w = (let '(w'', t', o) := k a w' in (w'', t ++ t', o)).
Proof. intros H. unfold bind. by rewrite H. Qed.

Lemma bind_Throw {A B : Type} (m : Proc A) (k : A -> Proc B) (w w' : World)
    (t : list Event) (e : JsError) :
  m w = (w', t, Throw e) -> bind m k w = (w', t, Throw e).
Proof. intros H. unfold bind. by rewrite H. Qed.

Lemma bind_Exit {A B : Type} (m : Proc A) (k : A -> Proc B) (w w' : World)
    (t : list Event) (code : Z) :
  m w = (w', t, Exit code) -> bind m k w = (w', t, Exit code).
Proof. intros H. unfold bind. by rewrite H. Qed.

Lemma ensure_directory_cases (dir : string) (w : World) :
  Scaffold.ensure_directory dir w =
  if decide (present w dir) then (w, [Probed dir], Ret tt)
  else match denied w !! dir with
       | Some e => (w, [Probed dir], Throw e)
       | None => (with_fs w (<[dir := Dir]> (fs w)), [Probed dir; MadeDir dir], Ret tt)
       end.
Proof.
  unfold Scaffold.ensure_directory. proc_step. fold (present w dir).
  destruct (decide (present w dir)) as [H | H].
  - by rewrite bool_decide_eq_true_2.
  - rewrite bool_decide_eq_false_2 by done. simpl. unfold fs_mkdirSync.
    destruct (fs w !! dir) as [node |] eqn:Hnode; [destruct H; by eexists |].
    by destruct (denied w !! dir).
Qed.

Lemma check_files_cases (testFile componentFile : string) (w : World) :
  Scaffold.check_files testFile componentFile w =
  if decide (present w testFile) then
    (w, [Probed testFile;
         Stderr ("❌ Test file already exists: " +:+ testFile)], Exit 1)
  else if decide (present w componentFile) then
    (w, [Probed testFile; Probed componentFile;
         Stderr ("❌ Component file already exists: " +:+ componentFile)], Exit 1)
  else (w, [Probed testFile; Probed componentFile], Ret tt).
Proof.
  unfold Scaffold.check_files. proc_step.
  fold (present w testFile). fold (present w componentFile).
  destruct (decide (present w testFile)).
  - by rewrite bool_decide_eq_true_2.
  - rewrite bool_decide_eq_false_2 by done. simpl.
    destruct (decide (present w componentFile)).
    + by rewrite bool_decide_eq_true_2.
    + by rewrite bool_decide_eq_false_2.
Qed.

Lemma write_files_cases (testFile componentFile testTemplate componentTemplate : string)
    (w : World) :
  ~ present w testFile -> ~ present w componentFile ->
  Scaffold.write_files testFile componentFile testTemplate componentTemplate w =
  match denied w !! testFile with
  | Some e => (w, [Stderr ("❌ Error creating files: " +:+ message e)], Exit 1)
  | None =>
      let w1 := with_fs w (<[testFile := File testTemplate]> (fs w)) in
      match denied w !! componentFile with
      | Some e =>
          (w1, [Wrote testFile testTemplate;
                Stdout ("✅ Created test file: " +:+ testFile);
                Stderr ("❌ Error creating files: " +:+ message e)], Exit 1)
      | None =>
          (with_fs w1 (<[componentFile := File componentTemplate]> (fs w1)),
           [Wrote testFile testTemplate;
            Stdout ("✅ Created test file: " +:+ testFile);
            Wrote componentFile componentTemplate;
            Stdout ("✅ Created component file: " +:+ componentFile)] ++ next_steps,
           Ret tt)
      end
  end.
Proof.
  intros Htest Hcomponent.
  unfold Scaffold.write_files, fs_writeFileSync. proc_step.
  destruct (denied w !! testFile) as [e |]; [reflexivity |].
  destruct (fs w !! testFile) as [node |] eqn:Hnode; [destruct Htest; by eexists |].
  simpl.
  destruct (denied w !! componentFile) as [e |]; [reflexivity |].
  destruct (decide (testFile = componentFile)) as [<- | Hne].
  - by rewrite lookup_insert_eq.
  - rewrite lookup_insert_ne by done.
    destruct (fs w !! componentFile) as [node |] eqn:Hnode';
      [destruct Hcomponent; by eexists | reflexivity].
Qed.

Lemma scaffold_run_cases (w : World) :
  scaffold_run w (run Scaffold.create_tdd_component w).
Proof.
  unfold run, Scaffold.create_tdd_component,
    Scaffold.testFile, Scaffold.componentFile, Scaffold.componentsDir.
  proc_step.
  destruct (argv w !! 2%nat) as [c|] eqn:Hc; simpl;
    [| apply scaffold_no_name; by rewrite Hc].
  destruct (String.eqb c "") eqn:Hce; simpl;
    [apply scaffold_no_name; rewrite Hc; simpl; by rewrite Hce |].
  apply String.eqb_neq in Hce.
  fold (components_dir w). fold (test_file w c). fold (component_file w c).
  rewrite ensure_directory_cases.
  assert (forall w1 pre,
            directory_step w w1 pre -> denied w1 = denied w ->
            forall w2 t o,
              (check <- Scaffold.check_files (test_file w c) (component_file w c);;
               Scaffold.write_files (test_file w c) (component_file w c)
                 (Scaffold.testTemplate c (Scaffold.issueDescription (argv w) c))
                 (Scaffold.componentTemplate c)) w1 = (w2, t, o) ->
            scaffold_run w
              match o with
              | Throw e => {| final := w2; trace := (pre ++ t) ++ [Stderr (stack e)]; status := 1 |}
              | Exit c0 => {| final := w2; trace := pre ++ t; status := c0 |}
              | _ => {| final := w2; trace := pre ++ t; status := 0 |}
              end) as tail.
  { intros w1 pre Hstep Hdenied w2 t o. unfold bind. rewrite check_files_cases.
    destruct (decide (present w1 (test_file w c))) as [Htest | Htest].
    { intros [= <- <- <-]. by eapply scaffold_test_exists. }
    destruct (decide (present w1 (component_file w c))) as [Hcomponent | Hcomponent].
    { intros [= <- <- <-]. by eapply scaffold_component_exists. }
    rewrite write_files_cases by done. rewrite Hdenied.
    destruct (denied w !! test_file w c) as [e |] eqn:Hdt.
    { intros [= <- <- <-]. by eapply scaffold_test_write_fails. }
    destruct (denied w !! component_file w c) as [e |] eqn:Hdc.
    { intros [= <- <- <-]. by eapply scaffold_component_write_fails. }
    intros [= <- <- <-].
    exact (scaffold_success w c w1 pre Hc Hce Hstep Htest Hcomponent Hdt Hdc). }
  unfold bind in tail.
  destruct (decide (present w (components_dir w))) as [Hdir | Hdir].
  - specialize (tail w [Probed (components_dir w)] (directory_present w Hdir) eq_refl).
    destruct (Scaffold.check_files (test_file w c) (component_file w c) w)
      as [[w1 t1] [[] | e | code |]];
      try apply (tail _ _ _ eq_refl).
    destruct (Scaffold.write_files _ _ _ _ w1) as [[w2 t2] o2].
    specialize (tail _ _ _ eq_refl). by destruct o2.
  - destruct (denied w !! components_dir w) as [e |] eqn:Hdd.
    + by eapply scaffold_mkdir_fails.
    + specialize (tail _ [Probed (components_dir w); MadeDir (components_dir w)]
                    (directory_made w Hdir Hdd) eq_refl).
      destruct (Scaffold.check_files (test_file w c) (component_file w c) _)
        as [[w1 t1] [[] | e | code |]];
        try apply (tail _ _ _ eq_refl).
      destruct (Scaffold.write_files _ _ _ _ w1) as [[w2 t2] o2].
      specialize (tail _ _ _ eq_refl). by destruct o2.
Qed.

Lemma writes_app (t t' : list Event) : writes (t ++ t') = writes t ++ writes t'.
Proof. apply omap_app. Qed.

Lemma stderr_app (t t' : list Event) : stderr (t ++ t') = stderr t ++ stderr t'.
Proof. apply omap_app. Qed.

Lemma directory_step_keeps (w w1 : World) (pre : list Event) :
  directory_step w w1 pre ->
  writes pre = [] /\ stderr pre = [] /\ stdout pre = [] /\
  before_first_write pre = pre /\
  (forall path node, fs w !! path = Some node -> fs w1 !! path = Some node).
Proof.
  destruct 1 as [| Habsent _]; repeat split; try done.
  intros path node Hpath. simpl.
  rewrite lookup_insert_ne; [done |].
  intros <-. apply Habsent. by eexists.
Qed.

Lemma before_first_write_app (pre t : list Event) :
  before_first_write pre = pre ->
  before_first_write (pre ++ t) = pre ++ before_first_write t.
Proof.
  induction pre as [|e pre IH]; [done |]. simpl.
  destruct (is_write e); [done |]. intros [= H]. by rewrite IH.
Qed.

(** C3: when the test file or the component file already exists at the
    derived path, the scaffold generator exits with a non-zero status,
    reports the conflicting path, and writes no file: what the file system
    holds is left as it is.  In every run both existence checks come before
    the first write. *)
Theorem scaffold_never_overwrites (w : World) (c : string) :
  argv w !! 2%nat = Some c -> c <> "" ->
  let r := run Scaffold.create_tdd_component w in
  (writes (trace r) <> [] ->
   Probed (test_file w c) ∈ before_first_write (trace r) /\
   Probed (component_file w c) ∈ before_first_write (trace r) /\
   ~ present w (test_file w c) /\ ~ present w (component_file w c)) /\
  (present w (test_file w c) \/ present w (component_file w c) ->
   status r <> 0 /\
   writes (trace r) = [] /\
   (forall path node, fs w !! path = Some node -> fs (final r) !! path = Some node) /\
   (present w (components_dir w) ->
    stderr (trace r) =
      [if decide (present w (test_file w c))
       then "❌ Test file already exists: " +:+ test_file w c
       else "❌ Component file already exists: " +:+ component_file w c])).
Proof.
  intros Hc Hce r. subst r.
  assert (forall w1 pre path, directory_step w w1 pre ->
            present w path -> present w1 path) as Hkeep.
  { intros w1 pre path Hstep [node Hnode].
    exists node. by apply (directory_step_keeps _ _ _ Hstep). }
  assert (forall w1 pre, directory_step w w1 pre ->
            present w (components_dir w) -> w1 = w) as Hsame.
  { intros w1 pre [|Habsent] Hdir; [done | by destruct Habsent]. }
  destruct (scaffold_run_cases w)
    as [Hnone | c' e Hc' _ Hdir Hdenied
        | c' w1 pre Hc' _ Hstep Htest
        | c' w1 pre Hc' _ Hstep Htest Hcomponent
        | c' w1 pre e Hc' _ Hstep Htest Hcomponent Hdt
        | c' w1 pre e Hc' _ Hstep Htest Hcomponent Hdt Hdc
        | c' w1 pre Hc' _ Hstep Htest Hcomponent Hdt Hdc];
    try (rewrite Hc in Hc'; injection Hc' as <-); simpl.
  - by rewrite Hc, truthy_str_Some in Hnone.
  - split; [done |]. intros _. repeat split; try done.
  - destruct (directory_step_keeps _ _ _ Hstep) as (Hw & He & _ & _ & Hfs).
    rewrite writes_app, stderr_app, Hw, He. simpl.
    split; [done |]. intros _. repeat split; try done.
    intros Hdir. rewrite (Hsame _ _ Hstep Hdir) in Htest.
    by rewrite decide_True.
  - destruct (directory_step_keeps _ _ _ Hstep) as (Hw & He & _ & _ & Hfs).
    rewrite writes_app, stderr_app, Hw, He. simpl.
    split; [done |]. intros _. repeat split; try done.
    intros Hdir. rewrite (Hsame _ _ Hstep Hdir) in Htest.
    by rewrite decide_False.
  - destruct (directory_step_keeps _ _ _ Hstep) as (Hw & He & _ & _ & Hfs).
    rewrite writes_app, Hw. simpl.
    split; [done |]. intros [H | H]; exfalso; eauto.
  - destruct (directory_step_keeps _ _ _ Hstep) as (Hw & He & _ & Hb & Hfs).
    rewrite writes_app, Hw, before_first_write_app by done. simpl.
    split.
    + intros _. repeat split; [set_solver | set_solver | eauto | eauto].
    + intros [H | H]; exfalso; eauto.
  - destruct (directory_step_keeps _ _ _ Hstep) as (Hw & He & _ & Hb & Hfs).
    rewrite writes_app, Hw, before_first_write_app by done. simpl.
    split.
    + intros _. repeat split; [set_solver | set_solver | eauto | eauto].
    + intros [H | H]; exfalso; eauto.
Qed.

Section Generators.

Context {package : TestGenerator}.

(** C8: when the component name is the empty string or absent, generation
    reports a fatal error, the process exits with a non-zero status and no
    file is written: by the scaffold generator, by the batch generator, and
    by [generateTestContent] itself. *)
Theorem empty_component_name_is_fatal (w : World) :
  truthy_str (argv w !! 2%nat) = false ->
  let scaffold := run Scaffold.create_tdd_component w in
  let batch := run Batch.generate_tests_from_issue w in
  (status scaffold <> 0 /\
   stderr (trace scaffold) = ["❌ Please provide a component name"] /\
   writes (trace scaffold) = [] /\ final scaffold = w) /\
  (status batch <> 0 /\
   stderr (trace batch) = [Batch.usage] /\ stdout (trace batch) = [] /\
   writes (trace batch) = [] /\ final batch = w) /\
  (forall requirements metadata,
     exists e, generateTestContent "" requirements metadata = Err e).
Proof.
  intros Hname scaffold batch. subst scaffold batch.
  split; [| split].
  - destruct (scaffold_run_cases w) as [Hnone | | | | | |];
      try (exfalso; rewrite H in Hname; by rewrite truthy_str_Some in Hname).
    by simpl.
  - destruct (batch_run_cases w) as [Hmiss | | | | |];
      try (exfalso; rewrite H in Hname; by rewrite truthy_str_Some in Hname).
    by simpl.
  - intros requirements metadata. by apply generateTestContent_fails.
Qed.

(** The contents the scaffold generator writes are its two templates, in
    this order. *)
Lemma scaffold_writes_templates (w : World) :
  let componentName := default "" (argv w !! 2%nat) in
  map snd (writes (trace (run Scaffold.create_tdd_component w)))
  `prefix_of`
  [Scaffold.testTemplate componentName
     (Scaffold.issueDescription (argv w) componentName);
   Scaffold.componentTemplate componentName].
Proof.
  destruct (scaffold_run_cases w)
    as [Hnone | c e Hc _ Hdir Hdenied
        | c w1 pre Hc _ Hstep Htest
        | c w1 pre Hc _ Hstep Htest Hcomponent
        | c w1 pre e Hc _ Hstep Htest Hcomponent Hdt
        | c w1 pre e Hc _ Hstep Htest Hcomponent Hdt Hdc
        | c w1 pre Hc _ Hstep Htest Hcomponent Hdt Hdc];
    simpl; try (by eexists);
    destruct (directory_step_keeps _ _ _ Hstep) as (Hw & _);
    rewrite writes_app, Hw, Hc; simpl; by eexists.
Qed.

(** C4: generation is deterministic.  Two calls of [generateTestContent]
    with identical component name, requirements and metadata give the same
    result, and what the batch generator prints on standard output is
    determined by these three; the contents the scaffold generator writes
    depend on the component name and the issue description alone: two runs
    that agree on these write character-identical contents, whatever the
    clock, the file system, the directories and the other arguments are. *)
Theorem generation_is_deterministic :
  (forall componentName componentName' requirements requirements' metadata metadata',
     componentName = componentName' -> requirements = requirements' ->
     metadata = metadata' ->
     generateTestContent componentName requirements metadata
     = generateTestContent componentName' requirements' metadata') /\
  (forall (w w' : World) (componentName j j' : string) (requirements : Json),
     argv w !! 2%nat = Some componentName -> argv w' !! 2%nat = Some componentName ->
     componentName <> "" ->
     argv w !! 3%nat = Some j -> j <> "" -> argv w' !! 3%nat = Some j' -> j' <> "" ->
     json_parse w j = Ok requirements -> json_parse w' j' = Ok requirements ->
     batch_metadata w = batch_metadata w' ->
     stdout (trace (run Batch.generate_tests_from_issue w))
     = stdout (trace (run Batch.generate_tests_from_issue w'))) /\
  (forall (w w' : World) (componentName : string),
     argv w !! 2%nat = Some componentName ->
     argv w' !! 2%nat = Some componentName ->
     Scaffold.issueDescription (argv w) componentName
     = Scaffold.issueDescription (argv w') componentName ->
     forall (i : nat) (content content' : string),
       map snd (writes (trace (run Scaffold.create_tdd_component w))) !! i = Some content ->
       map snd (writes (trace (run Scaffold.create_tdd_component w'))) !! i = Some content' ->
       content = content').
Proof.
  split; [by intros; subst |]. split.
  - intros w w' c j j' requirements Hc Hc' Hce Hj Hje Hj' Hje' Hparse Hparse' Hmeta.
    rewrite (batch_stdout w c j requirements) by done.
    rewrite (batch_stdout w' c j' requirements) by done.
    by rewrite Hmeta.
  - intros w w' componentName Hc Hc' Hdescription i content content' Hi Hi'.
    pose proof (scaffold_writes_templates w) as H.
    pose proof (scaffold_writes_templates w') as H'.
    cbv zeta in H, H'. rewrite Hc in H. rewrite Hc' in H'.
    change (default "" (Some componentName)) with componentName in H, H'.
    rewrite <- Hdescription in H'.
    eapply prefix_lookup_Some in Hi; [| exact H].
    eapply prefix_lookup_Some in Hi'; [| exact H'].
    congruence.
Qed.

End Generators.

(** ** The modelled generator *)

Lemma append_nil_r (s : string) : s +:+ "" = s.
Proof. induction s as [|x s IH]; [done |]. by rewrite append_cons, IH. Qed.

Lemma includes_refl (n : string) : Str.includes n n = true.
Proof. rewrite <- (append_nil_r n) at 2. apply includes_here. Qed.

Lemma criterion_test_body (componentName criterion : string) :
  Str.includes
    ("', async () => {" +:+ Str.nl +:+
     Str.text [
       "      // Acceptance Criteria: " +:+ criterion;
       "      const { user } = render(" +:+ componentName +:+ ");";
       "";
       "      // TODO: Implement test for: " +:+ criterion;
       "";
       "      expect(true).toBe(false); // Red phase - this should fail";
       "    });" ])
    (SpecModel.criterion_test componentName criterion)
  = true.
Proof.
  change (SpecModel.criterion_test componentName criterion)
    with (("    it('" +:+ SpecModel.test_name criterion +:+ "', async () => {")
          +:+ Str.nl +:+
          Str.text [
            "      // Acceptance Criteria: " +:+ criterion;
            "      const { user } = render(" +:+ componentName +:+ ");";
            "";
            "      // TODO: Implement test for: " +:+ criterion;
            "";
            "      expect(true).toBe(false); // Red phase - this should fail";
            "    });" ]).
  rewrite (append_assoc "    it('"), (append_assoc (SpecModel.test_name criterion)).
  apply includes_append_r, includes_append_r, includes_refl.
Qed.

Lemma accessibility_group_red_phase (componentName : string) :
  Str.includes "expect(true).toBe(false)" (SpecModel.accessibility_group componentName)
  = true.
Proof.
  unfold SpecModel.accessibility_group.
  apply (includes_text _ ("      " +:+ "expect(true).toBe(false)" +:+
                          "; // Red phase - this should fail"));
    [| apply includes_middle].
  by apply (list_elem_of_lookup_2 _ 9%nat).
Qed.

Lemma acceptance_group_includes (componentName criterion : string)
    (criteria : list string) :
  criterion ∈ criteria ->
  Str.includes (SpecModel.criterion_test componentName criterion)
    (SpecModel.acceptance_group componentName criteria) = true.
Proof.
  intros Hin. unfold SpecModel.acceptance_group.
  destruct criteria as [|c0 criteria]; [by apply elem_of_nil in Hin |].
  apply includes_append_r, includes_append_r, includes_append_l.
  eapply includes_join; [| apply includes_refl].
  by apply list_elem_of_fmap_2.
Qed.

(** C5: in every text the generator produces, every acceptance criterion
    has its test, whose body, as in the generated file [UserProfile.test.ts],
    names the criterion and ends with the deliberately failing assertion
    [expect(true).toBe(false)] of the red phase; the content validator's
    [followsTddPattern] flag, which says whether a text contains that
    assertion, is true on the text. *)
Theorem generated_tests_follow_tdd (componentName : string) (requirements : Json)
    (metadata : Metadata) (testContent : string) :
  SpecModel.generateTestContent componentName requirements metadata = Ok testContent ->
  (forall criterion,
     criterion ∈ SpecModel.strings "acceptanceCriteria" requirements ->
     Str.includes
       ("', async () => {" +:+ Str.nl +:+
        Str.text [
          "      // Acceptance Criteria: " +:+ criterion;
          "      const { user } = render(" +:+ componentName +:+ ");";
          "";
          "      // TODO: Implement test for: " +:+ criterion;
          "";
          "      expect(true).toBe(false); // Red phase - this should fail";
          "    });" ])
       testContent = true) /\
  followsTddPattern (summary (SpecModel.performFullValidation testContent componentName))
  = true /\
  (forall content name,
     followsTddPattern (summary (SpecModel.performFullValidation content name))
     = Str.includes "expect(true).toBe(false)" content).
Proof.
  unfold SpecModel.generateTestContent.
  destruct (String.eqb componentName ""); [done |].
  intros [= <-]. unfold SpecModel.render. split; [| split].
  - intros criterion Hin.
    apply (includes_trans _ (SpecModel.criterion_test componentName criterion));
      [apply criterion_test_body |].
    apply includes_append_r, includes_append_l.
    by apply acceptance_group_includes.
  - change (Str.includes "expect(true).toBe(false)"
              (SpecModel.header componentName requirements metadata +:+
               SpecModel.acceptance_group componentName
                 (SpecModel.strings "acceptanceCriteria" requirements) +:+
               SpecModel.accessibility_group componentName +:+
               "});" +:+ Str.nl) = true).
    apply includes_append_r, includes_append_r, includes_append_l.
    apply accessibility_group_red_phase.
  - reflexivity.
Qed.

(** ** The interactive feature command line *)

Lemma with_stdin_same (w : World) : w = with_stdin w (stdin w).
Proof. by destruct w. Qed.

Section Combinators.

Context {A B : Type}.

Lemma never_exits_ret (a : A) : never_exits (ret a).
Proof. by intros w w' t code. Qed.

Lemma never_exits_throw (e : JsError) : never_exits (throw (A := A) e).
Proof. by intros w w' t code. Qed.

Lemma never_exits_lift (r : Result A) : never_exits (lift r).
Proof. destruct r; [apply never_exits_ret | apply never_exits_throw]. Qed.

Lemma never_exits_ask (f : World -> A) : never_exits (ask f).
Proof. by intros w w' t code. Qed.

Lemma never_exits_bind (m : Proc A) (k : A -> Proc B) :
  never_exits m -> (forall a, never_exits (k a)) -> never_exits (bind m k).
Proof.
  intros Hm Hk w w' t code. unfold bind.
  destruct (m w) as [[w1 t1] [a | e | c |]] eqn:Hmw; try done.
  - destruct (k a w1) as [[w2 t2] o] eqn:Hkw. intros [= -> _ ->].
    by apply Hk in Hkw.
  - by apply Hm in Hmw.
Qed.

Lemma never_exits_try_catch (m : Proc A) (handler : JsError -> Proc A) :
  never_exits m -> (forall e, never_exits (handler e)) ->
  never_exits (try_catch m handler).
Proof.
  intros Hm Hh w w' t code. unfold try_catch.
  destruct (m w) as [[w1 t1] [a | e | c |]] eqn:Hmw; try done.
  - destruct (handler e w1) as [[w2 t2] o] eqn:Hhw. intros [= -> _ ->].
    by apply Hh in Hhw.
  - by apply Hm in Hmw.
Qed.

Lemma only_reads_input_ret (a : A) : only_reads_input (ret a).
Proof. intros w w' t o [= <- _ _]. apply with_stdin_same. Qed.

Lemma only_reads_input_bind (m : Proc A) (k : A -> Proc B) :
  only_reads_input m -> (forall a, only_reads_input (k a)) ->
  only_reads_input (bind m k).
Proof.
  intros Hm Hk w w' t o. unfold bind.
  destruct (m w) as [[w1 t1] [a | e | c |]] eqn:Hmw;
    try (intros [= <- _ _]; by apply Hm in Hmw).
  destruct (k a w1) as [[w2 t2] o2] eqn:Hkw. intros [= <- _ _].
  apply Hm in Hmw. apply Hk in Hkw. rewrite Hkw, Hmw at 1. reflexivity.
Qed.

End Combinators.

Lemma never_exits_emit (e : Event) : never_exits (emit e).
Proof. by intros w w' t code. Qed.

Lemma never_exits_when (c : bool) (body : Proc unit) :
  never_exits body -> never_exits (when c body).
Proof. destruct c; [done | intros _; apply never_exits_ret]. Qed.

Lemma never_exits_execSync (command : string) : never_exits (execSync command).
Proof.
  apply never_exits_bind; [apply never_exits_emit |].
  intros _ w w' t code. by destruct (exec w command).
Qed.

Lemma never_exits_writeFileSync (path content : string) :
  never_exits (fs_writeFileSync path content).
Proof.
  intros w w' t code. unfold fs_writeFileSync.
  by destruct (denied w !! path), (fs w !! path) as [[] |].
Qed.

Lemma never_exits_prompt (question : string) : never_exits (prompt question).
Proof.
  apply never_exits_bind; [apply never_exits_emit |].
  intros _ w w' t code. by destruct (stdin w).
Qed.

Lemma never_exits_prompt_items (question : string) :
  never_exits (Feature.prompt_items question).
Proof.
  intros w w' t code. unfold Feature.prompt_items.
  by destruct (Feature.read_items question (stdin w)) as [[t' items] []].
Qed.

Lemma only_reads_input_emit (e : Event) : only_reads_input (emit e).
Proof. intros w w' t o [= <- _ _]. apply with_stdin_same. Qed.

Lemma only_reads_input_prompt (question : string) : only_reads_input (prompt question).
Proof.
  apply only_reads_input_bind; [apply only_reads_input_emit |].
  intros _ w w' t o. destruct (stdin w); intros [= <- _ _]; [apply with_stdin_same | done].
Qed.

Lemma only_reads_input_prompt_items (question : string) :
  only_reads_input (Feature.prompt_items question).
Proof.
  intros w w' t o. unfold Feature.prompt_items.
  by destruct (Feature.read_items question (stdin w)) as [[t' items] []];
    intros [= <- _ _].
Qed.

(** Discharges [never_exits] and [only_reads_input] along the structure of
    a computation. *)
Ltac structural :=
  repeat first
    [ apply never_exits_execSync
    | apply never_exits_writeFileSync
    | apply never_exits_prompt
    | apply never_exits_prompt_items
    | apply never_exits_when
    | apply never_exits_ret
    | apply never_exits_lift
    | apply never_exits_ask
    | apply never_exits_emit
    | apply never_exits_try_catch; [| intros ?]
    | apply never_exits_bind; [| intros ?]
    | match goal with
      | |- never_exits (if ?b then _ else _) => destruct b
      end
    | apply only_reads_input_prompt
    | apply only_reads_input_prompt_items
    | apply only_reads_input_ret
    | apply only_reads_input_emit
    | apply only_reads_input_bind; [| intros ?] ].

Lemma collect_only_reads_input : only_reads_input Feature.collect.
Proof. unfold Feature.collect, console_log. structural. Qed.

Lemma collect_never_exits : never_exits Feature.collect.
Proof. unfold Feature.collect, console_log. structural. Qed.

Section FeatureFacts.

Context {package : TestGenerator}.

Import Feature.

Lemma publish_issue_never_exits (a : Answers) : never_exits (publish_issue a).
Proof.
  unfold publish_issue, hasGitHubCLI, console_log, console_error, Node.path_join.
  structural.
Qed.

Lemma generate_local_never_exits (a : Answers) : never_exits (generate_local a).
Proof.
  unfold generate_local, console_log, console_error, Node.path_join. structural.
Qed.

Lemma main_never_exits : never_exits main.
Proof.
  unfold main. apply never_exits_bind; [apply collect_never_exits |].
  intros a. unfold act.
  apply never_exits_bind; [apply publish_issue_never_exits | intros _].
  apply never_exits_bind; [apply never_exits_prompt | intros generateLocal].
  apply never_exits_bind; [| intros _; apply never_exits_emit].
  apply never_exits_when, generate_local_never_exits.
Qed.

(** C6 (amended): the interactive command line exits with status 0, on
    completion and otherwise; an error that escapes [main] is caught by the
    handler at the top level, which prints it with its stack on the
    diagnostic stream, and the exit status is still 0. *)
Theorem interactive_exit_status (w : World) :
  let r := run tdd_feature w in
  status r = 0 /\
  (forall w' t e,
     main w = (w', t, Throw e) ->
     trace r = t ++ [Stderr (stack e)] /\ final r = w').
Proof.
  intros r. subst r. unfold run, tdd_feature, try_catch.
  destruct (main w) as [[w' t] [[] | e | code |]] eqn:Hmain; simpl.
  - by split.
  - split; [done |]. by intros ? ? ? [= <- <- <-].
  - by apply main_never_exits in Hmain.
  - by split.
Qed.





Lemma prompt_answer (question line : string) (rest : list string) (w : World) :
  stdin w = line :: rest ->
  prompt question w = (with_stdin w rest, [Asked question], Ret line).
Proof. intros H. unfold prompt. proc_step. by rewrite H. Qed.



End FeatureFacts.

(** ** Sample runs *)

Lemma batch_exit_status_witness :
  status (run Batch.generate_tests_from_issue (with_argv host ["LoginForm"])) = 1 /\
  status (run Batch.generate_tests_from_issue
            (with_argv host ["LoginForm"; LoginForm_json])) = 0.
Proof.
  split.
  - apply (proj1 (batch_exit_status (with_argv host ["LoginForm"]))).
    left. right. reflexivity.
  - apply (proj2 (batch_exit_status (with_argv host ["LoginForm"; LoginForm_json]))).
    intros [[H | H] | [(j & e & Hj & H) | [(j & r & Hj & Hparse & H)
                        | (c & j & r & t & Hc & Hj & Hparse & Hgen & H)]]].
    + discriminate H.
    + discriminate H.
    + injection Hj as <-. discriminate H.
    + injection Hj as <-. injection Hparse as <-. discriminate H.
    + injection Hc as <-. injection Hj as <-. injection Hparse as <-.
      vm_compute in Hgen. injection Hgen as <-. discriminate H.
Defined.

Lemma batch_sentinel_block_witness :
  (exists testContent,
     SpecModel.generateTestContent "LoginForm" LoginForm_requirements no_metadata
     = Ok testContent /\
     stdout (trace (run Batch.generate_tests_from_issue
                      (with_argv host ["LoginForm"; LoginForm_json])))
     = ["TEST_CONTENT_START"; testContent; "TEST_CONTENT_END"]) /\
  stdout (trace (run Batch.generate_tests_from_issue
                   (with_argv host ["LoginForm"; "{oops"]))) = [].
Proof.
  split.
  - eexists. split; [reflexivity |].
    apply (proj1 (batch_sentinel_block (with_argv host ["LoginForm"; LoginForm_json]))).
    exists "LoginForm", LoginForm_json, LoginForm_requirements.
    repeat split; try discriminate; reflexivity.
  - apply (proj1 (proj2 (batch_sentinel_block (with_argv host ["LoginForm"; "{oops"])))).
    intros testContent (c & j & r & _ & _ & Hj & _ & Hparse & _).
    injection Hj as <-. discriminate Hparse.
Defined.

Lemma scaffold_never_overwrites_witness :
  let r := run Scaffold.create_tdd_component Button_exists in
  status r <> 0 /\
  writes (trace r) = [] /\
  fs (final r) !! "/repo/scripts/../src/components/Button.test.ts"
  = Some (File "// my tests") /\
  stderr (trace r)
  = ["❌ Test file already exists: /repo/scripts/../src/components/Button.test.ts"].
Proof.
  destruct (scaffold_never_overwrites Button_exists "Button" eq_refl)
    as [_ H]; [discriminate |].
  destruct H as (Hstatus & Hwrites & Hfs & Hreport).
  { left. by eexists. }
  refine (conj Hstatus (conj Hwrites (conj _ _))).
  - apply Hfs. reflexivity.
  - rewrite Hreport; [reflexivity |]. by eexists.
Defined.

Lemma generation_is_deterministic_witness :
  exists content,
    map snd (writes (trace (run Scaffold.create_tdd_component
                              (with_argv host ["Button"; "Issue #7: A button"]))))
      !! 0%nat = Some content /\
    map snd (writes (trace (run Scaffold.create_tdd_component elsewhere)))
      !! 0%nat = Some content.
Proof.
  exists (Scaffold.testTemplate "Button" "Issue #7: A button").
  assert (map snd (writes (trace (run Scaffold.create_tdd_component
                                    (with_argv host ["Button"; "Issue #7: A button"]))))
            !! 0%nat = Some (Scaffold.testTemplate "Button" "Issue #7: A button")) as Hhere
    by (vm_compute; reflexivity).
  split; [exact Hhere |].
  destruct (map snd (writes (trace (run Scaffold.create_tdd_component elsewhere)))
              !! 0%nat) as [content |] eqn:Hthere;
    [| vm_compute in Hthere; discriminate Hthere].
  f_equal.
  exact (proj2 (proj2 (generation_is_deterministic (package := spec_package)))
           elsewhere (with_argv host ["Button"; "Issue #7: A button"]) "Button"
           eq_refl eq_refl eq_refl 0%nat _ _ Hthere Hhere).
Defined.

Lemma generated_tests_follow_tdd_witness :
  SpecModel.generateTestContent "UserProfile" UserProfile_requirements
    {| issueNumber := Some "1";
       issueTitle := Some "[FEATURE] UserProfile - Display user profile information" |}
  = Ok UserProfile_test_ts /\
  Str.includes
    ("', async () => {" +:+ Str.nl +:+
     Str.text [
       "      // Acceptance Criteria: " +:+ "Performance: Profile should load within 2 seconds";
       "      const { user } = render(" +:+ "UserProfile" +:+ ");";
       "";
       "      // TODO: Implement test for: " +:+ "Performance: Profile should load within 2 seconds";
       "";
       "      expect(true).toBe(false); // Red phase - this should fail";
       "    });" ])
    UserProfile_test_ts = true /\
  followsTddPattern (summary (SpecModel.performFullValidation UserProfile_test_ts "UserProfile"))
  = true.
Proof.
  assert (SpecModel.generateTestContent "UserProfile" UserProfile_requirements
            {| issueNumber := Some "1";
               issueTitle := Some "[FEATURE] UserProfile - Display user profile information" |}
          = Ok UserProfile_test_ts) as Hgenerated by (vm_compute; reflexivity).
  pose proof (generated_tests_follow_tdd _ _ _ _ Hgenerated) as [Hcriteria [Hflag _]].
  assert ("Performance: Profile should load within 2 seconds"
          ∈ SpecModel.strings "acceptanceCriteria" UserProfile_requirements) as Hin
    by (apply (list_elem_of_lookup_2 _ 3%nat); reflexivity).
  exact (conj Hgenerated (conj (Hcriteria _ Hin) Hflag)).
Defined.

Lemma interactive_exit_status_witness :
  status (run (Feature.tdd_feature (package := spec_package)) scaffold_fails) = 0 /\
  last (trace (run (Feature.tdd_feature (package := spec_package)) scaffold_fails))
  = Some (Stderr (stack (command_failed (Feature.scaffold_command Button_answers)))).
Proof.
  destruct (interactive_exit_status (package := spec_package) scaffold_fails)
    as [Hstatus Htrace].
  split; [exact Hstatus |].
  edestruct Htrace as [-> _]; [vm_compute; reflexivity |].
  apply last_snoc.
Defined.

(** C6 as stated fails: when the scaffold generator fails, the error
    escapes [main], and the process still exits with status 0. *)
Lemma interactive_error_exits_with_zero :
  (exists w' t,
     Feature.main (package := spec_package) scaffold_fails
     = (w', t, Throw (command_failed (Feature.scaffold_command Button_answers)))) /\
  ~ status (run (Feature.tdd_feature (package := spec_package)) scaffold_fails) <> 0.
Proof.
  split.
  - eexists _, _. vm_compute. reflexivity.
  - intros H. apply H. vm_compute. reflexivity.
Qed.


Lemma empty_component_name_is_fatal_witness :
  status (run Scaffold.create_tdd_component (with_argv host [""])) <> 0 /\
  writes (trace (run Scaffold.create_tdd_component (with_argv host [""]))) = [] /\
  status (run (Batch.generate_tests_from_issue (package := spec_package))
            (with_argv host [""; "{}"])) <> 0.
Proof.
  destruct (empty_component_name_is_fatal (package := spec_package)
              (with_argv host [""]) eq_refl) as ((Hstatus & _ & Hwrites & _) & _).
  destruct (empty_component_name_is_fatal (package := spec_package)
              (with_argv host [""; "{}"]) eq_refl) as (_ & (Hbatch & _) & _).
  exact (conj Hstatus (conj Hwrites Hbatch)).
Defined.

(** The model of the generator reproduces the generated file
    [UserProfile.test.ts] to the letter. *)
Example generateTestContent_UserProfile :
  SpecModel.generateTestContent "UserProfile" UserProfile_requirements
    {| issueNumber := Some "1";
       issueTitle := Some "[FEATURE] UserProfile - Display user profile information" |}
  = Ok UserProfile_test_ts.
Proof. vm_compute. reflexivity. Qed.

(** * Further properties *)

(** ** The storage mock, continued *)

Section StorageMore.

Import Setup.

Lemma remove_cons (k v : string) (store : Store) (key : string) :
  remove ((k, v) :: store) key
  = if String.eqb k key then remove store key else (k, v) :: remove store key.
Proof.
  unfold remove. change Store with (list (string * string)). rewrite filter_cons. simpl. by destruct (String.eqb k key).
Qed.

Lemma own_remove_eq (store : Store) (key : string) : own (remove store key) key = None.
Proof.
  induction store as [|[k v] store IH]; [done |]. rewrite remove_cons.
  destruct (String.eqb k key) eqn:E; simpl; [exact IH |]. by rewrite E.
Qed.

Lemma own_remove_ne (store : Store) (key key' : string) :
  key <> key' -> own (remove store key) key' = own store key'.
Proof.
  intros Hne. induction store as [|[k v] store IH]; [done |]. rewrite remove_cons.
  simpl. destruct (String.eqb k key) eqn:E; simpl.
  - apply String.eqb_eq in E as ->. by apply String.eqb_neq in Hne as ->.
  - by rewrite IH.
Qed.

Lemma own_Some_elem (store : Store) (key : string) :
  is_Some (own store key) <-> key ∈ map fst store.
Proof.
  induction store as [|[k v] store IH]; simpl.
  - split; [by intros [? ?] | by intros ?%elem_of_nil].
  - destruct (String.eqb_spec k key) as [-> | Hne].
    + split; [intros _; apply list_elem_of_here | by eexists].
    + rewrite IH. split; [apply list_elem_of_further |].
      intros [? | ?]%elem_of_cons; [congruence | done].
Qed.

Lemma insert_sorted_perm (k : N * string) (l : list (N * string)) :
  insert_sorted k l ≡ₚ k :: l.
Proof.
  induction l as [|k' l IH]; [done |]. simpl.
  destruct (fst k <=? fst k')%N; [done |].
  rewrite IH. apply Permutation_swap.
Qed.

(** [Object.keys] lists every own property once. *)
Lemma keys_perm (store : Store) : keys store ≡ₚ map fst store.
Proof.
  unfold keys. induction store as [|[k v] store IH]; [done |]. simpl.
  destruct (array_index k) as [n |] eqn:E; simpl.
  - rewrite filter_cons, E, decide_False.
    2:{ rewrite bool_decide_eq_true_2 by (by eexists). simpl. tauto. }
    rewrite insert_sorted_perm. simpl. by rewrite IH.
  - rewrite filter_cons, E, decide_True by done.
    rewrite <- Permutation_middle. by rewrite IH.
Qed.

Lemma length_store (store : Store) : length store = List.length store.
Proof.
  unfold length. rewrite (Permutation_length (keys_perm store)). apply length_map.
Qed.

Lemma length_assign (store : Store) (key value : string) :
  List.length (assign store key value)
  = match own store key with
    | Some _ => List.length store
    | None => S (List.length store)
    end.
Proof.
  induction store as [|[k v] store IH]; [done |]. simpl.
  destruct (String.eqb k key); simpl; [done |].
  rewrite IH. by destruct (own store key).
Qed.

Lemma assign_keys (store : Store) (key value : string) :
  map fst (assign store key value)
  = match own store key with Some _ => map fst store | None => map fst store ++ [key] end.
Proof.
  induction store as [|[k v] store IH]; [done |]. simpl.
  destruct (String.eqb_spec k key) as [-> | Hne]; simpl; [done |].
  rewrite IH. by destruct (own store key).
Qed.

Lemma reachable_NoDup (store : Store) : reachable store -> NoDup (map fst store).
Proof.
  induction 1 as [| store key value _ IH | store key _ IH | store _ _].
  - constructor.
  - unfold setItem, set. destruct (String.eqb key "__proto__"); [done |].
    rewrite assign_keys. destruct (own store key) eqn:E; [done |].
    apply NoDup_app. split; [done |]. split; [| apply NoDup_singleton].
    intros k Hk ->%list_elem_of_singleton.
    apply own_Some_elem in Hk. rewrite E in Hk. by destruct Hk.
  - unfold removeItem. induction store as [|[k v] store IHl]; [done |].
    rewrite remove_cons. simpl in IH. apply NoDup_cons in IH as [Hk Hl].
    destruct (String.eqb k key); [by apply IHl |]. simpl.
    apply NoDup_cons. split; [| by apply IHl].
    intros Hin. apply Hk. apply own_Some_elem. apply own_Some_elem in Hin.
    destruct (String.eqb_spec key k) as [-> | Hne].
    + rewrite own_remove_eq in Hin. by destruct Hin.
    + by rewrite own_remove_ne in Hin.
  - constructor.
Qed.

Lemma length_remove (store : Store) (key : string) :
  NoDup (map fst store) ->
  List.length (remove store key)
  = match own store key with
    | Some _ => pred (List.length store)
    | None => List.length store
    end.
Proof.
  induction store as [|[k v] store IH]; [done |]. simpl.
  intros [Hk Hl]%NoDup_cons. rewrite remove_cons.
  destruct (String.eqb_spec k key) as [-> | Hne]; simpl.
  - assert (own store key = None) as Hown.
    { destruct (own store key) eqn:E; [| done].
      destruct Hk. apply own_Some_elem. by rewrite E. }
    rewrite (IH Hl), Hown. done.
  - rewrite (IH Hl). destruct (own store key) eqn:E; [| done].
    destruct store; [done | simpl; lia].
Qed.

(** X1: the two window properties are one storage.  In every state the
    operations can lead to, [localStorage] and [sessionStorage] read the same
    under every key, and a non-empty value stored through one of them under
    a key other than [__proto__] is read back through the other. *)
Theorem storage_views_agree (ops : list Op) (key : string) :
  call_getItem (after ops) Local key = call_getItem (after ops) Session key /\
  call_length (after ops) Local = call_length (after ops) Session /\
  (forall which value,
     value <> "" -> key <> "__proto__" ->
     call_getItem (call_setItem (after ops) which key value) (other which) key
     = Some (VStr value)).
Proof.
  pose proof (shared_after ops) as Hw. split; [| split].
  - apply (getItem_shared _ Local key Hw).
  - unfold call_length. by rewrite !(ref_shared _ _ Hw).
  - intros which value Hvalue Hkey. by apply setItem_getItem_shared.
Qed.

(** X2: [removeItem(key)] makes [key] read as if it had never been set
    ([null], unless [Object.prototype] defines it), and neither [setItem] nor
    [removeItem] changes what any other key reads. *)
Theorem storage_frame (store : Store) (key : string) :
  getItem (removeItem store key) key = getItem [] key /\
  (inherited key = false -> getItem (removeItem store key) key = VNull) /\
  (forall key' value,
     key <> key' ->
     getItem (setItem store key value) key' = getItem store key' /\
     getItem (removeItem store key) key' = getItem store key').
Proof.
  unfold getItem, removeItem, setItem, set, get. split; [| split].
  - by rewrite own_remove_eq.
  - intros Hkey. by rewrite own_remove_eq, Hkey.
  - intros key' value Hne. split.
    + destruct (String.eqb key "__proto__"); [done |]. by rewrite own_assign_ne.
    + by rewrite own_remove_ne.
Qed.

(** X3: [length] is the number of keys stored.  On the stores the mock can
    hold, setting a key that is not stored (and is not [__proto__]) adds one,
    setting a stored key adds none, removing a stored key takes one away,
    removing another key none, and [clear] leaves zero. *)
Theorem storage_length_counts_keys (store : Store) (key value : string) :
  reachable store ->
  length store = List.length store /\
  (key <> "__proto__" ->
   length (setItem store key value)
   = match own store key with Some _ => length store | None => S (length store) end) /\
  length (removeItem store key)
  = match own store key with Some _ => pred (length store) | None => length store end /\
  length (clear store) = 0%nat.
Proof.
  intros Hreach. pose proof (reachable_NoDup _ Hreach) as Hnodup.
  rewrite !length_store. unfold setItem, set, removeItem.
  split; [done |]. split; [| split; [| done]].
  - intros Hkey. apply String.eqb_neq in Hkey as ->. apply length_assign.
  - by apply length_remove.
Qed.

Lemma storage_length_counts_keys_witness :
  length (setItem (setItem [] "a" "1") "b" "2") = 2%nat /\
  length (setItem (setItem [] "a" "1") "a" "2") = 1%nat /\
  length (removeItem (setItem [] "a" "1") "a") = 0%nat.
Proof.
  assert (reachable (setItem [] "a" "1")) as H by (repeat constructor).
  destruct (storage_length_counts_keys _ "b" "2" H) as (_ & Hb & _).
  destruct (storage_length_counts_keys _ "a" "2" H) as (_ & Ha & Hr & _).
  refine (conj _ (conj _ _)).
  - rewrite Hb; [reflexivity | discriminate].
  - rewrite Ha; [reflexivity | discriminate].
  - rewrite Hr. reflexivity.
Defined.

(** X4: [key(index)] enumerates the stored keys.  Every index from 0 to
    [length - 1] holds a stored key (read as [null] when that key is the
    empty string), every other index gives [null], and every non-empty
    stored key is found at some index. *)
Theorem storage_key_enumerates (store : Store) :
  (forall index : Z,
     (0 <= index < Z.of_nat (length store) ->
      exists k, stored store k /\ key store index = if String.eqb k "" then VNull else VStr k) /\
     (index < 0 \/ Z.of_nat (length store) <= index -> key store index = VNull)) /\
  (forall k, stored store k -> k <> "" -> exists index, key store index = VStr k).
Proof.
  unfold key, length, Js.index, stored. split.
  - intros index. split.
    + intros [Hlo Hhi]. destruct (Z.ltb_spec index 0); [lia |].
      destruct (keys store !! Z.to_nat index) as [k |] eqn:Hk.
      2:{ apply lookup_ge_None in Hk. lia. }
      exists k. split.
      * apply own_Some_elem. rewrite <- (keys_perm store).
        by eapply list_elem_of_lookup_2.
      * simpl. unfold or_else. simpl. by destruct (String.eqb k "").
    + intros Hout. destruct (Z.ltb_spec index 0); [done |].
      destruct Hout as [| Hhi]; [lia |].
      rewrite lookup_ge_None_2; [done | lia].
  - intros k Hk Hne.
    apply own_Some_elem in Hk. rewrite <- (keys_perm store) in Hk.
    apply list_elem_of_lookup in Hk as [i Hi].
    exists (Z.of_nat i). destruct (Z.ltb_spec (Z.of_nat i) 0); [lia |].
    rewrite Nat2Z.id, Hi. simpl. unfold or_else. simpl.
    by apply String.eqb_neq in Hne as ->.
Qed.

(** X5: the keys of [Object.prototype] show through the mock.  Such a key
    reads as the inherited member, never as [null], as long as it is not
    stored; and [setItem("__proto__", value)] stores nothing at all. *)
Theorem storage_prototype_keys (store : Store) (key value : string) :
  (inherited key = true -> ~ stored store key ->
   getItem store key = VObj ("Object.prototype." +:+ key)) /\
  setItem store "__proto__" value = store.
Proof.
  split; [| done].
  intros Hkey Hstored. unfold getItem, get.
  destruct (own store key) eqn:E; [destruct Hstored; by eexists |].
  by rewrite Hkey.
Qed.

End StorageMore.

(** ** [getAllEmittedEvents] *)

(** X6: [getAllEmittedEvents] against [getEmittedEvent].  For an event
    with recorded emissions it returns one element per emission, the element
    at index [i] being what [getEmittedEvent] returns for [i]; for a name
    without emissions that [Object.prototype] does not define it returns the
    empty list.  For the empty name, and for a name without emissions that
    [Object.prototype] defines, [wrapper.emitted] returns something that is
    no array and [getAllEmittedEvents] throws a [TypeError], where
    [getEmittedEvent] returns [undefined] for the latter. *)
Theorem getAllEmittedEvents_getEmittedEvent (wrapper : VueTesting.VueWrapper)
    (eventName : string) :
  (eventName <> "" ->
   VueTesting.emitted wrapper eventName = None ->
   Setup.inherited eventName = false ->
   Emissions.getAllEmittedEvents wrapper eventName = Ok []) /\
  (forall emissions : list (list Value),
     eventName <> "" ->
     VueTesting.emitted wrapper eventName = Some emissions ->
     exists events,
       Emissions.getAllEmittedEvents wrapper eventName = Ok events /\
       List.length events = List.length emissions /\
       forall i : nat,
         (i < List.length emissions)%nat ->
         events !! i
         = Some (VueTesting.getEmittedEvent wrapper eventName (Some (Z.of_nat i)))) /\
  (eventName = "" ->
   Emissions.getAllEmittedEvents wrapper eventName
   = Err Emissions.map_is_not_a_function) /\
  (eventName <> "" ->
   VueTesting.emitted wrapper eventName = None ->
   Setup.inherited eventName = true ->
   Emissions.getAllEmittedEvents wrapper eventName
   = Err Emissions.map_is_not_a_function /\
   forall index, VueTesting.getEmittedEvent wrapper eventName index = VUndefined).
Proof.
  unfold Emissions.getAllEmittedEvents, Emissions.emitted, VueTesting.getEmittedEvent.
  split; [| split; [| split]].
  - intros Hname -> ->. by apply String.eqb_neq in Hname as ->.
  - intros emissions Hname ->. apply String.eqb_neq in Hname as ->.
    eexists. split; [reflexivity |]. split; [apply length_map |].
    intros i Hi. simpl. unfold Js.index.
    destruct (Z.ltb_spec (Z.of_nat i) 0); [lia |]. rewrite Nat2Z.id.
    rewrite list_lookup_fmap.
    destruct (emissions !! i) eqn:E; [done |].
    apply lookup_ge_None in E. lia.
  - by intros ->.
  - intros Hname -> ->. by apply String.eqb_neq in Hname as ->.
Qed.

(** ** The scaffold generator, continued *)

Lemma directory_step_inv (w w1 : World) (pre : list Event) :
  directory_step w w1 pre ->
  denied w1 = denied w /\
  present w1 (components_dir w) /\
  (forall path, path <> components_dir w -> fs w1 !! path = fs w !! path) /\
  (present w (components_dir w) -> w1 = w) /\
  (~ present w (components_dir w) -> fs w1 !! components_dir w = Some Dir).
Proof.
  destruct 1 as [Hdir | Hdir Hdenied]; simpl.
  - repeat split; try done.
  - repeat split; try done.
    + exists Dir. apply lookup_insert_eq.
    + intros path Hne. by rewrite lookup_insert_ne.
    + intros _. apply lookup_insert_eq.
Qed.

(** X7: a run of the scaffold generator on a fresh component.  When
    neither file exists and the host lets the directory and both files be
    written, the run exits with status 0, reports nothing on the diagnostic
    stream, and writes the test template to the test file and then the
    component template to the component file; afterwards both files hold
    their templates, the components directory is there, and everything the
    file system held before is still there. *)
Theorem scaffold_creates_both_files (w : World) (c : string) :
  argv w !! 2%nat = Some c -> c <> "" ->
  ~ present w (test_file w c) -> ~ present w (component_file w c) ->
  denied w !! test_file w c = None -> denied w !! component_file w c = None ->
  present w (components_dir w) \/ denied w !! components_dir w = None ->
  components_dir w <> test_file w c -> components_dir w <> component_file w c ->
  test_file w c <> component_file w c ->
  let r := run Scaffold.create_tdd_component w in
  let testTemplate := Scaffold.testTemplate c (Scaffold.issueDescription (argv w) c) in
  let componentTemplate := Scaffold.componentTemplate c in
  status r = 0 /\
  stderr (trace r) = [] /\
  writes (trace r)
  = [(test_file w c, testTemplate); (component_file w c, componentTemplate)] /\
  fs (final r) !! test_file w c = Some (File testTemplate) /\
  fs (final r) !! component_file w c = Some (File componentTemplate) /\
  present (final r) (components_dir w) /\
  (forall path node, fs w !! path = Some node -> fs (final r) !! path = Some node).
Proof.
  intros Hc Hce Htest Hcomponent Hdt Hdc Hdir Hne1 Hne2 Hne3 r tt ct. subst r tt ct.
  assert (forall w1 pre path, directory_step w w1 pre ->
            path <> components_dir w -> present w1 path -> present w path) as Hback.
  { intros w1 pre path Hstep Hne [node Hnode]. exists node.
    by rewrite <- (proj1 (proj2 (proj2 (directory_step_inv _ _ _ Hstep)))). }
  destruct (scaffold_run_cases w)
    as [Hnone | c' e Hc' _ Hdir' Hdenied
        | c' w1 pre Hc' _ Hstep Htest'
        | c' w1 pre Hc' _ Hstep Htest' Hcomponent'
        | c' w1 pre e Hc' _ Hstep Htest' Hcomponent' Hdt'
        | c' w1 pre e Hc' _ Hstep Htest' Hcomponent' Hdt' Hdc'
        | c' w1 pre Hc' _ Hstep Htest' Hcomponent' Hdt' Hdc'];
    try (rewrite Hc in Hc'; injection Hc' as <-); simpl.
  - by rewrite Hc, truthy_str_Some in Hnone.
  - destruct Hdir; [done | congruence].
  - destruct Htest. by eapply Hback.
  - destruct Hcomponent. by eapply Hback.
  - congruence.
  - congruence.
  - destruct (directory_step_keeps _ _ _ Hstep) as (Hw & He & _).
    destruct (directory_step_inv _ _ _ Hstep) as (_ & [node Hnode] & Hfs & _).
    rewrite writes_app, stderr_app, Hw, He. simpl.
    repeat split.
    + by rewrite lookup_insert_ne, lookup_insert_eq.
    + by rewrite lookup_insert_eq.
    + exists node. simpl. by rewrite !lookup_insert_ne.
    + intros path entry Hpath.
      destruct (directory_step_keeps _ _ _ Hstep) as (_ & _ & _ & _ & Hkeeps).
      rewrite !lookup_insert_ne; [by apply Hkeeps | |].
      * intros <-. apply Htest. by eexists.
      * intros <-. apply Hcomponent. by eexists.
Qed.

Lemma scaffold_creates_both_files_witness :
  let r := run Scaffold.create_tdd_component (with_argv host ["Button"]) in
  status r = 0 /\
  map fst (writes (trace r))
  = ["/repo/scripts/../src/components/Button.test.ts";
     "/repo/scripts/../src/components/Button.vue"] /\
  fs (final r) !! "/repo/scripts/../src/components" = Some Dir.
Proof.
  destruct (scaffold_creates_both_files (with_argv host ["Button"]) "Button")
    as (Hstatus & _ & Hwrites & _);
    [ reflexivity | discriminate | by intros [? ?] | by intros [? ?]
    | reflexivity | reflexivity | by right
    | discriminate | discriminate | discriminate |].
  refine (conj Hstatus (conj (f_equal (map fst) Hwrites) _)).
  vm_compute. reflexivity.
Defined.

(** X8: the scaffold generator does not take back what it wrote.  When the
    test file can be written and the component file cannot, the run exits
    with status 1 and reports the error, and the test file it wrote first
    stays: the file system then holds the test file without the component
    file. *)
Theorem scaffold_leaves_test_file_behind (w : World) (c : string) (e : JsError) :
  argv w !! 2%nat = Some c -> c <> "" ->
  present w (components_dir w) ->
  ~ present w (test_file w c) -> ~ present w (component_file w c) ->
  denied w !! test_file w c = None -> denied w !! component_file w c = Some e ->
  test_file w c <> component_file w c ->
  let r := run Scaffold.create_tdd_component w in
  let testTemplate := Scaffold.testTemplate c (Scaffold.issueDescription (argv w) c) in
  status r = 1 /\
  stderr (trace r) = ["❌ Error creating files: " +:+ message e] /\
  writes (trace r) = [(test_file w c, testTemplate)] /\
  fs (final r) !! test_file w c = Some (File testTemplate) /\
  ~ present (final r) (component_file w c).
Proof.
  intros Hc Hce Hdir Htest Hcomponent Hdt Hdc Hne r tt. subst r tt.
  destruct (scaffold_run_cases w)
    as [Hnone | c' e' Hc' _ Hdir' Hdenied
        | c' w1 pre Hc' _ Hstep Htest'
        | c' w1 pre Hc' _ Hstep Htest' Hcomponent'
        | c' w1 pre e' Hc' _ Hstep Htest' Hcomponent' Hdt'
        | c' w1 pre e' Hc' _ Hstep Htest' Hcomponent' Hdt' Hdc'
        | c' w1 pre Hc' _ Hstep Htest' Hcomponent' Hdt' Hdc'];
    try (rewrite Hc in Hc'; injection Hc' as <-);
    try (rewrite (proj1 (proj2 (proj2 (proj2 (directory_step_inv _ _ _ Hstep)))) Hdir)
          in *);
    simpl.
  - by rewrite Hc, truthy_str_Some in Hnone.
  - done.
  - done.
  - done.
  - congruence.
  - destruct (directory_step_keeps _ _ _ Hstep) as (Hw & He & _).
    rewrite writes_app, stderr_app, Hw, He. simpl.
    assert (e' = e) as -> by congruence.
    repeat split.
    + by rewrite lookup_insert_eq.
    + intros [node Hnode]. simpl in Hnode. rewrite lookup_insert_ne in Hnode by done.
      apply Hcomponent. by exists node.
  - congruence.
Qed.

Lemma scaffold_leaves_test_file_behind_witness :
  let r := run Scaffold.create_tdd_component component_denied in
  status r = 1 /\
  map fst (writes (trace r)) = ["/repo/scripts/../src/components/Button.test.ts"] /\
  fs (final r) !! "/repo/scripts/../src/components/Button.vue" = None.
Proof.
  destruct (scaffold_leaves_test_file_behind component_denied "Button"
              (EACCES "/repo/scripts/../src/components/Button.vue"))
    as (Hstatus & _ & Hwrites & _ & Habsent);
    [ reflexivity | discriminate | by eexists | by intros [? ?] | by intros [? ?]
    | reflexivity | reflexivity | discriminate |].
  refine (conj Hstatus (conj (f_equal (map fst) Hwrites) _)).
  apply eq_None_not_Some. exact Habsent.
Defined.

Lemma prefix_append_same (a x y : string) :
  String.prefix (a +:+ x) (a +:+ y) = String.prefix x y.
Proof.
  induction a as [|c a IH]; [done |]. rewrite !append_cons. simpl.
  destruct (ascii_dec c c); [exact IH | congruence].
Qed.

Lemma text_cons (l : string) (lines : list string) :
  Str.text (l :: lines) = l +:+ Str.nl +:+ Str.text lines.
Proof. reflexivity. Qed.

(** X9: the two templates of the scaffold generator fit together.  The
    test file imports the component from [./<name>.vue], mounts it, and
    looks for the element with the test id [<name in lower case>-container];
    the component template renders an element with that same test id. *)
Theorem scaffold_templates_agree (componentName issueDescription : string) :
  let testid :=
    "data-testid=" +:+ Str.dquote +:+ Str.toLowerCase componentName
    +:+ "-container" +:+ Str.dquote in
  let test := Scaffold.testTemplate componentName issueDescription in
  Str.includes testid test = true /\
  Str.includes testid (Scaffold.componentTemplate componentName) = true /\
  Str.includes ("import " +:+ componentName +:+ " from './" +:+ componentName +:+ ".vue'")
    test = true /\
  Str.includes ("mount(" +:+ componentName +:+ ", {") test = true /\
  Str.includes (" * " +:+ issueDescription +:+ Str.nl) test = true.
Proof.
  intros testid test. subst testid test.
  unfold Scaffold.testTemplate, Scaffold.componentTemplate.
  split; [| split; [| split; [| split]]].
  - eapply includes_text; [apply (list_elem_of_lookup_2 _ 30%nat); reflexivity |].
    change "      expect(wrapper.find('[data-testid="
      with ("      expect(wrapper.find('[" +:+ "data-testid=").
    rewrite (append_assoc _ "data-testid=").
    apply includes_append_r, includes_prefix.
    rewrite !prefix_append_same. apply prefix_refl_append.
  - eapply includes_text; [apply (list_elem_of_lookup_2 _ 1%nat); reflexivity |].
    change "  <div data-testid=" with ("  <div " +:+ "data-testid=").
    rewrite (append_assoc _ "data-testid=").
    apply includes_append_r, includes_prefix.
    rewrite !prefix_append_same. apply prefix_refl_append.
  - eapply includes_text; [apply (list_elem_of_lookup_2 _ 15%nat); reflexivity |].
    apply includes_refl.
  - eapply includes_text; [apply (list_elem_of_lookup_2 _ 21%nat); reflexivity |].
    change "    wrapper = mount(" with ("    wrapper = " +:+ "mount(").
    rewrite (append_assoc _ "mount(").
    apply includes_append_r, includes_refl.
  - do 2 rewrite text_cons. apply includes_append_r, includes_append_r.
    rewrite (append_assoc " * "). apply includes_prefix.
    rewrite !prefix_append_same. apply prefix_refl_append.
Qed.

(** ** The batch generator, continued *)

Lemma stderr_map_Stderr (f : string -> string) (items : list string) :
  stderr (map (fun item => Stderr (f item)) items) = map f items.
Proof. induction items as [|x items IH]; [done |]. simpl. by rewrite <- IH. Qed.

Lemma prints_map_Stderr (f : string -> string) (items : list string) :
  Forall prints (map (fun item => Stderr (f item)) items).
Proof. induction items; by constructor. Qed.

Section BatchMore.

Context {package : TestGenerator}.

Lemma prints_warning_lines (contentValidation : ContentValidation) :
  Forall prints (warning_lines contentValidation).
Proof.
  unfold warning_lines. destruct (0 <? _)%nat; [| constructor].
  constructor; [done | apply prints_map_Stderr].
Qed.

(** X10: a failed validation is reported in full.  When the requirements
    are rejected, the diagnostic stream holds the line
    [Invalid requirements:] followed by one line per error of the
    validation, in order, and the generator is not called; when the
    generated text is rejected, it holds the line
    [Generated test content has errors:] followed by one line per error. *)
Theorem batch_lists_every_error (w : World) (c j : string) (requirements : Json) :
  argv w !! 2%nat = Some c -> c <> "" -> argv w !! 3%nat = Some j -> j <> "" ->
  json_parse w j = Ok requirements ->
  let r := run Batch.generate_tests_from_issue w in
  (valid (validateRequirements requirements) = false ->
   stderr (trace r)
   = "❌ Invalid requirements:"
     :: map (fun error => "  - " +:+ error) (errors (validateRequirements requirements)) /\
   calls (trace r) = ["validateRequirements"]) /\
  (forall testContent,
     valid (validateRequirements requirements) = true ->
     generateTestContent c requirements (batch_metadata w) = Ok testContent ->
     valid (performFullValidation testContent c) = false ->
     stderr (trace r)
     = "❌ Generated test content has errors:"
       :: map (fun error => "  - " +:+ error)
            (errors (performFullValidation testContent c))).
Proof.
  intros Hc Hce Hj Hje Hparse r. subst r.
  destruct (batch_run_cases w)
    as [Hmiss | c' j' e Hc' _ Hj' _ Hparse' | c' j' req Hc' _ Hj' _ Hparse' Hvalid
        | c' j' req e Hc' _ Hj' _ Hparse' Hvalid Hgen
        | c' j' req text Hc' _ Hj' _ Hparse' Hvalid Hgen Hcontent
        | c' j' req text Hc' _ Hj' _ Hparse' Hvalid Hgen Hcontent];
    try (rewrite Hc in Hc'; injection Hc' as <-;
         rewrite Hj in Hj'; injection Hj' as <-;
         rewrite Hparse in Hparse'; try discriminate Hparse';
         injection Hparse' as <-);
    simpl.
  - destruct Hmiss as [Hmiss | Hmiss].
    + by rewrite Hc, truthy_str_Some in Hmiss.
    + by rewrite Hj, truthy_str_Some in Hmiss.
  - rewrite stderr_map_Stderr, calls_stderr. split; [done |].
    intros testContent Hvalid'. congruence.
  - split; [congruence |]. intros testContent _ Hgen'. congruence.
  - rewrite stderr_map_Stderr. split; [congruence |].
    intros testContent _ Hgen' _.
    assert (text = testContent) as -> by congruence. reflexivity.
  - split; [congruence |]. intros testContent _ Hgen' Hcontent'. congruence.
Qed.

(** X11: the batch generator only prints.  Whatever its arguments and its
    host, a run consists of lines on the two streams and of calls into the
    package: it reads no input, runs no command, probes and writes no file,
    and it leaves the world as it found it. *)
Theorem batch_only_prints (w : World) :
  let r := run Batch.generate_tests_from_issue w in
  Forall prints (trace r) /\ writes (trace r) = [] /\ final r = w.
Proof.
  intros r. subst r.
  destruct (batch_run_cases w) as [| | | | |]; simpl;
    repeat split;
    rewrite ?writes_app;
    repeat first
      [ apply Forall_cons; split; [exact I |]
      | apply Forall_nil_2
      | apply prints_map_Stderr
      | apply Forall_app; split
      | apply prints_warning_lines ].
  - induction (errors _); done.
  - induction (errors _); done.
  - subst contentValidation. unfold warning_lines.
    destruct (0 <? _)%nat; [| done]. simpl.
    induction (warnings _); done.
Qed.

(** X12: warnings do not fail a run.  When both validations pass, every
    warning of the content validation is printed on the diagnostic stream;
    the block on standard output and the exit status 0 are those of a run
    without warnings, and the diagnostic stream ends with the summary, whose
    [Total tests] figure is the number of errors plus the number of
    warnings. *)
Theorem batch_warnings_are_reported (w : World) (testContent : string) :
  validated w testContent ->
  let r := run Batch.generate_tests_from_issue w in
  let contentValidation :=
    performFullValidation testContent (default "" (argv w !! 2%nat)) in
  status r = 0 /\
  stdout (trace r) = ["TEST_CONTENT_START"; testContent; "TEST_CONTENT_END"] /\
  (forall warning,
     warning ∈ warnings contentValidation -> ("  - " +:+ warning) ∈ stderr (trace r)) /\
  (warnings contentValidation = [] ->
   List.length (stderr (trace r)) = 4%nat) /\
  exists before,
    stderr (trace r)
    = before ++
      [ Str.nl +:+ "✅ Test generation successful";
        "  - Total tests: " +:+
          Str.of_nat (totalErrors (summary contentValidation)
                      + totalWarnings (summary contentValidation));
        "  - Has accessibility tests: " +:+
          Str.of_bool (hasAccessibilityTests (summary contentValidation));
        "  - Follows TDD pattern: " +:+
          Str.of_bool (followsTddPattern (summary contentValidation)) ].
Proof.
  intros (c & j & req & Hc & Hce & Hj & Hje & Hparse & Hvalid & Hgen & Hcontent) r cv.
  subst r cv. rewrite Hc. change (default "" (Some c)) with c.
  destruct (batch_run_cases w)
    as [Hmiss | c' j' e Hc' _ Hj' _ Hparse' | c' j' req' Hc' _ Hj' _ Hparse' Hvalid'
        | c' j' req' e Hc' _ Hj' _ Hparse' Hvalid' Hgen'
        | c' j' req' text Hc' _ Hj' _ Hparse' Hvalid' Hgen' Hcontent'
        | c' j' req' text Hc' _ Hj' _ Hparse' Hvalid' Hgen' Hcontent'];
    try (rewrite Hc in Hc'; injection Hc' as <-;
         rewrite Hj in Hj'; injection Hj' as <-;
         rewrite Hparse in Hparse'; try discriminate Hparse';
         injection Hparse' as <-);
    try congruence.
  - destruct Hmiss as [Hmiss | Hmiss].
    + by rewrite Hc, truthy_str_Some in Hmiss.
    + by rewrite Hj, truthy_str_Some in Hmiss.
  - assert (text = testContent) as -> by congruence.
    subst contentValidation. simpl.
    rewrite stdout_app, stdout_warning_lines, stderr_app. simpl.
    split; [done |]. split; [done |]. split; [| split].
    + intros warning Hwarning. apply elem_of_app. left.
      unfold warning_lines.
      destruct (warnings (performFullValidation testContent c)) as [|x l] eqn:E;
        [by apply elem_of_nil in Hwarning |].
      simpl. rewrite stderr_map_Stderr. apply list_elem_of_further.
      apply (list_elem_of_fmap_2 (fun warning => "  - " +:+ warning) (x :: l)).
      exact Hwarning.
    + unfold warning_lines. by intros ->.
    + by eexists.
Qed.

End BatchMore.

Lemma batch_lists_every_error_witness :
  stderr (trace (run (Batch.generate_tests_from_issue (package := spec_package))
                   (with_argv host ["LoginForm"; "{}"])))
  = ["❌ Invalid requirements:";
     "  - No acceptance criteria or test scenarios to generate tests from"].
Proof.
  exact (proj1 (proj1 (batch_lists_every_error (package := spec_package)
                         (with_argv host ["LoginForm"; "{}"]) "LoginForm" "{}" (JObj [])
                         eq_refl ltac:(discriminate) eq_refl ltac:(discriminate) eq_refl)
                  eq_refl)).
Defined.

Lemma batch_warnings_are_reported_witness :
  status (run (Batch.generate_tests_from_issue (package := spec_package))
            (with_argv host ["LoginForm"; LoginForm_json])) = 0 /\
  List.length
    (stderr (trace (run (Batch.generate_tests_from_issue (package := spec_package))
                      (with_argv host ["LoginForm"; LoginForm_json])))) = 4%nat.
Proof.
  destruct (batch_warnings_are_reported (package := spec_package)
              (with_argv host ["LoginForm"; LoginForm_json])
              (SpecModel.render "LoginForm" LoginForm_requirements no_metadata))
    as (Hstatus & _ & _ & Hquiet & _).
  - exists "LoginForm", LoginForm_json, LoginForm_requirements.
    repeat split; try discriminate; reflexivity.
  - split; [exact Hstatus |]. apply Hquiet. vm_compute. reflexivity.
Defined.

(** ** The interactive feature command line, continued *)

Section ConversationCombinators.

Context {A B : Type}.

Lemma only_converses_ret (a : A) : only_converses (ret a).
Proof. intros w w' t o [= _ <- _]. constructor. Qed.

Lemma only_converses_bind (m : Proc A) (k : A -> Proc B) :
  only_converses m -> (forall a, only_converses (k a)) -> only_converses (bind m k).
Proof.
  intros Hm Hk w w' t o. unfold bind.
  destruct (m w) as [[w1 t1] [a | e | c |]] eqn:Hmw;
    try (intros [= _ <- _]; by apply Hm in Hmw).
  destruct (k a w1) as [[w2 t2] o2] eqn:Hkw. intros [= _ <- _].
  apply Forall_app. split; [by apply Hm in Hmw | by apply Hk in Hkw].
Qed.

End ConversationCombinators.

Lemma only_converses_console_log (line : string) : only_converses (console_log line).
Proof. intros w w' t o [= _ <- _]. by repeat constructor. Qed.

Lemma only_converses_prompt (question : string) : only_converses (prompt question).
Proof.
  intros w w' t o. unfold prompt. proc_step.
  destruct (stdin w); intros [= _ <- _]; by repeat constructor.
Qed.

Lemma read_items_lines (question : string) (items rest : list string) :
  Forall (fun line => line <> "") items ->
  Feature.read_items question (items ++ "" :: rest)
  = (replicate (S (List.length items)) (Asked question), items, Some rest) /\
  Feature.read_items question items
  = (replicate (S (List.length items)) (Asked question), items, None).
Proof.
  induction 1 as [| line items Hline _ [IH1 IH2]]; [done |]. simpl.
  apply String.eqb_neq in Hline. by rewrite Hline, IH1, IH2.
Qed.

Lemma read_items_asks (question : string) (lines : list string) :
  Forall converses (Feature.read_items question lines).1.1.
Proof.
  induction lines as [|line lines IH]; simpl; [by repeat constructor |].
  destruct (String.eqb line ""); [by repeat constructor |].
  destruct (Feature.read_items question lines) as [[t items] remaining].
  by constructor.
Qed.

Lemma only_converses_prompt_items (question : string) :
  only_converses (Feature.prompt_items question).
Proof.
  intros w w' t o. unfold Feature.prompt_items.
  pose proof (read_items_asks question (stdin w)) as H.
  destruct (Feature.read_items question (stdin w)) as [[t' items] []];
    by intros [= _ <- _].
Qed.

Lemma collect_only_converses : only_converses Feature.collect.
Proof.
  unfold Feature.collect.
  repeat first
    [ apply only_converses_console_log
    | apply only_converses_prompt
    | apply only_converses_prompt_items
    | apply only_converses_ret
    | apply only_converses_bind; [| intros ?] ].
Qed.

Lemma delivered_one_by_one (lines : list string) :
  delivered (map (fun line => [line]) lines) = lines.
Proof. induction lines as [|line lines IH]; [done |]. simpl. by rewrite <- IH at 2. Qed.

(** X13: what a list prompt reads depends on how the lines arrive.  When
    they arrive one at a time, non-empty lines and then an empty one,
    [prompt_items] returns exactly the non-empty lines, in order, asks once
    per line read, and leaves the lines after the empty one; when they end
    before an empty line, it never returns.  When the same lines arrive
    together, the first one alone is read, the others are dropped, and the
    prompt never returns. *)
Theorem prompt_items_reads_to_empty_line (question : string)
    (items rest : list string) (w : World) :
  Forall (fun line => line <> "") items ->
  (stdin w = delivered (map (fun line => [line]) (items ++ "" :: rest)) ->
   Feature.prompt_items question w
   = (with_stdin w rest, replicate (S (List.length items)) (Asked question), Ret items)) /\
  (stdin w = delivered (map (fun line => [line]) items) ->
   Feature.prompt_items question w
   = (with_stdin w [], replicate (S (List.length items)) (Asked question), Stall)) /\
  (forall item,
     item <> "" ->
     stdin w = delivered [item :: items ++ "" :: rest] ->
     Feature.prompt_items question w
     = (with_stdin w [], [Asked question; Asked question], Stall)).
Proof.
  intros Hitems. destruct (read_items_lines question items rest Hitems) as [H1 H2].
  unfold Feature.prompt_items. split; [| split].
  - rewrite delivered_one_by_one. intros ->. by rewrite H1.
  - rewrite delivered_one_by_one. intros ->. by rewrite H2.
  - intros item Hitem ->. simpl. by apply String.eqb_neq in Hitem as ->.
Qed.

Lemma prompt_items_reads_to_empty_line_witness :
  Feature.prompt_items "  - "
    (with_stdin host (delivered [["fast"]; ["small"]; [""]; ["local"]]))
  = (with_stdin host ["local"], [Asked "  - "; Asked "  - "; Asked "  - "],
     Ret ["fast"; "small"]) /\
  Feature.prompt_items "  - "
    (with_stdin host (delivered [["fast"; "small"; ""; "local"]]))
  = (with_stdin host [], [Asked "  - "; Asked "  - "], Stall).
Proof.
  assert (Forall (fun line => line <> "") ["small"]) as Hsmall
    by (repeat constructor; discriminate).
  assert (Forall (fun line => line <> "") ["fast"; "small"]) as Hboth
    by (repeat constructor; discriminate).
  split.
  - exact (proj1 (prompt_items_reads_to_empty_line "  - " ["fast"; "small"] ["local"]
                    (with_stdin host (delivered [["fast"]; ["small"]; [""]; ["local"]]))
                    Hboth) eq_refl).
  - exact (proj2 (proj2 (prompt_items_reads_to_empty_line "  - " ["small"] ["local"]
                           (with_stdin host (delivered [["fast"; "small"; ""; "local"]]))
                           Hsmall))
             "fast" ltac:(discriminate) eq_refl).
Defined.

Section FeatureMore.

Context {package : TestGenerator}.

Import Feature.

(** X14: nothing is done before the questionnaire is over.  Collecting the
    answers only prints and asks, and leaves everything but the pending input
    as it is; and when the input ends before the last question is answered,
    the run ends there with status 0: no command is run, no file is written,
    the generator is not called. *)
Theorem questionnaire_comes_first (w w1 : World) (t1 : list Event) (o : Outcome Answers) :
  collect w = (w1, t1, o) ->
  Forall converses t1 /\
  w1 = with_stdin w (stdin w1) /\
  (o = Stall -> run tdd_feature w = {| final := w1; trace := t1; status := 0 |}).
Proof.
  intros Hcollect. split; [| split].
  - by eapply collect_only_converses.
  - by eapply collect_only_reads_input.
  - intros ->. unfold run, tdd_feature, try_catch, main, bind. by rewrite Hcollect.
Qed.

Lemma publish_issue_keeps (a : Answers) (w w2 : World) (t : list Event) (o : Outcome unit) :
  publish_issue a w = (w2, t, o) -> w2 = with_fs w (fs w2).
Proof.
  unfold publish_issue, hasGitHubCLI, fs_writeFileSync. proc_step.
  destruct (exec w "gh --version"); simpl.
  - destruct (exec w (gh_issue_create a)); simpl; intros [= <- _ _]; by destruct w.
  - destruct (denied w !! _); [intros [= <- _ _]; by destruct w |].
    destruct (fs w !! _) as [[] |]; simpl; intros [= <- _ _]; by destruct w.
Qed.

Lemma generate_local_starts (a : Answers) (w : World) :
  exists w' t o,
    generate_local a w
    = (w', Stdout (Str.nl +:+ colors.cyan +:+ "🚀 Generating local TDD setup..."
                   +:+ colors.reset)
           :: Ran (git_checkout a) :: t, o).
Proof.
  unfold generate_local.
  assert (exists t,
            try_catch (execSync (git_checkout a);; ret tt)
              (fun _ => console_log ("Branch " +:+ branchName a
                                     +:+ " may already exist, continuing...")) w
            = (w, Ran (git_checkout a) :: t, Ret tt)) as [t Ht].
  { proc_step. destruct (exec w (git_checkout a)); simpl; by eexists. }
  rewrite (bind_Ret _ _ w w [Stdout _] tt eq_refl).
  rewrite (bind_Ret _ _ _ _ _ _ Ht).
  destruct (bind (execSync (scaffold_command a)) _ w) as [[w3 t3] o3].
  by eexists _, _, _.
Qed.

(** X15: local generation is opt-in.  After the issue step, the run asks
    whether to generate locally.  Unless the answer, in lower case, is [y],
    nothing more is done: the interface is closed and the run is over.  When
    it is, the run goes on with the announcement and the branch creation. *)
Theorem local_generation_is_opt_in (a : Answers) (w w2 : World) (t0 : list Event)
    (answer : string) (rest : list string) :
  publish_issue a w = (w2, t0, Ret tt) ->
  stdin w = answer :: rest ->
  (Str.toLowerCase answer <> "y" ->
   act a w
   = (with_stdin w2 rest, t0 ++ [Asked generate_local_question; Closed], Ret tt)) /\
  (Str.toLowerCase answer = "y" ->
   exists w3 t o,
     act a w
     = (w3,
        t0 ++ Asked generate_local_question
           :: Stdout (Str.nl +:+ colors.cyan +:+ "🚀 Generating local TDD setup..."
                      +:+ colors.reset)
           :: Ran (git_checkout a) :: t,
        o)).
Proof.
  intros Hpublish Hstdin.
  assert (stdin w2 = answer :: rest) as Hstdin2.
  { rewrite (publish_issue_keeps _ _ _ _ _ Hpublish). exact Hstdin. }
  unfold act. rewrite (bind_Ret _ _ _ _ _ _ Hpublish).
  fold generate_local_question.
  rewrite (bind_Ret _ _ _ _ _ _ (prompt_answer _ _ _ _ Hstdin2)).
  split.
  - intros Hno. apply String.eqb_neq in Hno. by rewrite Hno.
  - intros Hyes. apply String.eqb_eq in Hyes. rewrite Hyes. simpl.
    destruct (generate_local_starts a (with_stdin w2 rest)) as (w3 & t & o & Hlocal).
    unfold bind at 1. rewrite Hlocal.
    destruct o as [[] | e | code |]; simpl; by eexists _, _, _.
Qed.

(** X16: a failed issue creation is only logged.  When the GitHub CLI is
    installed and [gh issue create] fails, the issue step prints the error
    on the diagnostic stream and ends normally: none of the success lines is
    printed, no file is written as a fallback, and the world is as it was. *)
Theorem failed_issue_creation_is_logged (a : Answers) (w : World) (out : string)
    (e : JsError) :
  exec w "gh --version" = Ok out ->
  exec w (gh_issue_create a) = Err e ->
  exists t,
    publish_issue a w = (w, t, Ret tt) /\
    stderr t = [colors.red +:+ "Error creating issue:" +:+ colors.reset
                +:+ " " +:+ message e] /\
    stdout t = [Str.nl +:+ colors.green +:+ "✨ Creating GitHub issue..." +:+ colors.reset] /\
    writes t = [].
Proof.
  intros Hgh Hcreate. unfold publish_issue, hasGitHubCLI. proc_step.
  rewrite Hgh. simpl. rewrite Hcreate. simpl. by eexists.
Qed.

End FeatureMore.

Lemma questionnaire_comes_first_witness :
  let w := with_stdin host ["Button"; "A button"] in
  run (Feature.tdd_feature (package := spec_package)) w
  = {| final := (Feature.collect w).1.1; trace := (Feature.collect w).1.2; status := 0 |}.
Proof.
  intros w.
  refine (proj2 (proj2 (questionnaire_comes_first (package := spec_package)
                          w (Feature.collect w).1.1 (Feature.collect w).1.2 Stall _))
            eq_refl).
  vm_compute. reflexivity.
Defined.

Lemma local_generation_is_opt_in_witness :
  exists t0,
    Feature.act (package := spec_package) Button_answers (with_stdin gh_rejects ["n"])
    = (with_stdin gh_rejects [], t0 ++ [Asked generate_local_question; Closed], Ret tt).
Proof.
  exists (Feature.publish_issue Button_answers (with_stdin gh_rejects ["n"])).1.2.
  refine (proj1 (local_generation_is_opt_in (package := spec_package) Button_answers
                   (with_stdin gh_rejects ["n"]) (with_stdin gh_rejects ["n"])
                   _ "n" [] _ eq_refl) _).
  - vm_compute. reflexivity.
  - discriminate.
Defined.

Lemma failed_issue_creation_is_logged_witness :
  exists t,
    Feature.publish_issue Button_answers gh_rejects = (gh_rejects, t, Ret tt) /\
    writes t = [].
Proof.
  destruct (failed_issue_creation_is_logged Button_answers gh_rejects
              "gh version 2.40.0" (command_failed "gh issue create") eq_refl)
    as (t & Hrun & _ & _ & Hwrites).
  - vm_compute. reflexivity.
  - by exists t.
Defined.

Lemma replace_chars_one (p : ascii -> bool) (b c : ascii) (s : string) :
  Str.replace_chars p (String b "") (String c s)
  = String (if p c then b else c) (Str.replace_chars p (String b "") s).
Proof. simpl. by destruct (p c). Qed.

Lemma replace_chars_get (p : ascii -> bool) (b : ascii) (s : string) (i : nat) :
  String.get i (Str.replace_chars p (String b "") s)
  = (fun c => if p c then b else c) <$> String.get i s.
Proof.
  revert i. induction s as [|c s IH]; intros i; [done |].
  rewrite replace_chars_one. destruct i as [|i]; [done |]. simpl. apply IH.
Qed.

Lemma replace_chars_length (p : ascii -> bool) (b : ascii) (s : string) :
  String.length (Str.replace_chars p (String b "") s) = String.length s.
Proof.
  induction s as [|c s IH]; [done |]. rewrite replace_chars_one. simpl. by rewrite IH.
Qed.

(** X17: the name of the file the issue is saved to.  It is
    [issue-<component name>-<timestamp>.md], where the timestamp is the
    clock's text with every colon and every full stop replaced by a hyphen:
    it has the clock's length, keeps every other character in its place, and
    contains neither a colon nor a full stop. *)
Theorem issue_filename_timestamp (a : Feature.Answers) (now : string) :
  exists timestamp,
    Feature.issue_filename a now
    = "issue-" +:+ Feature.componentName a +:+ "-" +:+ timestamp +:+ ".md" /\
    String.length timestamp = String.length now /\
    (forall i c, String.get i timestamp = Some c -> c <> ":"%char /\ c <> "."%char) /\
    (forall i c,
       String.get i now = Some c ->
       String.get i timestamp
       = Some (if bool_decide (c = ":"%char \/ c = "."%char) then "-"%char else c)).
Proof.
  unfold Feature.issue_filename. eexists. split; [reflexivity |].
  split; [apply replace_chars_length |]. split.
  - intros i c. rewrite replace_chars_get.
    destruct (String.get i now) as [c' |]; [| done]. simpl. intros [= <-].
    destruct (Ascii.eqb_spec c' ":"); [by simpl |].
    destruct (Ascii.eqb_spec c' "."); by simpl.
  - intros i c Hc. rewrite replace_chars_get, Hc. simpl. f_equal.
    destruct (Ascii.eqb_spec c ":") as [-> |]; [done |].
    destruct (Ascii.eqb_spec c ".") as [-> |]; [done |]. simpl.
    rewrite bool_decide_eq_false_2; [done | tauto].
Qed.

(** ** The mounting helpers *)

Section MountingFacts.

Import Obj Mounting.

Lemma lookup_spread (target : Object) (v : JsVal) (name : string) :
  spread target v !! name = merged target (own_properties v) name.
Proof.
  unfold spread, merged. rewrite lookup_union.
  by destruct (own_properties v !! name), (target !! name).
Qed.

Lemma lookup_router_stubs (name : string) :
  (<["Teleport" := OBool true]>
     (<["RouterView" := OBool true]>
        (<["RouterLink" := OBool true]> (∅ : Object)))) !! name
  = if bool_decide (name ∈ router_stubs) then Some (OBool true) else None.
Proof.
  unfold router_stubs.
  destruct (decide (name = "Teleport")) as [-> |];
    [by rewrite lookup_insert_eq | rewrite lookup_insert_ne by done].
  destruct (decide (name = "RouterView")) as [-> |];
    [by rewrite lookup_insert_eq | rewrite lookup_insert_ne by done].
  destruct (decide (name = "RouterLink")) as [-> |];
    [by rewrite lookup_insert_eq | rewrite lookup_insert_ne by done].
  rewrite lookup_empty, bool_decide_eq_false_2; [done |].
  rewrite !elem_of_cons, elem_of_nil. tauto.
Qed.

Lemma prop_insert_eq (o : Object) (name : string) (v : JsVal) :
  prop (<[name := v]> o) name = v.
Proof. unfold prop. by rewrite lookup_insert_eq. Qed.

Lemma prop_insert_ne (o : Object) (name name' : string) (v : JsVal) :
  name <> name' -> prop (<[name := v]> o) name' = prop o name'.
Proof. intros H. unfold prop. by rewrite lookup_insert_ne. Qed.

Lemma lookup_spread_empty (v : JsVal) (name : string) :
  spread ∅ v !! name = own_properties v !! name.
Proof.
  rewrite lookup_spread. unfold merged. rewrite lookup_empty.
  by destruct (own_properties v !! name).
Qed.

Lemma lookup_spread_twice (base over : JsVal) (name : string) :
  spread (spread ∅ base) over !! name
  = merged (own_properties base) (own_properties over) name.
Proof.
  rewrite lookup_spread. unfold merged. by rewrite lookup_spread_empty.
Qed.

(** X18: the stubs [renderComponent] mounts with.  A stub the caller
    gives under [global.stubs] is passed on as given; [RouterLink],
    [RouterView] and [Teleport] are stubbed unless the caller says otherwise;
    nothing else is stubbed. *)
Theorem renderComponent_stubs (component : JsVal) (options : Object) (name : string) :
  own_properties (stubs_of (Mounting.options (renderComponent component options))) !! name
  = match own_properties (stubs_of options) !! name with
    | Some stub => Some stub
    | None => if bool_decide (name ∈ router_stubs) then Some (OBool true) else None
    end.
Proof.
  unfold renderComponent, stubs_of. simpl.
  rewrite prop_insert_eq. simpl. rewrite prop_insert_eq. simpl.
  rewrite lookup_spread. unfold merged. rewrite lookup_router_stubs.
  unfold prop. by rewrite lookup_delete_ne.
Qed.

(** X19: what [renderComponent] passes on.  It mounts the component it
    was given, with [shallowMount] exactly when the option [shallow] is
    truthy; the option [shallow] itself is not passed on; every other option
    is, as given, and so is every key of [global] other than [stubs]. *)
Theorem renderComponent_passes_options (component : JsVal) (options : Object) :
  let call := renderComponent component options in
  shallow call = truthy (prop options "shallow") /\
  Mounting.component call = component /\
  Mounting.options call !! "shallow" = None /\
  (forall name,
     name <> "shallow" -> name <> "global" ->
     Mounting.options call !! name = options !! name) /\
  (forall name,
     name <> "stubs" ->
     own_properties (prop (Mounting.options call) "global") !! name
     = own_properties (prop options "global") !! name).
Proof.
  unfold renderComponent. simpl. split; [done |]. split; [done |].
  split; [| split].
  - rewrite lookup_insert_ne by done. rewrite lookup_spread_empty. simpl.
    apply lookup_delete_eq.
  - intros name H1 H2. rewrite lookup_insert_ne by done.
    rewrite lookup_spread_empty. simpl. by apply lookup_delete_ne.
  - intros name Hname. rewrite prop_insert_eq. simpl.
    rewrite lookup_insert_ne by done. rewrite lookup_spread_empty.
    unfold prop. by rewrite lookup_delete_ne.
Qed.

(** X20: [render] of the Testing Library helpers merges the default stubs
    in vain.  When the caller gives [global.stubs], these stubs alone are
    used, and [RouterLink], [RouterView] and [Teleport] are stubbed only if
    the caller lists them; the default stubs are used when the caller gives
    none.  Every other option and every other key of [global] is passed on
    as given. *)
Theorem render_stubs (component : JsVal) (options : Object) :
  let passed := TestingLibrary.render component options in
  (forall stubs,
     own_properties (prop options "global") !! "stubs" = Some stubs ->
     stubs_of passed = stubs) /\
  (own_properties (prop options "global") !! "stubs" = None ->
   forall name,
     own_properties (stubs_of passed) !! name
     = if bool_decide (name ∈ router_stubs) then Some (OBool true) else None) /\
  (forall name, name <> "global" -> passed !! name = options !! name) /\
  (forall name,
     name <> "stubs" ->
     own_properties (prop passed "global") !! name
     = own_properties (prop options "global") !! name).
Proof.
  unfold TestingLibrary.render, stubs_of. simpl.
  rewrite !prop_insert_eq. simpl.
  split; [| split; [| split]].
  - intros stubs Hstubs. unfold prop at 1. rewrite lookup_spread. unfold merged.
    by rewrite Hstubs.
  - intros Hnone name. unfold prop at 1. rewrite lookup_spread. unfold merged.
    rewrite Hnone, lookup_insert_eq. simpl.
    rewrite lookup_spread. unfold merged.
    assert (optional_member (prop options "global") "stubs" = OUndefined) as ->.
    { destruct (prop options "global"); try done. simpl in *. unfold prop.
      by rewrite Hnone. }
    simpl. rewrite lookup_empty. apply lookup_router_stubs.
  - intros name Hname. rewrite lookup_insert_ne by done.
    by rewrite lookup_spread_empty.
  - intros name Hname. rewrite lookup_spread. unfold merged.
    rewrite lookup_insert_ne, lookup_empty by done.
    by destruct (own_properties _ !! name).
Qed.

(** X21: what [mountWithProvide] provides.  A key of [provides] is
    provided with its value unless the options give the same key under
    [global.provide], whose value then wins; the keys of [global.provide]
    are all provided.  The component is mounted with [mount], and every
    other option and every other key of [global] is passed on as given. *)
Theorem mountWithProvide_provides (component : JsVal) (provides options : Object) :
  let call := mountWithProvide component provides options in
  (forall name,
     own_properties (provide_of (Mounting.options call)) !! name
     = merged provides (own_properties (provide_of options)) name) /\
  shallow call = false /\
  (forall name, name <> "global" -> Mounting.options call !! name = options !! name) /\
  (forall name,
     name <> "provide" ->
     own_properties (prop (Mounting.options call) "global") !! name
     = own_properties (prop options "global") !! name).
Proof.
  unfold mountWithProvide, provide_of. simpl.
  rewrite !prop_insert_eq. simpl.
  split; [| split; [done | split]].
  - intros name. rewrite prop_insert_eq. simpl. apply lookup_spread_twice.
  - intros name Hname. rewrite lookup_insert_ne by done.
    by rewrite lookup_spread_empty.
  - intros name Hname. rewrite lookup_insert_ne by done.
    by rewrite lookup_spread_empty.
Qed.

(** X22: how a wrapper factory merges its options.  The overrides replace
    the default options key by key; [props] and [global] are merged one
    level deeper, the override winning for each prop and for each key of
    [global].  Below that nothing is merged: stubs given in the overrides
    replace the default stubs as a whole. *)
Theorem createWrapperFactory_merges (component : JsVal)
    (defaultOptions overrides : Object) :
  let call := createWrapperFactory component defaultOptions overrides in
  (forall name,
     name <> "props" -> name <> "global" ->
     Mounting.options call !! name = merged defaultOptions overrides name) /\
  (forall name,
     own_properties (prop (Mounting.options call) "props") !! name
     = merged (own_properties (prop defaultOptions "props"))
         (own_properties (prop overrides "props")) name) /\
  (forall name,
     own_properties (prop (Mounting.options call) "global") !! name
     = merged (own_properties (prop defaultOptions "global"))
         (own_properties (prop overrides "global")) name) /\
  (forall stubs,
     own_properties (prop overrides "global") !! "stubs" = Some stubs ->
     stubs_of (Mounting.options call) = stubs).
Proof.
  unfold createWrapperFactory, stubs_of. simpl.
  rewrite prop_insert_eq, prop_insert_ne, prop_insert_eq by done. simpl.
  split; [| split; [| split]].
  - intros name H1 H2. rewrite !lookup_insert_ne by done.
    apply (lookup_spread_twice (OObj defaultOptions) (OObj overrides)).
  - intros name. apply lookup_spread_twice.
  - intros name. apply lookup_spread_twice.
  - intros stubs Hstubs. unfold prop at 1. rewrite lookup_spread_twice.
    unfold merged. by rewrite Hstubs.
Qed.

End MountingFacts.

(** ** The accessibility helpers *)

Section AccessibilityFacts.

Import TestingLibrary.

Lemma existsb_Exists {A : Type} (f : A -> bool) (l : list A) :
  existsb f l = bool_decide (Exists (fun x => f x = true) l).
Proof.
  induction l as [|x l IH].
  - symmetry. apply bool_decide_eq_false_2. by intros ?%Exists_nil.
  - change (existsb f (x :: l)) with (f x || existsb f l). destruct (f x) eqn:Hx.
    + symmetry. apply bool_decide_eq_true_2. by left.
    + rewrite IH. apply bool_decide_ext. rewrite Exists_cons. split; [by right |].
      intros [H | H]; [congruence | done].
Qed.

Lemma text_or_empty_default (element : Element) :
  text_or_empty element = default "" (textContent element).
Proof.
  unfold text_or_empty. destruct (textContent element) as [text |]; [| done].
  simpl. by destruct (String.eqb_spec text "") as [-> |].
Qed.

(** X23: the ARIA attributes a role requires are alternatives.  For a
    role of the table, [hasRequiredAriaAttributes] holds when the table lists
    no attribute for the role, or when the element has at least one of the
    attributes listed: it need not have them all.  It holds for an element
    without a role or with an empty one, and for every role that is neither
    in the table nor the name of a member of [Object.prototype]. *)
Theorem hasRequiredAriaAttributes_any_of (element : Element) :
  (truthy_str (getAttribute element "role") = false ->
   hasRequiredAriaAttributes element = Ok true) /\
  (forall role required,
     getAttribute element "role" = Some role ->
     requiredAttributes !! role = Some required ->
     hasRequiredAriaAttributes element
     = Ok (bool_decide
             (required = [] \/
              Exists (fun attr => is_Some (attributes element !! attr)) required))) /\
  (forall role,
     getAttribute element "role" = Some role ->
     requiredAttributes !! role = None -> Setup.inherited role = false ->
     hasRequiredAriaAttributes element = Ok true).
Proof.
  unfold hasRequiredAriaAttributes. split; [| split].
  - by intros ->.
  - intros role required -> Hrequired. cbn [truthy_str default].
    destruct (String.eqb_spec role "") as [-> | Hrole]; [by vm_compute in Hrequired |].
    cbn [negb Datatypes.id]. rewrite Hrequired.
    destruct required as [|attr required]; [done |].
    cbn [List.length Nat.eqb]. f_equal.
    rewrite existsb_Exists. apply bool_decide_ext. split.
    + intros H. right. eapply Exists_impl; [exact H |].
      intros a Ha. by apply bool_decide_eq_true in Ha.
    + intros [H | H]; [done |]. eapply Exists_impl; [exact H |].
      intros a Ha. by apply bool_decide_eq_true.
  - intros role -> Hnone Hinherited. cbn [truthy_str default].
    destruct (String.eqb role ""); [done |]. cbn [negb Datatypes.id].
    by rewrite Hnone, Hinherited.
Qed.

(** X24: roles named like the members of [Object.prototype].  The table
    of required attributes is a plain object, so for such a role the lookup
    finds the inherited member: the check holds for [toString],
    [toLocaleString] and [valueOf], whose [length] is 0, and throws a
    [TypeError] for the others, whatever attributes the element has. *)
Theorem hasRequiredAriaAttributes_inherited_role (element : Element) (role : string) :
  getAttribute element "role" = Some role ->
  Setup.inherited role = true ->
  hasRequiredAriaAttributes element
  = if bool_decide (role ∈ ["toString"; "toLocaleString"; "valueOf"])
    then Ok true
    else Err (not_a_function "required.some").
Proof.
  intros Hrole Hinherited. unfold hasRequiredAriaAttributes. rewrite Hrole.
  apply bool_decide_eq_true in Hinherited. unfold Setup.object_prototype_keys in Hinherited.
  repeat (apply elem_of_cons in Hinherited as [-> | Hinherited]; [reflexivity |]).
  by apply elem_of_nil in Hinherited.
Qed.

Lemma hasRequiredAriaAttributes_inherited_role_witness :
  hasRequiredAriaAttributes odd_role = Err (not_a_function "required.some").
Proof.
  exact (hasRequiredAriaAttributes_inherited_role odd_role "constructor" eq_refl eq_refl).
Defined.

(** X25: an element with a non-empty [aria-label].  Its accessible name
    is the label, whatever else it holds and whatever the page holds; and it
    is accessible exactly when it is not hidden: by [aria-hidden="true"], by
    a computed [display] of [none] or by a computed [visibility] of
    [hidden]. *)
Theorem aria_label_names_the_element (document : Document) (element : Element)
    (label : string) :
  getAttribute element "aria-label" = Some label -> label <> "" ->
  getAccessibleName document element = Ok label /\
  (isAccessible document element = true <->
   getAttribute element "aria-hidden" <> Some "true" /\
   display (getComputedStyle document element) <> "none" /\
   visibility (getComputedStyle document element) <> "hidden").
Proof.
  intros Hlabel Hne. unfold getAccessibleName, isAccessible. rewrite Hlabel.
  rewrite (truthy_str_Some _ Hne). split; [done |].
  destruct (decide (getAttribute element "aria-hidden" = Some "true")) as [Hhidden | Hhidden].
  - rewrite bool_decide_eq_true_2 by done. split; [done | tauto].
  - rewrite bool_decide_eq_false_2 by done.
    destruct (String.eqb_spec (display (getComputedStyle document element)) "none");
      simpl; [split; [done | tauto] |].
    destruct (String.eqb_spec (visibility (getComputedStyle document element)) "hidden");
      simpl; [split; [done | tauto] |].
    done.
Qed.

Lemma aria_label_names_the_element_witness :
  getAccessibleName blank_page close_button = Ok "Close" /\
  isAccessible blank_page close_button = true.
Proof.
  destruct (aria_label_names_the_element blank_page close_button "Close" eq_refl)
    as [Hname Haccessible]; [discriminate |].
  split; [exact Hname |].
  apply Haccessible. repeat split; discriminate.
Defined.

(** X26: the accessible name of an element without [aria-label].  When
    [aria-labelledby] names an element of the page, the name is that
    element's text, even when the text is empty: nothing else is consulted.
    Otherwise an element that is no form control, or has no id, is named by
    its own text.  The only way [getAccessibleName] fails is on a form
    control with an id, when the selector engine rejects the selector built
    from the id. *)
Theorem accessible_name_by_reference (document : Document) (element : Element) :
  truthy_str (getAttribute element "aria-label") = false ->
  (forall reference label,
     getAttribute element "aria-labelledby" = Some reference -> reference <> "" ->
     getElementById document reference = Some label ->
     getAccessibleName document element = Ok (default "" (textContent label))) /\
  ((truthy_str (getAttribute element "aria-labelledby") = false \/
    getElementById document (default "" (getAttribute element "aria-labelledby")) = None) ->
   form_control element = false \/ id element = "" ->
   getAccessibleName document element = Ok (default "" (textContent element))) /\
  (forall e,
     getAccessibleName document element = Err e ->
     form_control element = true /\ id element <> "" /\
     querySelector document (label_selector element) = Err e).
Proof.
  intros Hlabel. unfold getAccessibleName. rewrite Hlabel.
  assert (form_control element = false \/ id element = "" ->
          name_from_label document element = Ok (default "" (textContent element)))
    as Hplain.
  { unfold name_from_label. intros [-> | ->]; simpl.
    - by rewrite text_or_empty_default.
    - rewrite andb_false_r. by rewrite text_or_empty_default. }
  assert (forall e, name_from_label document element = Err e ->
            form_control element = true /\ id element <> "" /\
            querySelector document (label_selector element) = Err e) as Hfails.
  { unfold name_from_label, label_selector. intros e.
    destruct (form_control element); [| done].
    destruct (String.eqb_spec (id element) ""); simpl; [done |].
    destruct (querySelector document _) as [[label |] | e']; try done.
    by intros [= ->]. }
  split; [| split].
  - intros reference label -> Hne Hfound. rewrite (truthy_str_Some _ Hne). simpl.
    by rewrite Hfound, text_or_empty_default.
  - intros [-> | Hnone] Hcontrol; [by apply Hplain |].
    destruct (truthy_str (getAttribute element "aria-labelledby"));
      [| by apply Hplain].
    rewrite Hnone. by apply Hplain.
  - intros e. destruct (truthy_str (getAttribute element "aria-labelledby"));
      [| by apply Hfails].
    destruct (getElementById document _); [done | by apply Hfails].
Qed.

Lemma accessible_name_by_reference_witness :
  getAccessibleName titled_page titled_input = Ok "".
Proof.
  exact (proj1 (accessible_name_by_reference titled_page titled_input eq_refl)
           "title" empty_title eq_refl ltac:(discriminate) eq_refl).
Defined.

End AccessibilityFacts.

(** ** The matcher [toHaveBeenCalledWithEvent] *)

Section MatcherFacts.

Import Matchers.

Lemma some_other_events (eventType : string) (pre rest : list (list Argument)) :
  Forall (other_event eventType) pre ->
  some (pre ++ rest) eventType = some rest eventType.
Proof.
  induction 1 as [| call pre (type & Hfirst & Htype) _ IH]; [done |]. simpl.
  unfold first_argument in Hfirst. rewrite Hfirst.
  by rewrite bool_decide_eq_false_2.
Qed.

(** X27: [toHaveBeenCalledWithEvent] scans the recorded calls in order.
    After calls whose first argument is something other than an event of the
    type asked for, the matcher passes at the first call with such an event,
    whatever follows; it throws a [TypeError] at the first call whose first
    argument is missing, [undefined] or [null]; and it fails, with the
    message for a missing call, when the calls end. *)
Theorem toHaveBeenCalledWithEvent_scans_in_order (eventType : string)
    (pre : list (list Argument)) :
  Forall (other_event eventType) pre ->
  toHaveBeenCalledWithEvent pre eventType
  = Ok {| pass := false;
          message := "Expected to be called with event type " +:+ Str.dquote
                     +:+ eventType +:+ Str.dquote |} /\
  (forall call post,
     first_argument call = AValue (Some eventType) ->
     toHaveBeenCalledWithEvent (pre ++ call :: post) eventType
     = Ok {| pass := true;
             message := "Expected not to be called with event type " +:+ Str.dquote
                        +:+ eventType +:+ Str.dquote |}) /\
  (forall call post,
     first_argument call = AUndefined ->
     toHaveBeenCalledWithEvent (pre ++ call :: post) eventType
     = Err (cannot_read "undefined")) /\
  (forall call post,
     first_argument call = ANull ->
     toHaveBeenCalledWithEvent (pre ++ call :: post) eventType
     = Err (cannot_read "null")).
Proof.
  intros Hpre. unfold toHaveBeenCalledWithEvent. split; [| split; [| split]].
  - rewrite <- (app_nil_r pre), some_other_events by done. done.
  - intros call post Hcall. rewrite some_other_events by done. simpl.
    unfold first_argument in Hcall. rewrite Hcall.
    by rewrite bool_decide_eq_true_2.
  - intros call post Hcall. rewrite some_other_events by done. simpl.
    unfold first_argument in Hcall. by rewrite Hcall.
  - intros call post Hcall. rewrite some_other_events by done. simpl.
    unfold first_argument in Hcall. by rewrite Hcall.
Qed.

Lemma toHaveBeenCalledWithEvent_scans_in_order_witness :
  (pass <$> match toHaveBeenCalledWithEvent
                    [[AValue (Some "click")]; [AValue (Some "submit")]; []] "submit" with
            | Ok r => Some r
            | Err _ => None
            end) = Some true /\
  toHaveBeenCalledWithEvent [[AValue (Some "click")]; []; [AValue (Some "submit")]] "submit"
  = Err (cannot_read "undefined").
Proof.
  assert (Forall (other_event "submit") [[AValue (Some "click")]]) as Hpre.
  { repeat constructor. by exists (Some "click"). }
  destruct (toHaveBeenCalledWithEvent_scans_in_order "submit" _ Hpre)
    as (_ & Hpass & Hthrow & _).
  split.
  - exact (f_equal (fun r => pass <$> match r with Ok r => Some r | Err _ => None end)
             (Hpass [AValue (Some "submit")] [[]] eq_refl)).
  - exact (Hthrow [] [[AValue (Some "submit")]] eq_refl).
Defined.

End MatcherFacts.

(** ** [waitFor] *)

Section WaitForFacts.

Import Helpers.

Lemma poll_settles (host : Host) (timeout interval : Z) :
  0 < interval ->
  (forall k, 0 <= took host k) ->
  (forall k, interval <= setTimeout host k interval) ->
  forall (n fuel k : nat) (elapsed : Z),
    timeout - elapsed < Z.of_nat n * interval ->
    (n + 1 <= fuel)%nat ->
    exists settled, poll fuel host timeout interval k elapsed = Some settled.
Proof.
  intros Hinterval Htook Htimer.
  induction n as [|n IH]; intros fuel k elapsed Hleft Hfuel;
    (destruct fuel as [|fuel]; [lia |]); simpl;
    (destruct (condition host k) as [[|] | e]; [by eexists | | by eexists]);
    pose proof (Htook k); pose proof (Htimer k).
  - destruct (Z.gtb_spec (elapsed + took host k) timeout); [by eexists | lia].
  - destruct (Z.gtb_spec (elapsed + took host k) timeout); [by eexists |].
    apply IH; lia.
Qed.

(** X28: [waitFor] settles.  When the interval is positive, a timer never
    fires early and the clock never runs backwards, the promise is settled
    after at most [timeout / interval + 2] checks of the condition, whatever
    the condition does. *)
Theorem waitFor_settles (host : Host) (timeout interval : Z) (fuel : nat) :
  0 < interval ->
  (forall k, 0 <= took host k) ->
  (forall k, interval <= setTimeout host k interval) ->
  (Z.to_nat (timeout / interval) + 2 <= fuel)%nat ->
  exists settled, waitFor host timeout interval fuel = Some settled.
Proof.
  intros Hinterval Htook Htimer Hfuel. unfold waitFor.
  apply (poll_settles host timeout interval Hinterval Htook Htimer
           (Z.to_nat (timeout / interval) + 1)); [| lia].
  rewrite Z.sub_0_r.
  destruct (Z.lt_ge_cases timeout 0) as [Hneg | Hpos].
  - assert (timeout / interval < 0) by (apply Z.div_lt_upper_bound; lia).
    lia.
  - pose proof (Z.div_pos timeout interval Hpos Hinterval).
    pose proof (Z.mod_pos_bound timeout interval Hinterval).
    pose proof (Z.div_mod timeout interval). nia.
Qed.

Lemma waitFor_settles_witness :
  exists settled, waitFor punctual 1000 10 102 = Some settled.
Proof.
  apply waitFor_settles; [lia | intros k; simpl; lia | intros k; simpl; lia |].
  vm_compute. lia.
Defined.

Lemma poll_more_fuel (host : Host) (timeout interval : Z) (fuel more k : nat)
    (elapsed : Z) (settled : Settled) :
  poll fuel host timeout interval k elapsed = Some settled ->
  poll (fuel + more) host timeout interval k elapsed = Some settled.
Proof.
  revert k elapsed. induction fuel as [|fuel IH]; intros k elapsed; [done |]. simpl.
  destruct (condition host k) as [[|] | e]; [done | | done].
  destruct (_ >? _); [done |]. apply IH.
Qed.

Lemma poll_checks (host : Host) (timeout interval : Z) (fuel k : nat) (elapsed : Z) :
  match poll fuel host timeout interval k elapsed with
  | Some Resolved =>
      exists n, condition host (k + n) = Ok true /\
                forall j, (j < n)%nat -> condition host (k + j) = Ok false
  | Some (Rejected e) =>
      exists n, (e = timeout_error /\ condition host (k + n) = Ok false \/
                 condition host (k + n) = Err e) /\
                forall j, (j < n)%nat -> condition host (k + j) = Ok false
  | None => forall j, (j < fuel)%nat -> condition host (k + j) = Ok false
  end.
Proof.
  revert k elapsed. induction fuel as [|fuel IH]; intros k elapsed; simpl; [lia |].
  destruct (condition host k) as [[|] | e] eqn:Hk.
  - exists 0%nat. rewrite Nat.add_0_r. split; [done | lia].
  - destruct (_ >? _).
    + exists 0%nat. rewrite Nat.add_0_r. split; [by left | lia].
    + specialize (IH (S k) (elapsed + took host k + setTimeout host k interval)).
      destruct (poll fuel host timeout interval (S k) _) as [[| e] |].
      * destruct IH as (n & Htrue & Hfalse). exists (S n).
        rewrite <- Nat.add_succ_comm. split; [done |].
        intros [|j] Hj; [by rewrite Nat.add_0_r |].
        rewrite <- Nat.add_succ_comm. apply Hfalse. lia.
      * destruct IH as (n & Hlast & Hfalse). exists (S n).
        rewrite <- Nat.add_succ_comm. split; [done |].
        intros [|j] Hj; [by rewrite Nat.add_0_r |].
        rewrite <- Nat.add_succ_comm. apply Hfalse. lia.
      * intros [|j] Hj; [by rewrite Nat.add_0_r |].
        rewrite <- Nat.add_succ_comm. apply IH. lia.
  - exists 0%nat. rewrite Nat.add_0_r. split; [by right | lia].
Qed.

(** X29: what [waitFor] settles with.  The condition is checked before
    the clock: when it holds at the first check the promise is fulfilled,
    whatever the timeout.  The promise is fulfilled only at the first check
    at which the condition holds; it is rejected only after checks at which
    the condition did not hold, with the timeout error after one more such
    check, or with the error the condition threw.  Once settled, the outcome
    is the same however long the loop is run. *)
Theorem waitFor_outcome (host : Host) (timeout interval : Z) (fuel : nat) :
  (condition host 0%nat = Ok true ->
   waitFor host timeout interval (S fuel) = Some Resolved) /\
  (waitFor host timeout interval fuel = Some Resolved ->
   exists n, condition host n = Ok true /\
             forall j, (j < n)%nat -> condition host j = Ok false) /\
  (forall e,
     waitFor host timeout interval fuel = Some (Rejected e) ->
     exists n, (e = timeout_error /\ condition host n = Ok false \/
                condition host n = Err e) /\
               forall j, (j < n)%nat -> condition host j = Ok false) /\
  (forall settled more,
     waitFor host timeout interval fuel = Some settled ->
     waitFor host timeout interval (fuel + more) = Some settled).
Proof.
  unfold waitFor. split; [| split; [| split]].
  - intros H. simpl. by rewrite H.
  - intros H. pose proof (poll_checks host timeout interval fuel 0 0) as Hchecks.
    by rewrite H in Hchecks.
  - intros e H. pose proof (poll_checks host timeout interval fuel 0 0) as Hchecks.
    by rewrite H in Hchecks.
  - intros settled more. apply poll_more_fuel.
Qed.

End WaitForFacts.

(** ** [testReactiveComposable] *)

Section ReactiveFacts.

Import Composables.

Context {T : Type}.

Lemma run_mutations_app (flush : T -> T) (pre rest : list (Mutation T))
    (result result' : T) (steps : list Step) :
  run_mutations flush pre result = (result', steps, None) ->
  run_mutations flush (pre ++ rest) result
  = (let '(r, s, e) := run_mutations flush rest result' in (r, steps ++ s, e)).
Proof.
  revert result steps. induction pre as [|m pre IH]; intros result steps; simpl.
  - intros [= -> <-]. by destruct (run_mutations flush rest result') as [[r s] e].
  - destruct (mutate m result) as [r1 [e1 |]]; [done |].
    destruct (expect m (flush r1)) as [r2 [e2 |]]; [done |].
    destruct (run_mutations flush pre r2) as [[r3 s3] e3] eqn:Hpre.
    intros [= -> <- ->]. rewrite (IH _ _ Hpre).
    by destruct (run_mutations flush rest result') as [[r s] e].
Qed.

Lemma run_mutations_fails (flush : T -> T) (m : Mutation T) (post : list (Mutation T))
    (result : T) (e : JsError) :
  fails flush m result e ->
  run_mutations flush (m :: post) result = run_mutations flush [m] result /\
  (run_mutations flush [m] result).2 = Some e.
Proof.
  unfold fails. simpl.
  destruct (mutate m result) as [r1 [e1 |]]; simpl.
  - intros [[= ->] | [? _]]; done.
  - destruct (expect m (flush r1)) as [r2 [e2 |]]; simpl.
    + intros [? | [_ [= ->]]]; done.
    + intros [? | [_ ?]]; done.
Qed.

Lemma run_mutations_steps (flush : T -> T) (mutations : list (Mutation T)) (result : T) :
  (Unmounted ∉ (run_mutations flush mutations result).1.2) /\
  (List.length (run_mutations flush mutations result).1.2
   <= 2 * List.length mutations)%nat.
Proof.
  revert result. induction mutations as [|m mutations IH]; intros result; simpl.
  - split; [apply not_elem_of_nil | lia].
  - destruct (mutate m result) as [r1 [e1 |]]; simpl.
    { split; [| lia]. rewrite elem_of_cons, elem_of_nil. by intros [? | ?]. }
    destruct (expect m (flush r1)) as [r2 [e2 |]]; simpl.
    { split; [| lia]. rewrite !elem_of_cons, elem_of_nil. by intros [? | [? | ?]]. }
    specialize (IH r2). destruct (run_mutations flush mutations r2) as [[r3 s3] e3].
    simpl in *. destruct IH as [Hnot Hlen]. split; [| lia].
    rewrite !elem_of_cons. by intros [? | [? | ?]].
Qed.

(** X30: [testReactiveComposable] always unmounts, once and last.
    Whatever the mutations and the assertions do, the application is
    unmounted exactly once, after everything else.  The mutations run in
    order up to the first one that fails, in its [mutate] or in its
    assertion: the mutations after it are not run, and the promise is
    rejected with its error, unless unmounting throws, whose error then
    wins. *)
Theorem testReactiveComposable_unmounts (result : T) (flush : T -> T)
    (unmount : option JsError) (mutations : list (Mutation T)) :
  let outcome := testReactiveComposable result flush unmount mutations in
  (exists before,
     outcome.1 = before ++ [Unmounted] /\ (Unmounted ∉ before) /\
     (List.length before <= 2 * List.length mutations)%nat) /\
  (forall e, unmount = Some e -> outcome.2 = Some e) /\
  (forall pre m post result' steps e,
     mutations = pre ++ m :: post ->
     run_mutations flush pre result = (result', steps, None) ->
     fails flush m result' e ->
     outcome = testReactiveComposable result flush unmount (pre ++ [m]) /\
     (unmount = None -> outcome.2 = Some e)).
Proof.
  intros outcome. subst outcome. unfold testReactiveComposable.
  split; [| split].
  - pose proof (run_mutations_steps flush mutations result) as [Hnot Hlen].
    destruct (run_mutations flush mutations result) as [[r s] e]. simpl in *.
    by exists s.
  - intros e ->. by destruct (run_mutations flush mutations result) as [[r s] e'].
  - intros pre m post result' steps e -> Hpre Hfails.
    destruct (run_mutations_fails flush m post result' e Hfails) as [Hsame Herror].
    rewrite !(run_mutations_app _ _ _ _ _ _ Hpre), Hsame.
    destruct (run_mutations flush [m] result') as [[r s] e']. simpl in Herror.
    subst e'. split; [done |]. by intros ->.
Qed.

End ReactiveFacts.
